(** * fastapi-react-demo: the plot pipeline of the React client

    A shallow embedding of [frontend/src/SimplePlot.tsx] (both revisions kept
    in the repository: the 400x200 minimal one and the 800x320 one with
    grid, point markers and legend) and of the plot tab of
    [frontend/src/DemoForm.tsx], followed by the properties of the
    scale, the renderer and the fetch-then-plot logic.

    Number model.  A JavaScript [number] is embedded as a canonical
    rational, or one of the three IEEE-754 special values.  Arithmetic on
    finite values is exact: rounding and overflow of binary64 are not
    modelled, and zero carries no sign (it behaves as [+0]).  Division by
    zero, the arithmetic of the infinities and the propagation of [NaN]
    follow IEEE-754, as JavaScript does. *)

From Stdlib Require Import QArith Qcanon Qround ZArith Arith Bool List.
From Stdlib Require Import String DecimalString Lia Lqa.
Import ListNotations.

Set Implicit Arguments.

(* ================================================================== *)
(** ** JavaScript numbers *)
(* ================================================================== *)

Module JS.

Inductive number : Type :=
| Fin (q : Qc)
| PosInf
| NegInf
| NaN.

(** Integer literals of the source. *)
Definition lit (z : Z) : number := Fin (Q2Qc (inject_Z z)).

(** Decimal literals such as [0.25], written as a fraction. *)
Definition frac (n : Z) (d : positive) : number := Fin (Q2Qc (n # d)).

(** Integer literals as rationals: [lit z = Fin (qlit z)]. *)
Definition qlit (z : Z) : Qc := Q2Qc (inject_Z z).

Definition sign (q : Qc) : comparison := (q ?= 0)%Qc.

(** [a + b] *)
Definition add (a b : number) : number :=
  match a, b with
  | NaN, _ | _, NaN => NaN
  | Fin p, Fin q => Fin (p + q)%Qc
  | PosInf, NegInf | NegInf, PosInf => NaN
  | PosInf, _ | _, PosInf => PosInf
  | NegInf, _ | _, NegInf => NegInf
  end.

(** [a - b] *)
Definition sub (a b : number) : number :=
  match a, b with
  | NaN, _ | _, NaN => NaN
  | Fin p, Fin q => Fin (p - q)%Qc
  | PosInf, PosInf | NegInf, NegInf => NaN
  | PosInf, _ | _, NegInf => PosInf
  | NegInf, _ | _, PosInf => NegInf
  end.

(** The product of an infinity and a finite factor of sign [c]:
    [Infinity * 0] is [NaN]. *)
Definition inf_times (positive_inf : bool) (c : comparison) : number :=
  match c with
  | Eq => NaN
  | Gt => if positive_inf then PosInf else NegInf
  | Lt => if positive_inf then NegInf else PosInf
  end.

(** [a * b] *)
Definition mul (a b : number) : number :=
  match a, b with
  | NaN, _ | _, NaN => NaN
  | Fin p, Fin q => Fin (p * q)%Qc
  | PosInf, Fin q | Fin q, PosInf => inf_times true (sign q)
  | NegInf, Fin q | Fin q, NegInf => inf_times false (sign q)
  | PosInf, PosInf | NegInf, NegInf => PosInf
  | PosInf, NegInf | NegInf, PosInf => NegInf
  end.

(** [a / b].  A finite non-zero value over zero is an infinity, [0 / 0] is
    [NaN], a finite value over an infinity is zero. *)
Definition div (a b : number) : number :=
  match a, b with
  | NaN, _ | _, NaN => NaN
  | Fin p, Fin q =>
      match sign q with
      | Eq => match sign p with
              | Eq => NaN
              | Gt => PosInf
              | Lt => NegInf
              end
      | _ => Fin (p / q)%Qc
      end
  | Fin _, (PosInf | NegInf) => Fin 0%Qc
  | PosInf, Fin q => match sign q with Lt => NegInf | _ => PosInf end
  | NegInf, Fin q => match sign q with Lt => PosInf | _ => NegInf end
  | (PosInf | NegInf), (PosInf | NegInf) => NaN
  end.

(** [a < b]; every comparison with [NaN] is false. *)
Definition ltb (a b : number) : bool :=
  match a, b with
  | NaN, _ | _, NaN => false
  | Fin p, Fin q => match (p ?= q)%Qc with Lt => true | _ => false end
  | NegInf, (Fin _ | PosInf) => true
  | Fin _, PosInf => true
  | _, _ => false
  end.

(** [a === b] on numbers: [NaN] is not equal to itself. *)
Definition eqb (a b : number) : bool :=
  match a, b with
  | Fin p, Fin q => Qc_eq_bool p q
  | PosInf, PosInf | NegInf, NegInf => true
  | _, _ => false
  end.

(** Structural equality test, used to evaluate the model on examples
    (unlike [===] it identifies [NaN] with itself). *)
Definition same (a b : number) : bool :=
  match a, b with
  | NaN, NaN => true
  | _, _ => eqb a b
  end.

Definition isFinite (a : number) : bool :=
  match a with Fin _ => true | _ => false end.

(** [ToNumber] of a possibly [undefined] array element:
    [undefined] converts to [NaN]. *)
Definition ToNumber (o : option number) : number :=
  match o with Some v => v | None => NaN end.

(** [Math.min(a, b)] and [Math.max(a, b)]: [NaN] is contagious. *)
Definition min2 (a b : number) : number :=
  match a, b with
  | NaN, _ | _, NaN => NaN
  | _, _ => if ltb b a then b else a
  end.

Definition max2 (a b : number) : number :=
  match a, b with
  | NaN, _ | _, NaN => NaN
  | _, _ => if ltb a b then b else a
  end.

(** [Math.min(...l)] is [Infinity] and [Math.max(...l)] is [-Infinity]
    when [l] is empty. *)
Definition Math_min (l : list number) : number := fold_right min2 PosInf l.
Definition Math_max (l : list number) : number := fold_right max2 NegInf l.

(** [a.flatMap(f)] *)
Definition flatMap {A B : Type} (f : A -> list B) (a : list A) : list B :=
  List.concat (List.map f a).

(** [a.map((v, i) => f v i)], the index starting at [i0]. *)
Fixpoint map_from {A B : Type} (f : A -> nat -> B) (i0 : nat) (a : list A)
  : list B :=
  match a with
  | [] => []
  | v :: a' => f v i0 :: map_from f (S i0) a'
  end.

Definition mapi {A B : Type} (f : A -> nat -> B) (a : list A) : list B :=
  map_from f 0 a.

(** [Math.ceil(n / d)] for array lengths [n] and a positive integer [d]:
    the quotient is computed on the rationals and rounded up. *)
Definition ceil_div (n d : nat) : nat :=
  Z.to_nat (Qceiling (Z.of_nat n # Pos.of_nat d)).

Declare Scope js_scope.
Delimit Scope js_scope with js.
Bind Scope js_scope with number.
Infix "+" := add : js_scope.
Infix "-" := sub : js_scope.
Infix "*" := mul : js_scope.
Infix "/" := div : js_scope.

End JS.

Import JS.
Local Open Scope string_scope.
Local Open Scope list_scope.

(* ================================================================== *)
(** ** SimplePlot.tsx: input type and drawing primitives *)
(* ================================================================== *)

(** [type PlotData = { x: number[]; y?: number[]; label: string }] *)
Module PlotData.
Record t : Type := make {
  x : list number;
  y : option (list number);
  label : string
}.
End PlotData.

(** What a render can do besides returning: reading a property of
    [undefined] throws a [TypeError]. *)
Inductive result (A : Type) : Type :=
| Ok (a : A)
| TypeError.
Arguments TypeError {A}.

Definition bind {A B : Type} (r : result A) (k : A -> result B) : result B :=
  match r with
  | Ok a => k a
  | TypeError => TypeError
  end.

Notation "v <- r ;; k" := (bind r (fun v => k))
  (at level 61, r at next level, right associativity).

(** Evaluates the elements of an array of computations from left to right. *)
Fixpoint sequence {A : Type} (l : list (result A)) : result (list A) :=
  match l with
  | [] => Ok []
  | r :: l' => a <- r ;; rest <- sequence l' ;; Ok (a :: rest)
  end.

(** Text of a [<text>] element: a literal, or [v.toFixed(digits)]. *)
Inductive TextContent : Type :=
| Str (s : string)
| toFixed (v : number) (digits : nat).

(** The SVG elements the component emits, with the attributes that carry
    geometry and colour.  A colour read from the palette is an optional
    string, as an array read can be [undefined].  The [points] attribute of
    a polyline is kept as the list of coordinate pairs it is printed from.
    Purely presentational attributes (opacity, corner radius, text anchor,
    rotation, the style of the [<svg>] element) are left out. *)
#[warnings="-register-all"] Inductive Svg : Type :=
| line (x1 y1 x2 y2 : number) (stroke : string) (strokeWidth : option number)
| text (x y : number) (fontSize : number) (fill : option string)
       (content : TextContent)
| polyline (stroke : option string) (strokeWidth : number)
           (points : list (number * number))
| circle (cx cy r : number) (fill : option string)
| rect (x y width height : number) (fill : option string)
| g (children : list Svg).

(** React renders nothing for a child that is [undefined], [null] or
    [false]. *)
Definition rendered (children : list (option Svg)) : list Svg :=
  flatMap (fun c => match c with Some e => [e] | None => [] end) children.

(* ------------------------------------------------------------------ *)
(** *** The data extent (the same six lines in both revisions) *)
(* ------------------------------------------------------------------ *)

Definition allX (data : list PlotData.t) : list number :=
  flatMap PlotData.x data.

(** [d.y ?? []] *)
Definition y_or_empty (d : PlotData.t) : list number :=
  match PlotData.y d with Some ys => ys | None => [] end.

Definition allY (data : list PlotData.t) : list number :=
  flatMap y_or_empty data.

Definition minX (data : list PlotData.t) : number := Math_min (allX data).
Definition maxX (data : list PlotData.t) : number := Math_max (allX data).

(** [allY.length ? Math.min(...allY) : 0] *)
Definition minY (data : list PlotData.t) : number :=
  if (List.length (allY data) =? 0)%nat then lit 0 else Math_min (allY data).

(** [allY.length ? Math.max(...allY) : 1] *)
Definition maxY (data : list PlotData.t) : number :=
  if (List.length (allY data) =? 0)%nat then lit 1 else Math_max (allY data).

(** The fixed palette, and the colour [palette[i % 4]] of series [i]. *)
Definition palette : list string :=
  ["#1976d2"; "#d32f2f"; "#388e3c"; "#fbc02d"].

Definition color (i : nat) : option string := nth_error palette (i mod 4).

(* ------------------------------------------------------------------ *)
(** *** Minimal revision: 400 x 200, padding 30, no legend reservation *)
(* ------------------------------------------------------------------ *)

Module Minimal.
Section Render.
Variable data : list PlotData.t.

Definition width : number := lit 400.
Definition height : number := lit 200.
Definition padding : number := lit 30.

Definition scaleX (v : number) : number :=
  (padding + (v - minX data) / (maxX data - minX data)
             * (width - lit 2 * padding))%js.

Definition scaleY (v : number) : number :=
  (height - padding
   - (v - minY data) / (maxY data - minY data)
     * (height - lit 2 * padding))%js.

Definition axes : list Svg :=
  [ line padding (height - padding)%js (width - padding)%js
         (height - padding)%js "#888" None;
    line padding padding padding (height - padding)%js "#888" None ].

(** [d.y && <polyline ... />] *)
Definition series (d : PlotData.t) (i : nat) : option Svg :=
  match PlotData.y d with
  | None => None
  | Some ys =>
      Some (polyline (color i) (lit 2)
              (mapi (fun xv j => (scaleX xv, scaleY (ToNumber (nth_error ys j))))
                    (PlotData.x d)))
  end.

Definition legend_entry (d : PlotData.t) (i : nat) : Svg :=
  text (padding + lit 10)%js (padding + lit 18 * lit (Z.of_nat i))%js
       (lit 13) (color i) (Str (PlotData.label d)).

Definition render : list Svg :=
  axes ++ rendered (mapi series data) ++ mapi legend_entry data.
End Render.
End Minimal.

(* ------------------------------------------------------------------ *)
(** *** Legend revision: 800 x 320, padding 40, 120 reserved for the
        legend.  This is the revision [DemoForm] mounts, with
        [theme="modern"]. *)
(* ------------------------------------------------------------------ *)

Module Legend.
Section Render.
Variable data : list PlotData.t.

Definition width : number := lit 800.
Definition height : number := lit 320.
Definition padding : number := lit 40.
Definition legendWidth : number := lit 120.

Definition scaleX (v : number) : number :=
  (padding + (v - minX data) / (maxX data - minX data)
             * (width - lit 2 * padding - legendWidth))%js.

Definition scaleY (v : number) : number :=
  (height - padding
   - (v - minY data) / (maxY data - minY data)
     * (height - lit 2 * padding))%js.

(** The fractions [[0.25, 0.5, 0.75, 1]] of the grid. *)
Definition grid_fractions : list number :=
  [frac 1 4; frac 1 2; frac 3 4; lit 1].

Definition grid_h (f : number) : Svg :=
  line padding (scaleY (minY data + (maxY data - minY data) * f))
       (width - padding)%js (scaleY (minY data + (maxY data - minY data) * f))
       "#e0e0e0" None.

Definition grid_v (f : number) : Svg :=
  line (scaleX (minX data + (maxX data - minX data) * f)) padding
       (scaleX (minX data + (maxX data - minX data) * f)) (height - padding)%js
       "#e0e0e0" None.

Definition grid : list Svg :=
  map (fun f => g [grid_h f; grid_v f]) grid_fractions.

Definition axes : list Svg :=
  [ line padding (height - padding)%js (width - padding)%js
         (height - padding)%js "#888" (Some (lit 2));
    line padding padding padding (height - padding)%js "#888" (Some (lit 2)) ].

Definition axis_labels : list Svg :=
  [ text (width / lit 2)%js (height - lit 5)%js (lit 15) (Some "#555") (Str "x");
    text (lit 10) (height / lit 2)%js (lit 15) (Some "#555") (Str "y") ].

(** [j % m === 0]; [j % 0] is [NaN], which is not [=== 0]. *)
Definition divides (m j : nat) : bool :=
  match m with
  | O => false
  | S _ => (j mod m =? 0)%nat
  end.

(** [d.x.length <= 20 || j % Math.ceil(d.x.length / 20) === 0] *)
Definition labelled (n j : nat) : bool :=
  (n <=? 20)%nat || divides (ceil_div n 20) j.

(** The value label of point [j]: [d.y![j].toFixed(2)] throws when
    [d.y[j]] is [undefined]. *)
Definition value_label (i : nat) (d : PlotData.t) (ys : list number)
    (xv : number) (j : nat) : result (option Svg) :=
  if labelled (List.length (PlotData.x d)) j then
    match nth_error ys j with
    | Some v =>
        Ok (Some (text (scaleX xv) (scaleY (ToNumber (nth_error ys j)) - lit 8)%js
                       (lit 11) (color i) (toFixed v 2)))
    | None => TypeError
    end
  else Ok None.

(** One point: the marker and, for the sampled indices, its value label. *)
Definition point (i : nat) (d : PlotData.t) (ys : list number)
    (xv : number) (j : nat) : result Svg :=
  lbl <- value_label i d ys xv j ;;
  Ok (g (rendered
           [ Some (circle (scaleX xv) (scaleY (ToNumber (nth_error ys j)))
                          (frac 5 2) (color i));
             lbl ])).

(** [d.y && <g> <polyline/> {points} </g>] *)
Definition series (d : PlotData.t) (i : nat) : result (option Svg) :=
  match PlotData.y d with
  | None => Ok None
  | Some ys =>
      pts <- sequence (mapi (point i d ys) (PlotData.x d)) ;;
      Ok (Some (g (polyline (color i) (frac 5 2)
                     (mapi (fun xv j =>
                              (scaleX xv, scaleY (ToNumber (nth_error ys j))))
                           (PlotData.x d))
                   :: pts)))
  end.

Definition legend_entry (d : PlotData.t) (i : nat) : Svg :=
  g [ rect (width - padding - legendWidth + lit 10)%js
           (padding + lit 24 * lit (Z.of_nat i) - lit 12)%js
           (lit 18) (lit 6) (color i);
      text (width - padding - legendWidth + lit 35)%js
           (padding + lit 24 * lit (Z.of_nat i) - lit 4)%js
           (lit 15) (Some "#333") (Str (PlotData.label d)) ].

Definition legend : list Svg := mapi legend_entry data.

(** The children of the [<svg>] element, in document order. *)
Definition render : result (list Svg) :=
  ss <- sequence (mapi series data) ;;
  Ok (grid ++ axes ++ axis_labels ++ rendered ss ++ legend).
End Render.
End Legend.

(* ------------------------------------------------------------------ *)
(** *** Example input *)
(* ------------------------------------------------------------------ *)

(** A render call in the shape [DemoForm] produces: a bare domain marker
    and series with [y], three samples each. *)
Definition sample_data : list PlotData.t :=
  [ PlotData.make [lit 0; frac 1 2; lit 1] None "linspace";
    PlotData.make [lit 0; frac 1 2; lit 1]
                  (Some [lit 1; frac 1 3; frac (-1) 4]) "exp_cos";
    PlotData.make [lit 0; frac 1 2; lit 1]
                  (Some [frac 1 10; frac 1 2; frac 9 10]) "logistic" ].


(** A single sample: the extent is degenerate on both axes. *)
Definition single_point : list PlotData.t :=
  [ PlotData.make [lit 1] (Some [lit 2]) "point" ].

(** Only a bare domain marker: no series carries a [y] array. *)
Definition domain_only : list PlotData.t :=
  [ PlotData.make [lit 0; frac 1 2; lit 1] None "linspace" ].

(* ------------------------------------------------------------------ *)
(** *** Reading a drawing *)
(* ------------------------------------------------------------------ *)

(** An element together with everything nested in it. *)
Fixpoint descendants (e : Svg) : list Svg :=
  e :: match e with
       | g children => flat_map descendants children
       | _ => []
       end.

Definition is_text (e : Svg) : bool :=
  match e with text _ _ _ _ _ => true | _ => false end.

Definition is_circle (e : Svg) : bool :=
  match e with circle _ _ _ _ => true | _ => false end.

Definition is_polyline (e : Svg) : bool :=
  match e with polyline _ _ _ => true | _ => false end.

(** The stroke of a [<line>]. *)
Definition line_stroke (e : Svg) : option string :=
  match e with line _ _ _ _ s _ => Some s | _ => None end.

(** The value labels attached to one point group. *)
Definition labels_of (pt : Svg) : list Svg :=
  match pt with
  | g children => filter is_text children
  | _ => []
  end.

(** A drawn series is complete when each of its points has a [y]:
    [d.y] is at least as long as [d.x] (the data model asks for equal
    lengths).  A series without [y] is not drawn and needs nothing. *)
Definition complete (d : PlotData.t) : bool :=
  match PlotData.y d with
  | None => true
  | Some ys => (List.length (PlotData.x d) <=? List.length ys)%nat
  end.

(** The number of value labels in a list of point groups. *)
Definition label_total (pts : list Svg) : nat :=
  List.length (flatMap labels_of pts).

(** A dense series: 41 samples on the diagonal. *)
Definition dense : PlotData.t :=
  PlotData.make (map (fun k => lit (Z.of_nat k)) (seq 0 41))
                (Some (map (fun k => lit (Z.of_nat k)) (seq 0 41)))
                "dense".

(** The drawing of [sample_data]. *)
Definition sample_drawing : list Svg :=
  match Legend.render sample_data with
  | Ok out => out
  | TypeError => []
  end.

(* ================================================================== *)
(** ** DemoForm.tsx: the plot tab *)
(* ================================================================== *)

(** The JSON body of a generator response: [{ x }] or [{ x, y }]. *)
Module Response.
Record t : Type := make {
  x : list number;
  y : option (list number)
}.
End Response.

Module DemoForm.

(** What the network gives back to one [fetch]: a failure, or a status
    line with a body that parses as JSON or does not. *)
Inductive Body : Type :=
| Json (r : Response.t)
| Malformed (message : string).

Inductive Reply : Type :=
| NetworkError (message : string)
| Http (status : nat) (body : Body).

(** A settled promise; a rejection is represented by the [message] of the
    error it carries. *)
Inductive Settled : Type :=
| Fulfilled (r : Response.t)
| Rejected (message : string).

(** [res.ok] *)
Definition ok (status : nat) : bool :=
  ((200 <=? status) && (status <=? 299))%nat.

(** [fetchArrayAPI]: throws [API error: <status>] unless [res.ok], then
    returns [res.json()]. *)
Definition fetchArrayAPI (reply : Reply) : Settled :=
  match reply with
  | NetworkError m => Rejected m
  | Http status body =>
      if ok status then
        match body with
        | Json r => Fulfilled r
        | Malformed m => Rejected m
        end
      else Rejected ("API error: " ++ NilZero.string_of_uint (Nat.to_uint status))
  end.

(** The body [{ x_min, x_max }] posted to an endpoint. *)
Record Request : Type := {
  endpoint : string;
  x_min : number;
  x_max : number
}.

(** One [Promise.all] over the four fetches of a call: the state of each
    input promise, and the reason of the combined promise once it has
    rejected. *)
Record PromiseAll : Type := {
  slots : list (option Settled);
  reason : option string
}.

(** The component state, with the fetches made so far (oldest first) and
    the calls of [fetchAndSetPlotData] (oldest first). *)
Record State : Type := {
  tab : nat;
  plotData : option (list PlotData.t);
  plotLoading : bool;
  plotError : option string;
  xMin : number;
  xMax : number;
  requests : list Request;
  calls : list PromiseAll
}.

Definition setTab (v : nat) (s : State) : State :=
  {| tab := v; plotData := plotData s; plotLoading := plotLoading s;
     plotError := plotError s; xMin := xMin s; xMax := xMax s;
     requests := requests s; calls := calls s |}.

Definition setPlotData (v : option (list PlotData.t)) (s : State) : State :=
  {| tab := tab s; plotData := v; plotLoading := plotLoading s;
     plotError := plotError s; xMin := xMin s; xMax := xMax s;
     requests := requests s; calls := calls s |}.

Definition setPlotLoading (v : bool) (s : State) : State :=
  {| tab := tab s; plotData := plotData s; plotLoading := v;
     plotError := plotError s; xMin := xMin s; xMax := xMax s;
     requests := requests s; calls := calls s |}.

Definition setPlotError (v : option string) (s : State) : State :=
  {| tab := tab s; plotData := plotData s; plotLoading := plotLoading s;
     plotError := v; xMin := xMin s; xMax := xMax s;
     requests := requests s; calls := calls s |}.

Definition setXMin (v : number) (s : State) : State :=
  {| tab := tab s; plotData := plotData s; plotLoading := plotLoading s;
     plotError := plotError s; xMin := v; xMax := xMax s;
     requests := requests s; calls := calls s |}.

Definition setXMax (v : number) (s : State) : State :=
  {| tab := tab s; plotData := plotData s; plotLoading := plotLoading s;
     plotError := plotError s; xMin := xMin s; xMax := v;
     requests := requests s; calls := calls s |}.

Definition with_network (rs : list Request) (cs : list PromiseAll)
    (s : State) : State :=
  {| tab := tab s; plotData := plotData s; plotLoading := plotLoading s;
     plotError := plotError s; xMin := xMin s; xMax := xMax s;
     requests := rs; calls := cs |}.

(** [useState] initial values; nothing has been fetched. *)
Definition init : State :=
  {| tab := 0; plotData := None; plotLoading := false; plotError := None;
     xMin := lit 0; xMax := lit 1; requests := []; calls := [] |}.

(** The four endpoints, in the order of the [Promise.all] array. *)
Definition endpoints : list string :=
  ["/linspace"; "/exp_cos"; "/logistic"; "/multi_bump"].

(** [fetchAndSetPlotData], up to the point where the promises are
    pending. *)
Definition fetchAndSetPlotData (s : State) : State :=
  let s1 := setPlotError None (setPlotLoading true s) in
  with_network
    (requests s1
     ++ map (fun e => {| endpoint := e; x_min := xMin s1; x_max := xMax s1 |})
            endpoints)
    (calls s1 ++ [ {| slots := map (fun _ => None) endpoints;
                      reason := None |} ])
    s1.

(** The [.then] callback: the four series of the chart. *)
Definition compose (lin exp logi multi : Response.t) : list PlotData.t :=
  [ PlotData.make (Response.x lin) None "linspace";
    PlotData.make (Response.x exp) (Response.y exp) "exp_cos";
    PlotData.make (Response.x logi) (Response.y logi) "logistic";
    PlotData.make (Response.x multi) (Response.y multi) "multi_bump" ].

(** [e.message || "API error"] *)
Definition message_or_default (m : string) : string :=
  match m with
  | EmptyString => "API error"
  | _ => m
  end.

(** The values of the input promises when all of them are fulfilled. *)
Fixpoint all_fulfilled (l : list (option Settled)) : option (list Response.t) :=
  match l with
  | [] => Some []
  | Some (Fulfilled r) :: l' =>
      match all_fulfilled l' with
      | Some rs => Some (r :: rs)
      | None => None
      end
  | _ :: _ => None
  end.

(** [a[k] = v] on an existing index. *)
Fixpoint set_nth {A : Type} (k : nat) (v : A) (a : list A) : list A :=
  match a, k with
  | [], _ => []
  | _ :: a', O => v :: a'
  | w :: a', S k' => w :: set_nth k' v a'
  end.

(** Promise [k] of call [id] settles with [o].  A promise settles once.
    The combined promise rejects with the first rejection and fulfils when
    the last input is fulfilled; [.then] sets the plot data, [.catch] the
    error, [.finally] clears the loading flag. *)
Definition settle (id k : nat) (o : Settled) (s : State) : State :=
  match nth_error (calls s) id with
  | None => s
  | Some c =>
      match nth_error (slots c) k with
      | Some None =>
          let slots' := set_nth k (Some o) (slots c) in
          let recorded (r : option string) :=
            with_network (requests s)
              (set_nth id {| slots := slots'; reason := r |} (calls s)) s in
          match o, reason c with
          | Rejected m, None =>
              setPlotLoading false
                (setPlotError (Some (message_or_default m))
                   (recorded (Some m)))
          | Fulfilled _, None =>
              match all_fulfilled slots' with
              | Some [lin; exp; logi; multi] =>
                  setPlotLoading false
                    (setPlotData (Some (compose lin exp logi multi))
                       (recorded None))
              | _ => recorded None
              end
          | _, Some r => recorded (Some r)
          end
      | _ => s
      end
  end.

Inductive Event : Type :=
| SelectTab (v : nat)
| ChangeXMin (v : number)
| ChangeXMax (v : number)
| ClickExecute
| Settle (id k : nat) (reply : Reply).

(** [disabled={plotLoading || xMin === xMax}] *)
Definition execute_disabled (s : State) : bool :=
  plotLoading s || eqb (xMin s) (xMax s).

(** One event of the plot tab.  The fields and the button exist only
    while tab 2 ([tab = 1]) is shown; the effect on [[tab]] runs after a
    render in which [tab] has changed and fetches when the new tab is
    tab 2. *)
Definition step (s : State) (ev : Event) : State :=
  match ev with
  | SelectTab v =>
      if (v =? tab s)%nat then s
      else if (v =? 1)%nat then fetchAndSetPlotData (setTab v s)
           else setTab v s
  | ChangeXMin v => if (tab s =? 1)%nat then setXMin v s else s
  | ChangeXMax v => if (tab s =? 1)%nat then setXMax v s else s
  | ClickExecute =>
      if (tab s =? 1)%nat && negb (execute_disabled s)
      then fetchAndSetPlotData s else s
  | Settle id k reply => settle id k (fetchArrayAPI reply) s
  end.

Definition run (s : State) (evs : list Event) : State :=
  fold_left step evs s.

(** What the tab shows of the plot: a chart exactly when [plotData] is
    set, rendered from it. *)
Definition chart (s : State) : option (result (list Svg)) :=
  match plotData s with
  | Some data => Some (Legend.render data)
  | None => None
  end.

End DemoForm.

(** The plot data on screen, if any, is the composition of the four
    fulfilled responses of one call. *)
Definition from_complete_call (s : DemoForm.State) : Prop :=
  match DemoForm.plotData s with
  | None => True
  | Some data =>
      exists id c lin exp logi multi,
        nth_error (DemoForm.calls s) id = Some c
        /\ DemoForm.slots c
           = [ Some (DemoForm.Fulfilled lin); Some (DemoForm.Fulfilled exp);
               Some (DemoForm.Fulfilled logi); Some (DemoForm.Fulfilled multi) ]
        /\ data = DemoForm.compose lin exp logi multi
  end.

(** Example replies and runs of the plot tab. *)
Definition lin_body : Response.t :=
  Response.make [lit 0; frac 1 2; lit 1] None.

Definition curve_body : Response.t :=
  Response.make [lit 0; frac 1 2; lit 1] (Some [lit 1; frac 1 3; frac 1 10]).

(** Tab 2 is opened and the four fetches of the first call succeed; the
    button is clicked and the first fetch of the second call succeeds. *)
Definition second_call_running : list DemoForm.Event :=
  [ DemoForm.SelectTab 1;
    DemoForm.Settle 0 0 (DemoForm.Http 200 (DemoForm.Json lin_body));
    DemoForm.Settle 0 2 (DemoForm.Http 200 (DemoForm.Json curve_body));
    DemoForm.Settle 0 1 (DemoForm.Http 200 (DemoForm.Json curve_body));
    DemoForm.Settle 0 3 (DemoForm.Http 200 (DemoForm.Json curve_body));
    DemoForm.ClickExecute;
    DemoForm.Settle 1 0 (DemoForm.Http 200 (DemoForm.Json lin_body)) ].

(** Tab 2 is opened, [x_max] is set to 0 (equal to [x_min]), the user
    goes back to tab 1 and opens tab 2 again. *)
Definition reopen_with_equal_bounds : list DemoForm.Event :=
  [ DemoForm.SelectTab 1;
    DemoForm.ChangeXMax (lit 0);
    DemoForm.SelectTab 0;
    DemoForm.SelectTab 1 ].

(* ================================================================== *)
(** ** The signal generators of the server *)
(* ================================================================== *)

Module SignalGenerator.

Inductive Generator : Type := linspace | exp_cos | logistic | multi_bump.

Inductive Error : Type := InvalidDomain.

Section Deployment.
(** The sample count, fixed per deployment, and the curve of each
    generator: exponentials and cosines have no exact value in the number
    model, so the formulas stay abstract. *)
Variable N : nat.
Variable curve : Generator -> number -> number.

(** Modelled from the spec: the validation of the domain in the server's
    generators (backend/main.py, which is not among the sources).  A
    domain is valid when both bounds are finite and differ. *)
Definition valid_domain (x_min x_max : number) : bool :=
  isFinite x_min && isFinite x_max && negb (eqb x_min x_max).

(** Modelled from the spec: [N] evenly spaced samples,
    [x[i] = x_min + i * (x_max - x_min) / (N - 1)]. *)
Definition samples (x_min x_max : number) : list number :=
  map (fun i => (x_min + lit (Z.of_nat i) * ((x_max - x_min)
                                             / lit (Z.of_nat (N - 1))))%js)
      (seq 0 N).

(** Modelled from the spec: a generator call (backend/main.py, which is
    not among the sources).  [InvalidDomain] is reported before any array
    is computed; otherwise [linspace] returns [x] and the other three
    return [x] and [y]. *)
Definition generate (gen : Generator) (x_min x_max : number)
  : Error + Response.t :=
  if valid_domain x_min x_max then
    inr (Response.make (samples x_min x_max)
           (match gen with
            | linspace => None
            | _ => Some (map (curve gen) (samples x_min x_max))
            end))
  else inl InvalidDomain.

End Deployment.
End SignalGenerator.

(** No fetch is ever made with equal bounds. *)
Definition never_equal_bounds (evs : list DemoForm.Event) : Prop :=
  forall r, In r (DemoForm.requests (DemoForm.run DemoForm.init evs)) ->
            eqb (DemoForm.x_min r) (DemoForm.x_max r) = false.

From Stdlib Require Import DecimalZ.

(* ================================================================== *)
(** ** Further properties: what the drawing is read by *)
(* ================================================================== *)

(** [a <= b]: [a < b || a === b]; false as soon as one side is [NaN]. *)
Definition leb (a b : number) : bool := ltb a b || eqb a b.

(** The centre of a marker, and the anchor of a text. *)
Definition marker_centre (e : Svg) : option (number * number) :=
  match e with
  | circle cx cy _ _ => Some (cx, cy)
  | _ => None
  end.

Definition text_anchor (e : Svg) : option (number * number) :=
  match e with
  | text tx ty _ _ _ => Some (tx, ty)
  | _ => None
  end.

(** The series that carry a [y] array, in input order. *)
Definition drawn (data : list PlotData.t) : list PlotData.t :=
  filter (fun d => match PlotData.y d with Some _ => true | None => false end)
         data.

(* ------------------------------------------------------------------ *)
(** *** Reading a run of the plot tab *)
(* ------------------------------------------------------------------ *)

(** The four requests of one call made with the bounds [b]. *)
Definition requests_of_call (b : number * number) : list DemoForm.Request :=
  map (fun e => {| DemoForm.endpoint := e;
                   DemoForm.x_min := fst b; DemoForm.x_max := snd b |})
      DemoForm.endpoints.

Definition is_tab_switch (ev : DemoForm.Event) : bool :=
  match ev with DemoForm.SelectTab _ => true | _ => false end.

(** A slot holds no rejection. *)
Definition not_rejected (o : option DemoForm.Settled) : bool :=
  match o with Some (DemoForm.Rejected _) => false | _ => true end.

(** The bookkeeping of the calls is sound: each call joins four promises,
    and while it has no rejection reason none of its promises has
    rejected. *)
Definition calls_sound (s : DemoForm.State) : Prop :=
  forall c, In c (DemoForm.calls s) ->
    List.length (DemoForm.slots c) = 4%nat
    /\ (DemoForm.reason c = None ->
        forallb not_rejected (DemoForm.slots c) = true).

(** A call whose combined promise is still pending. *)
Definition undecided (c : DemoForm.PromiseAll) : Prop :=
  DemoForm.reason c = None /\ In None (DemoForm.slots c).

(** The fetches made so far are one group of four per call. *)
Definition grouped (s : DemoForm.State) : Prop :=
  exists bounds,
    List.length bounds = List.length (DemoForm.calls s)
    /\ DemoForm.requests s = flat_map requests_of_call bounds.

(** No fetch made so far has equal bounds. *)
Definition distinct_bounds (s : DemoForm.State) : Prop :=
  forall r, In r (DemoForm.requests s) ->
            eqb (DemoForm.x_min r) (DemoForm.x_max r) = false.

(** The call made last. *)
Definition latest (s : DemoForm.State) : option DemoForm.PromiseAll :=
  nth_error (DemoForm.calls s) (pred (List.length (DemoForm.calls s))).

(** While the loading flag is up, the latest call is undecided. *)
Definition loading_sound (s : DemoForm.State) : Prop :=
  DemoForm.plotLoading s = true ->
  exists c, latest s = Some c /\ undecided c.

(** A complete call is on screen: if the four promises of [c] are
    fulfilled, the plot data is their composition and the loading flag is
    down. *)
Definition shown_if_complete (s : DemoForm.State) (c : DemoForm.PromiseAll)
  : Prop :=
  forall lin exp logi multi,
    DemoForm.all_fulfilled (DemoForm.slots c) = Some [lin; exp; logi; multi] ->
    DemoForm.plotData s = Some (DemoForm.compose lin exp logi multi)
    /\ DemoForm.plotLoading s = false.

(** In tab 2: a fetch fails, the bounds are made equal and the button is
    clicked, then they are made distinct and the button is clicked. *)
Definition typing_and_clicking : list DemoForm.Event :=
  [ DemoForm.Settle 0 1 (DemoForm.Http 500 (DemoForm.Malformed "oops"));
    DemoForm.ChangeXMax (lit 0);
    DemoForm.ClickExecute;
    DemoForm.ChangeXMax (lit 2);
    DemoForm.ClickExecute ].

(* ================================================================== *)
(** ** types/HttpLog.ts and hooks/useFetch.ts *)
(* ================================================================== *)

(** [a >= b]; false as soon as one side is [NaN]. *)
Definition geb (a b : number) : bool := ltb b a || eqb a b.

Module HttpLog.

(** A JSON value, for the [any] of request and response bodies. *)
#[warnings="-register-all"] Inductive JSON : Type :=
| JNull
| JBool (b : bool)
| JNumber (n : number)
| JString (s : string)
| JArray (items : list JSON)
| JObject (members : list (string * JSON)).

(** [ToBoolean] of an optional value: [undefined], [null], [false], [0],
    [NaN] and the empty string are falsy. *)
Definition truthy (v : option JSON) : bool :=
  match v with
  | None => false
  | Some JNull => false
  | Some (JBool b) => b
  | Some (JNumber n) =>
      match n with
      | NaN => false
      | Fin q => negb (Qc_eq_bool q 0)
      | _ => true
      end
  | Some (JString s) =>
      match s with EmptyString => false | _ => true end
  | Some (JArray _) | Some (JObject _) => true
  end.

Record HttpRequest : Type := {
  method : string;
  url : string;
  headers : list (string * string);
  body : option JSON;
  timestamp : number
}.

Record HttpResponse : Type := {
  status : nat;
  statusText : string;
  response_body : JSON;
  response_timestamp : number
}.

Record t : Type := {
  id : string;
  request : HttpRequest;
  response : option HttpResponse;
  duration : option number;
  expanded : bool
}.

Inductive StatusColor : Type := success | warning | error.

(** [getStatusColor] *)
Definition getStatusColor (status : number) : StatusColor :=
  if geb status (lit 200) && ltb status (lit 300) then success
  else if geb status (lit 400) && ltb status (lit 500) then warning
  else error.

End HttpLog.

Module UseFetch.
Import HttpLog.

(** [FetchOptions]: [headers] and [body] are optional. *)
Record FetchOptions : Type := {
  opt_method : string;
  opt_headers : option (list (string * string));
  opt_body : option JSON
}.

(** What [Date.now()] and [Math.random()] give during one [execute]: the
    generated id, and the clock at the four places it is read. *)
Record Env : Type := {
  generated_id : string;
  now_request : number;
  now_start : number;
  now_end : number;
  now_response : number
}.

Inductive Body : Type :=
| Json (v : JSON)
| Malformed (message : string).

Inductive Reply : Type :=
| NetworkError (message : string)
| Http (status : nat) (statusText : string) (body : Body).

Inductive Settled : Type :=
| Fulfilled (v : JSON)
| Rejected (message : string).

(** What [fetch] is called with. *)
Record Sent : Type := {
  sent_url : string;
  sent_method : string;
  sent_headers : option (list (string * string));
  sent_body : option JSON
}.

Definition createRequestLog (env : Env) (url : string) (options : FetchOptions)
  : HttpRequest :=
  {| method := opt_method options;
     url := url;
     headers := match opt_headers options with Some h => h | None => [] end;
     body := opt_body options;
     timestamp := now_request env |}.

Definition createResponseLog (env : Env) (status : nat) (statusText : string)
    (body : JSON) : HttpResponse :=
  {| status := status; statusText := statusText;
     response_body := body; response_timestamp := now_response env |}.

Definition createLogEntry (id : string) (request : HttpRequest) : HttpLog.t :=
  {| id := id; request := request; response := None; duration := None;
     expanded := false |}.

(** [{ ...log, response, duration }] *)
Definition updateLogEntry (log : HttpLog.t) (response : HttpResponse)
    (duration : number) : HttpLog.t :=
  {| id := id log; request := request log; response := Some response;
     duration := Some duration; expanded := expanded log |}.

(** The arguments of the [fetch] call: the body is stringified only when
    it is truthy. *)
Definition sent (url : string) (options : FetchOptions) : Sent :=
  {| sent_url := url;
     sent_method := opt_method options;
     sent_headers := opt_headers options;
     sent_body := if truthy (opt_body options) then opt_body options
                  else None |}.

(** [if (onLogUpdate) onLogUpdate(log)]: the entries handed to the
    callback, when there is one. *)
Definition notify (onLogUpdate : bool) (log : HttpLog.t) : list HttpLog.t :=
  if onLogUpdate then [log] else [].

(** [execute]: the entries handed to [onLogUpdate], in order, and how the
    returned promise settles.  [res.json()] is awaited before [res.ok] is
    looked at. *)
Definition execute (onLogUpdate : bool) (env : Env) (url : string)
    (options : FetchOptions) (reply : Reply) : list HttpLog.t * Settled :=
  let request := createRequestLog env url options in
  let logEntry := createLogEntry (generated_id env) request in
  let first := notify onLogUpdate logEntry in
  match reply with
  | NetworkError m => (first, Rejected m)
  | Http status statusText body =>
      let duration := (now_end env - now_start env)%js in
      match body with
      | Malformed m => (first, Rejected m)
      | Json v =>
          let response := createResponseLog env status statusText v in
          let updatedLog := updateLogEntry logEntry response duration in
          (first ++ notify onLogUpdate updatedLog,
           if DemoForm.ok status then Fulfilled v
           else Rejected ("API error: "
                          ++ NilZero.string_of_uint (Nat.to_uint status))%string)
      end
  end.

End UseFetch.

(* ================================================================== *)
(** ** JavaScript strings and the number parsers *)
(* ================================================================== *)

Module JSString.

(** A string is a sequence of UTF-16 code units. *)
Definition t : Type := list N.

(** The string of an ASCII literal. *)
Definition of_ascii (s : string) : t :=
  map Ascii.N_of_ascii (list_ascii_of_string s).

(** White space and line terminators, as [trim], [Number], [parseInt] and
    [parseFloat] skip them. *)
Definition isWhiteSpace (c : N) : bool :=
  ((9 <=? c) && (c <=? 13) || (c =? 32) || (c =? 160) || (c =? 5760)
   || (8192 <=? c) && (c <=? 8202) || (c =? 8232) || (c =? 8233)
   || (c =? 8239) || (c =? 8287) || (c =? 12288) || (c =? 65279))%N.

(** [\d]: an ASCII decimal digit. *)
Definition isDigit (c : N) : bool := ((48 <=? c) && (c <=? 57))%N.

Fixpoint dropWhile {A : Type} (p : A -> bool) (s : list A) : list A :=
  match s with
  | c :: r => if p c then dropWhile p r else s
  | [] => []
  end.

Fixpoint takeWhile {A : Type} (p : A -> bool) (s : list A) : list A :=
  match s with
  | c :: r => if p c then c :: takeWhile p r else []
  | [] => []
  end.

Definition trimStart (s : t) : t := dropWhile isWhiteSpace s.
Definition trimEnd (s : t) : t := rev (dropWhile isWhiteSpace (rev s)).
Definition trim (s : t) : t := trimEnd (trimStart s).

(** The value of a digit in a radix up to 16, if it is one. *)
Definition digitValue (radix : N) (c : N) : option Z :=
  let v := if ((48 <=? c) && (c <=? 57))%N then Some (c - 48)%N
           else if ((97 <=? c) && (c <=? 102))%N then Some (c - 87)%N
           else if ((65 <=? c) && (c <=? 70))%N then Some (c - 55)%N
           else None in
  match v with
  | Some d => if (d <? radix)%N then Some (Z.of_N d) else None
  | None => None
  end.

Definition isDigitOf (radix : N) (c : N) : bool :=
  match digitValue radix c with Some _ => true | None => false end.

(** The integer a run of digits denotes. *)
Definition digitsValue (radix : N) (s : t) : Z :=
  fold_left (fun acc c =>
               match digitValue radix c with
               | Some d => (Z.of_N radix * acc + d)%Z
               | None => acc
               end) s 0%Z.

(** [/^-?\d+$/.test(s)] *)
Definition isIntegerLiteral (s : t) : bool :=
  let digits := match s with 45%N :: r => r | _ => s end in
  match digits with
  | [] => false
  | _ => forallb isDigit digits
  end.

(** An optional sign: its value, and what follows it. *)
Definition signed (s : t) : Z * t :=
  match s with
  | 45%N :: r => ((-1)%Z, r)
  | 43%N :: r => (1%Z, r)
  | _ => (1%Z, s)
  end.

(** [parseInt(s, 10)]: leading white space, an optional sign, then the
    longest run of decimal digits; [NaN] when there is none. *)
Definition parseInt (s : t) : number :=
  let (sign, r) := signed (trimStart s) in
  match takeWhile isDigit r with
  | [] => NaN
  | digits => lit (sign * digitsValue 10 digits)
  end.

Definition startsWith (prefix s : t) : bool :=
  (List.length prefix <=? List.length s)%nat
  && forallb (fun p => (fst p =? snd p)%N) (combine prefix s).

(** An exponent part [e], [E] with an optional sign and digits: its value
    and what follows; no exponent when the digits are missing. *)
Definition exponentPart (s : t) : Z * t :=
  match s with
  | c :: r =>
      if ((c =? 101) || (c =? 69))%N then
        let (sign, r') :=
          match r with
          | 45%N :: d :: _ => if isDigit d then signed r else (1%Z, r)
          | 43%N :: d :: _ => if isDigit d then signed r else (1%Z, r)
          | _ => (1%Z, r)
          end in
        match takeWhile isDigit r' with
        | [] => (0%Z, s)
        | digits => ((sign * digitsValue 10 digits)%Z, dropWhile isDigit r')
        end
      else (0%Z, s)
  | [] => (0%Z, s)
  end.

(** The longest prefix that is an unsigned decimal literal ([Infinity],
    or digits with an optional fraction and exponent, at least one digit
    in all): its value and what follows. *)
Definition unsignedDecimal (s : t) : option (number * t) :=
  if startsWith (of_ascii "Infinity") s then Some (PosInf, skipn 8 s)
  else
    let ip := takeWhile isDigit s in
    let r1 := dropWhile isDigit s in
    let (fp, r2) :=
      match r1 with
      | 46%N :: r => (takeWhile isDigit r, dropWhile isDigit r)
      | _ => ([], r1)
      end in
    match ip, fp with
    | [], [] => None
    | _, _ =>
        let (e, r3) := exponentPart r2 in
        Some (Fin (Q2Qc ((inject_Z (digitsValue 10 (ip ++ fp))
                          * Qpower (inject_Z 10)
                              (e - Z.of_nat (List.length fp)))%Q)),
              r3)
    end.

(** [parseFloat(s)] *)
Definition parseFloat (s : t) : number :=
  let (sign, r) := signed (trimStart s) in
  match unsignedDecimal r with
  | Some (v, _) => (lit sign * v)%js
  | None => NaN
  end.

(** A literal [0x], [0o] or [0b] followed by digits of that radix and
    nothing else. *)
Definition nonDecimal (s : t) : option number :=
  match s with
  | 48%N :: p :: digits =>
      let radix := if ((p =? 120) || (p =? 88))%N then Some 16%N
                   else if ((p =? 111) || (p =? 79))%N then Some 8%N
                   else if ((p =? 98) || (p =? 66))%N then Some 2%N
                   else None in
      match radix, digits with
      | Some radix, _ :: _ =>
          if forallb (isDigitOf radix) digits
          then Some (lit (digitsValue radix digits))
          else None
      | _, _ => None
      end
  | _ => None
  end.

(** [Number(s)]: white space is trimmed at both ends; the empty string is
    0; otherwise the whole string has to be a numeric literal. *)
Definition Number (s : t) : number :=
  match trim s with
  | [] => lit 0
  | body =>
      match nonDecimal body with
      | Some v => v
      | None =>
          let (sign, r) := signed body in
          match unsignedDecimal r with
          | Some (v, []) => (lit sign * v)%js
          | _ => NaN
          end
      end
  end.

Definition isNaN (n : number) : bool :=
  match n with NaN => true | _ => false end.

End JSString.

(* ================================================================== *)
(** ** DemoForm.tsx: the form of tab 1 *)
(* ================================================================== *)

Module Tab1.
Import HttpLog.

(** ['int' | 'float' | 'string'] *)
Inductive ValueType : Type := int | float | string_.

Record ColumnConfig : Type := {
  label : string;
  endpoint : string;
  inputType : string;
  valueType : ValueType
}.

Definition columns : list ColumnConfig :=
  [ {| label := "整数 (double)"; endpoint := "/double";
       inputType := "number"; valueType := int |};
    {| label := "実数 (half)"; endpoint := "/half";
       inputType := "number"; valueType := float |};
    {| label := "文字列 (repeat)"; endpoint := "/repeat";
       inputType := "text"; valueType := string_ |} ].

(** [validateInput]: the error message, or [null]. *)
Definition validateInput (value : JSString.t) (valueType : ValueType)
  : option string :=
  match valueType with
  | int =>
      match value with
      | [] => None
      | _ => if negb (JSString.isIntegerLiteral value)
             then Some "整数のみ入力可能です" else None
      end
  | float =>
      match value with
      | [] => None
      | _ => if JSString.isNaN (JSString.Number value)
             then Some "実数のみ入力可能です" else None
      end
  | string_ => None
  end.

(** The four arrays of the component, indexed by column.  A response is
    kept as the value that [JSON.stringify] is applied to. *)
Record State : Type := {
  inputs : list JSString.t;
  responses : list (option JSON);
  loading : list bool;
  errors : list (option string)
}.

(** [a.map((v, i) => (i === idx ? w : v))] *)
Definition replace_at {A : Type} (idx : nat) (w : A) (a : list A) : list A :=
  mapi (fun v i => if (i =? idx)%nat then w else v) a.

Definition setInputs (f : list JSString.t -> list JSString.t) (s : State)
  : State :=
  {| inputs := f (inputs s); responses := responses s;
     loading := loading s; errors := errors s |}.

Definition setResponses (f : list (option JSON) -> list (option JSON))
    (s : State) : State :=
  {| inputs := inputs s; responses := f (responses s);
     loading := loading s; errors := errors s |}.

Definition setLoading (f : list bool -> list bool) (s : State) : State :=
  {| inputs := inputs s; responses := responses s;
     loading := f (loading s); errors := errors s |}.

Definition setErrors (f : list (option string) -> list (option string))
    (s : State) : State :=
  {| inputs := inputs s; responses := responses s;
     loading := loading s; errors := f (errors s) |}.

(** [!err] for a message or [null]. *)
Definition no_message (err : option string) : bool :=
  match err with
  | None | Some EmptyString => true
  | Some _ => false
  end.

(** [handleInputChange]; reading [columns[idx].valueType] throws when
    there is no such column. *)
Definition handleInputChange (idx : nat) (value : JSString.t)
    (columns : list ColumnConfig) (s : State) : result State :=
  match nth_error columns idx with
  | None => TypeError
  | Some col =>
      let err := validateInput value (valueType col) in
      if no_message err then
        Ok (setErrors (replace_at idx None)
              (setInputs (replace_at idx value) s))
      else Ok (setErrors (replace_at idx err) s)
  end.

(** What is posted as [{ value }]: a number, a string, or nothing when
    the value is [undefined]. *)
Inductive Posted : Type :=
| VNumber (n : number)
| VString (v : JSString.t)
| VUndefined.

Record Request : Type := {
  request_endpoint : string;
  request_value : Posted
}.

(** How the synchronous part of [handleFormSubmit] ends: it throws, it
    returns, or it awaits the answer to a request. *)
Inductive Submitted : Type :=
| Threw
| Returned
| Awaiting (req : Request).

(** [ToString] of an array element that may be [undefined]. *)
Definition ToString (v : option JSString.t) : JSString.t :=
  match v with
  | Some s => s
  | None => JSString.of_ascii "undefined"
  end.

(** [handleFormSubmit], up to the [await] of [postValue]. *)
Definition handleFormSubmit (idx : nat) (columns : list ColumnConfig)
    (inputs : list JSString.t) (s : State) : State * Submitted :=
  let s1 := setResponses (replace_at idx None)
              (setErrors (replace_at idx None)
                 (setLoading (replace_at idx true) s)) in
  let value := nth_error inputs idx in
  match nth_error columns idx with
  | None => (s1, Threw)
  | Some col =>
      let refuse (message : string) :=
        (setLoading (replace_at idx false)
           (setErrors (replace_at idx (Some message)) s1), Returned) in
      let post (v : Posted) :=
        (s1, Awaiting {| request_endpoint := endpoint col;
                         request_value := v |}) in
      match valueType col with
      | int =>
          let n := JSString.parseInt (ToString value) in
          if JSString.isNaN n then refuse "整数を入力してください"
          else post (VNumber n)
      | float =>
          let n := JSString.parseFloat (ToString value) in
          if JSString.isNaN n then refuse "実数を入力してください"
          else post (VNumber n)
      | string_ =>
          post (match value with Some v => VString v | None => VUndefined end)
      end
  end.

(** [postValue], once the network has answered. *)
Definition postValue (reply : UseFetch.Reply) : UseFetch.Settled :=
  match reply with
  | UseFetch.NetworkError m => UseFetch.Rejected m
  | UseFetch.Http status _ body =>
      if DemoForm.ok status then
        match body with
        | UseFetch.Json v => UseFetch.Fulfilled v
        | UseFetch.Malformed m => UseFetch.Rejected m
        end
      else UseFetch.Rejected
             ("API error: " ++ NilZero.string_of_uint (Nat.to_uint status))%string
  end.

(** [err.message || "通信エラー"] *)
Definition message_or_default (m : string) : string :=
  match m with
  | EmptyString => "通信エラー"
  | _ => m
  end.

(** [handleFormSubmit] after the [await]: [try], [catch], [finally]. *)
Definition handleFormSubmit_settled (idx : nat) (o : UseFetch.Settled)
    (s : State) : State :=
  setLoading (replace_at idx false)
    (match o with
     | UseFetch.Fulfilled data => setResponses (replace_at idx (Some data)) s
     | UseFetch.Rejected m =>
         setErrors (replace_at idx (Some (message_or_default m))) s
     end).

(** [useState] initial values. *)
Definition init : State :=
  {| inputs := [[]; []; []]; responses := [None; None; None];
     loading := [false; false; false]; errors := [None; None; None] |}.

(** [disabled={loading[idx] || !inputs[idx]}] *)
Definition submit_disabled (idx : nat) (s : State) : bool :=
  match nth_error (loading s) idx with Some true => true | _ => false end
  || match nth_error (inputs s) idx with
     | Some (_ :: _) => false
     | _ => true
     end.

Inductive Event : Type :=
| Change (idx : nat) (value : JSString.t)
| Click (idx : nat)
| Answer (idx : nat) (reply : UseFetch.Reply).

(** One event of the form, for the three columns of the component; a
    click on a disabled button does nothing, and a field is disabled
    while its column is loading. *)
Definition step (s : State) (ev : Event) : State :=
  match ev with
  | Change idx value =>
      match nth_error (loading s) idx with
      | Some true => s
      | _ =>
          match handleInputChange idx value columns s with
          | Ok s' => s'
          | TypeError => s
          end
      end
  | Click idx =>
      if submit_disabled idx s then s
      else fst (handleFormSubmit idx columns (inputs s) s)
  | Answer idx reply => handleFormSubmit_settled idx (postValue reply) s
  end.

Definition run (s : State) (evs : list Event) : State := fold_left step evs s.

End Tab1.

(** The decimal numeral of an integer: its digits, after a minus sign
    when it is negative. *)
Definition numeral (z : Z) : JSString.t :=
  JSString.of_ascii (NilZero.string_of_int (Z.to_int z)).

(** The column an event of the form belongs to. *)
Definition column_of (ev : Tab1.Event) : nat :=
  match ev with
  | Tab1.Change idx _ | Tab1.Click idx | Tab1.Answer idx _ => idx
  end.

(** The entries of column [j] in the four arrays. *)
Definition column_view (j : nat) (s : Tab1.State)
  : option JSString.t * option (option HttpLog.JSON) * option bool
    * option (option string) :=
  (nth_error (Tab1.inputs s) j, nth_error (Tab1.responses s) j,
   nth_error (Tab1.loading s) j, nth_error (Tab1.errors s) j).

(** The four arrays have one entry per column of the component. *)
Definition three_columns (s : Tab1.State) : Prop :=
  List.length (Tab1.inputs s) = 3%nat
  /\ List.length (Tab1.responses s) = 3%nat
  /\ List.length (Tab1.loading s) = 3%nat
  /\ List.length (Tab1.errors s) = 3%nat.

(** What the fields hold has passed the validation of its column. *)
Definition inputs_validated (s : Tab1.State) : Prop :=
  forall idx col v,
    nth_error Tab1.columns idx = Some col ->
    nth_error (Tab1.inputs s) idx = Some v ->
    Tab1.validateInput v (Tab1.valueType col) = None.

(** While a column is loading it shows neither a response nor an error. *)
Definition quiet_while_loading (s : Tab1.State) : Prop :=
  forall idx,
    nth_error (Tab1.loading s) idx = Some true ->
    nth_error (Tab1.responses s) idx = Some None
    /\ nth_error (Tab1.errors s) idx = Some None.

(* ================================================================== *)
(** ** DemoForm.tsx before the handlers were split off *)
(* ================================================================== *)

Module InlineForm.

(** [handleChange] of the component whose handlers are closures: an
    integer column takes the empty string and integer literals and ignores
    anything else, the other columns take every value. *)
Definition handleChange (idx : nat) (value : JSString.t) (s : Tab1.State)
  : result Tab1.State :=
  match nth_error Tab1.columns idx with
  | None => TypeError
  | Some col =>
      match Tab1.valueType col with
      | Tab1.int =>
          match value with
          | [] => Ok (Tab1.setInputs (Tab1.replace_at idx value) s)
          | _ =>
              if JSString.isIntegerLiteral value
              then Ok (Tab1.setInputs (Tab1.replace_at idx value) s)
              else Ok s
          end
      | _ => Ok (Tab1.setInputs (Tab1.replace_at idx value) s)
      end
  end.

End InlineForm.

(** The fields, the responses and the loading flags of a result. *)
Definition without_errors (r : result Tab1.State)
  : result (list JSString.t * list (option HttpLog.JSON) * list bool) :=
  match r with
  | Ok s => Ok (Tab1.inputs s, Tab1.responses s, Tab1.loading s)
  | TypeError => TypeError
  end.
(* ================================================================== *)
(** ** Facts about the number model *)
(* ================================================================== *)

Section NumberFacts.

Lemma sign_Gt (q : Qc) : (0 < q)%Qc -> sign q = Gt.
Proof. intros H. unfold sign. now apply Qcgt_alt. Qed.

Lemma sign_Eq (q : Qc) : q = 0%Qc -> sign q = Eq.
Proof. intros H. unfold sign. now apply Qceq_alt. Qed.

Lemma Qcminus_diag (a : Qc) : (a - a = 0)%Qc.
Proof. ring. Qed.

Lemma Qcminus_0_eq (a b : Qc) : (a - b = 0)%Qc -> a = b.
Proof. intros H. rewrite <- (Qcplus_0_l b), <- H. ring. Qed.

Lemma Qcminus_pos (a b : Qc) : (a < b)%Qc -> (0 < b - a)%Qc.
Proof. intros H. now apply Qclt_minus_iff in H. Qed.

Lemma same_eq (a b : number) : same a b = true -> a = b.
Proof.
  destruct a, b; simpl; try discriminate; try reflexivity.
  intros H. f_equal. now apply Qc_eq_bool_correct.
Qed.

Lemma ltb_Fin (a b : Qc) : ltb (Fin a) (Fin b) = true <-> (a < b)%Qc.
Proof.
  simpl. rewrite Qclt_alt. destruct (a ?= b)%Qc; split; congruence.
Qed.

Lemma ltb_Fin_false (a b : Qc) : ltb (Fin a) (Fin b) = false <-> (b <= a)%Qc.
Proof.
  split; intros H.
  - apply Qcnot_lt_le. intros L. apply ltb_Fin in L. congruence.
  - destruct (ltb (Fin a) (Fin b)) eqn:E; [|reflexivity].
    apply ltb_Fin in E. now apply Qclt_not_le in E.
Qed.

(** The affine map both scales are instances of, on finite arguments
    with a non-degenerate extent. *)
Lemma scale_finite (base span v m M : Qc) :
  (m < M)%Qc ->
  (Fin base + (Fin v - Fin m) / (Fin M - Fin m) * Fin span)%js
  = Fin (base + (v - m) / (M - m) * span)%Qc.
Proof.
  intros H. unfold add, sub, mul, div.
  now rewrite (sign_Gt (Qcminus_pos H)).
Qed.

Lemma scale_finite_inv (base span v m M : Qc) :
  (m < M)%Qc ->
  (Fin base - (Fin v - Fin m) / (Fin M - Fin m) * Fin span)%js
  = Fin (base - (v - m) / (M - m) * span)%Qc.
Proof.
  intros H. unfold add, sub, mul, div.
  now rewrite (sign_Gt (Qcminus_pos H)).
Qed.

(** With a degenerate extent the quotient is [0 / 0]. *)
Lemma scale_degenerate (base span : number) (q : Qc) :
  (base + (Fin q - Fin q) / (Fin q - Fin q) * span)%js = NaN
  /\ (base - (Fin q - Fin q) / (Fin q - Fin q) * span)%js = NaN.
Proof.
  unfold sub at 1 2 4 5. unfold div.
  rewrite (sign_Eq (Qcminus_diag q)).
  destruct base, span; simpl; auto.
Qed.

Lemma Math_min_cons (v : number) (l : list number) :
  Math_min (v :: l) = min2 v (Math_min l).
Proof. reflexivity. Qed.

Lemma Math_max_cons (v : number) (l : list number) :
  Math_max (v :: l) = max2 v (Math_max l).
Proof. reflexivity. Qed.

(** On a non-empty array of finite numbers [Math.min] returns its least
    element. *)
Lemma Math_min_finite (l : list number) :
  forallb isFinite l = true -> l <> [] ->
  exists m, Math_min l = Fin m /\ In (Fin m) l
            /\ forall v, In (Fin v) l -> (m <= v)%Qc.
Proof.
  induction l as [|a l IH]; [congruence|].
  intros F _. simpl in F. apply andb_prop in F as [Fa Fl].
  destruct a as [a| | |]; try discriminate.
  destruct l as [|b l'].
  - exists a. repeat split; [now left|].
    intros v [E|[]]. injection E as <-. apply Qcle_refl.
  - destruct (IH Fl ltac:(discriminate)) as (m & Hm & Hin & Hle).
    rewrite Math_min_cons, Hm. unfold min2.
    destruct (ltb (Fin m) (Fin a)) eqn:E.
    + apply ltb_Fin in E. exists m. repeat split; [now right|].
      intros v [Ev|Hv]; [injection Ev as <-; now apply Qclt_le_weak|auto].
    + apply ltb_Fin_false in E. exists a. repeat split; [now left|].
      intros v [Ev|Hv]; [injection Ev as <-; apply Qcle_refl|].
      apply Qcle_trans with m; auto.
Qed.

Lemma Math_max_finite (l : list number) :
  forallb isFinite l = true -> l <> [] ->
  exists M, Math_max l = Fin M /\ In (Fin M) l
            /\ forall v, In (Fin v) l -> (v <= M)%Qc.
Proof.
  induction l as [|a l IH]; [congruence|].
  intros F _. simpl in F. apply andb_prop in F as [Fa Fl].
  destruct a as [a| | |]; try discriminate.
  destruct l as [|b l'].
  - exists a. repeat split; [now left|].
    intros v [E|[]]. injection E as <-. apply Qcle_refl.
  - destruct (IH Fl ltac:(discriminate)) as (M & HM & Hin & Hle).
    rewrite Math_max_cons, HM. unfold max2.
    destruct (ltb (Fin a) (Fin M)) eqn:E.
    + apply ltb_Fin in E. exists M. repeat split; [now right|].
      intros v [Ev|Hv]; [injection Ev as <-; now apply Qclt_le_weak|auto].
    + apply ltb_Fin_false in E. exists a. repeat split; [now left|].
      intros v [Ev|Hv]; [injection Ev as <-; apply Qcle_refl|].
      apply Qcle_trans with M; auto.
Qed.

Lemma finite_In (l : list number) (v : number) :
  forallb isFinite l = true -> In v l -> exists q, v = Fin q.
Proof.
  intros F H. rewrite forallb_forall in F. specialize (F v H).
  destruct v; try discriminate. eauto.
Qed.

End NumberFacts.

(* ================================================================== *)
(** ** The extent of a render call *)
(* ================================================================== *)

Section Extent.
Variable data : list PlotData.t.

(** Every [x] value of every series, with or without [y], is part of the
    array [minX] and [maxX] are taken from. *)
Lemma allX_In (d : PlotData.t) (v : number) :
  In d data -> In v (PlotData.x d) -> In v (allX data).
Proof.
  intros Hd Hv. unfold allX, flatMap. apply in_concat.
  exists (PlotData.x d). split; [now apply in_map|assumption].
Qed.

Lemma allX_nonempty : ltb (minX data) (maxX data) = true -> allX data <> [].
Proof.
  unfold minX, maxX. intros H E. rewrite E in H. discriminate.
Qed.

(** A finite, non-degenerate X extent: both ends are finite numbers. *)
Lemma extentX_finite :
  forallb isFinite (allX data) = true ->
  ltb (minX data) (maxX data) = true ->
  exists m M, minX data = Fin m /\ maxX data = Fin M /\ (m < M)%Qc.
Proof.
  intros F L.
  destruct (Math_min_finite F (allX_nonempty L)) as (m & Hm & _).
  destruct (Math_max_finite F (allX_nonempty L)) as (M & HM & _).
  fold (minX data) in Hm. fold (maxX data) in HM.
  exists m, M. rewrite Hm, HM in L. apply ltb_Fin in L. auto.
Qed.

Lemma allY_nonempty :
  allY data <> [] ->
  minY data = Math_min (allY data) /\ maxY data = Math_max (allY data).
Proof.
  unfold minY, maxY. destruct (allY data); [congruence|]. simpl. auto.
Qed.

Lemma allY_empty :
  allY data = [] -> minY data = lit 0 /\ maxY data = lit 1.
Proof. unfold minY, maxY. intros ->. simpl. auto. Qed.

Lemma extentY_nonempty :
  forallb isFinite (allY data) = true ->
  ltb (minY data) (maxY data) = true ->
  exists m M, minY data = Fin m /\ maxY data = Fin M /\ (m < M)%Qc.
Proof.
  intros F L. destruct (allY data) as [|a l] eqn:E.
  - destruct (allY_empty E) as [-> ->]. exists (Q2Qc (inject_Z 0)), (Q2Qc (inject_Z 1)).
    repeat split. 
  - assert (N : allY data <> []) by (rewrite E; discriminate).
    destruct (allY_nonempty N) as [Hmin Hmax]. rewrite <- E in F.
    destruct (Math_min_finite F N) as (m & Hm & _).
    destruct (Math_max_finite F N) as (M & HM & _).
    rewrite Hmin, Hmax, Hm, HM in *. apply ltb_Fin in L. eauto.
Qed.

(** When the least and the greatest element of a finite array coincide,
    it holds one value only. *)
Lemma degenerate_sole_value (l : list number) (v : number) :
  forallb isFinite l = true -> Math_min l = Math_max l -> In v l ->
  exists q, v = Fin q /\ Math_min l = Fin q /\ Math_max l = Fin q.
Proof.
  intros F E Hv.
  assert (N : l <> []) by (intros ->; destruct Hv).
  destruct (Math_min_finite F N) as (m & Hm & _ & Hle).
  destruct (Math_max_finite F N) as (M & HM & _ & Hge).
  destruct (finite_In _ _ F Hv) as [q ->].
  rewrite Hm, HM in E. injection E as <-.
  assert (q = m) by (apply Qcle_antisym; auto). subst q.
  exists m. rewrite Hm, HM. auto.
Qed.

End Extent.

(* ================================================================== *)
(** ** The scale *)
(* ================================================================== *)

Lemma Qcdiv_diag (q : Qc) : q <> 0%Qc -> (q / q = 1)%Qc.
Proof. intros H. now field. Qed.

Lemma Qcdiv_0_l (q : Qc) : q <> 0%Qc -> (0 / q = 0)%Qc.
Proof. intros H. now field. Qed.

(** The drawable width, evaluated. *)
Lemma Legend_spanX :
  (Legend.width - lit 2 * Legend.padding - Legend.legendWidth)%js = lit 600.
Proof. reflexivity. Qed.



(** The scale on [sample_data]: X spans 0..1, Y spans -1/4..1. *)
Example scaleX_sample_mid : Legend.scaleX sample_data (frac 1 2) = lit 340.
Proof. apply same_eq. reflexivity. Qed.

Example scaleY_sample_mid : Legend.scaleY sample_data (frac 3 8) = lit 160.
Proof. apply same_eq. reflexivity. Qed.

Example scaleX_minimal_sample_max : Minimal.scaleX sample_data (lit 1) = lit 370.
Proof. apply same_eq. reflexivity. Qed.

Lemma Qcinv_pos (q : Qc) : (0 < q)%Qc -> (0 < / q)%Qc.
Proof.
  unfold Qclt, Qcinv, Q2Qc. cbn [this]. rewrite !Qred_correct.
  apply Qinv_lt_0_compat.
Qed.

Lemma Qcminus_lt_compat_r (a b c : Qc) : (a < b)%Qc -> (a - c < b - c)%Qc.
Proof.
  unfold Qclt, Qcminus, Qcplus, Qcopp, Q2Qc. cbn [this].
  rewrite !Qred_correct. intros H. lra.
Qed.

Lemma Qcminus_lt_compat_l (a b c : Qc) : (a < b)%Qc -> (c - b < c - a)%Qc.
Proof.
  unfold Qclt, Qcminus, Qcplus, Qcopp, Q2Qc. cbn [this].
  rewrite !Qred_correct. intros H. lra.
Qed.

(** The affine map [v => base - (v - m) / (M - m) * span] is strictly
    decreasing when [m < M] and [span] is positive. *)
Lemma inverted_scale_decreasing (base span m M v1 v2 : Qc) :
  (m < M)%Qc -> (0 < span)%Qc -> (v1 < v2)%Qc ->
  (base - (v2 - m) / (M - m) * span < base - (v1 - m) / (M - m) * span)%Qc.
Proof.
  intros Hm Hs Hv. apply Qcminus_lt_compat_l.
  apply Qcmult_lt_compat_r; [assumption|].
  unfold Qcdiv. apply Qcmult_lt_compat_r.
  - apply Qcinv_pos. now apply Qcminus_pos.
  - now apply Qcminus_lt_compat_r.
Qed.



(** C1, as the specification states it, fails: with the single sample [(1, 2)] the
    extent is degenerate and [scaleX 1] is [NaN], not [padding]; so is
    [scaleY 2]. *)
Lemma C1_degenerate_counterexample :
  minX single_point = maxX single_point
  /\ In (lit 1) (allX single_point)
  /\ Legend.scaleX single_point (lit 1) = NaN
  /\ Legend.scaleX single_point (lit 1) <> Legend.padding
  /\ Minimal.scaleX single_point (lit 1) <> Minimal.padding
  /\ minY single_point = maxY single_point
  /\ Legend.scaleY single_point (lit 2) = NaN.
Proof.
  repeat split; try reflexivity; try (now left); discriminate.
Qed.

(** C1, amended.  On finite data with a degenerate extent the scale has
    no unit-denominator fallback: it is a total function, so nothing is
    thrown, but the denominator is [0] and the sole input value is mapped
    to [NaN] ([0 / 0]), in both revisions and on both axes. *)
Theorem C1_degenerate_scale_is_NaN (data : list PlotData.t) :
  forallb isFinite (allX data) = true ->
  forallb isFinite (allY data) = true ->
  (minX data = maxX data ->
   forall v, In v (allX data) ->
     v = minX data
     /\ Legend.scaleX data v = NaN /\ Minimal.scaleX data v = NaN)
  /\ (minY data = maxY data ->
      forall v, In v (allY data) ->
        v = minY data
        /\ Legend.scaleY data v = NaN /\ Minimal.scaleY data v = NaN).
Proof.
  intros FX FY. split; intros E v Hv.
  - destruct (degenerate_sole_value (allX data) v FX E Hv) as (q & -> & Hm & HM).
    fold (minX data) in Hm. fold (maxX data) in HM.
    unfold Legend.scaleX, Minimal.scaleX. rewrite Hm, HM.
    repeat split; apply scale_degenerate.
  - assert (N : allY data <> []) by (intros Z; rewrite Z in Hv; destruct Hv).
    destruct (allY_nonempty data N) as [Hmin Hmax].
    rewrite Hmin, Hmax in E.
    destruct (degenerate_sole_value (allY data) v FY E Hv) as (q & -> & Hm & HM).
    unfold Legend.scaleY, Minimal.scaleY. rewrite Hmin, Hmax, Hm, HM.
    repeat split; apply scale_degenerate.
Qed.

Lemma C1_degenerate_scale_is_NaN_witness :
  forallb isFinite (allX single_point) = true
  /\ forallb isFinite (allY single_point) = true
  /\ (minX single_point = maxX single_point ->
      forall v, In v (allX single_point) ->
        v = minX single_point
        /\ Legend.scaleX single_point v = NaN
        /\ Minimal.scaleX single_point v = NaN)
  /\ (minY single_point = maxY single_point ->
      forall v, In v (allY single_point) ->
        v = minY single_point
        /\ Legend.scaleY single_point v = NaN
        /\ Minimal.scaleY single_point v = NaN).
Proof.
  split; [reflexivity|]. split; [reflexivity|].
  apply (C1_degenerate_scale_is_NaN single_point); reflexivity.
Defined.

(** C10.  When the flattened [y] array is empty the Y extent is the unit
    interval: [minY = 0], [maxY = 1], and [scaleY] sends 0 to
    [height - padding] and 1 to [padding]; the denominator is 1.  Both
    revisions. *)
Theorem C10_empty_y_defaults (data : list PlotData.t) :
  allY data = [] ->
  minY data = lit 0 /\ maxY data = lit 1
  /\ (maxY data - minY data)%js = lit 1
  /\ Legend.scaleY data (lit 0) = (Legend.height - Legend.padding)%js
  /\ Legend.scaleY data (lit 1) = Legend.padding
  /\ Minimal.scaleY data (lit 0) = (Minimal.height - Minimal.padding)%js
  /\ Minimal.scaleY data (lit 1) = Minimal.padding.
Proof.
  intros E. destruct (allY_empty data E) as [Hm HM].
  unfold Legend.scaleY, Minimal.scaleY. rewrite Hm, HM.
  repeat split; apply same_eq; reflexivity.
Qed.

Lemma C10_empty_y_defaults_witness :
  allY domain_only = []
  /\ minY domain_only = lit 0 /\ maxY domain_only = lit 1
  /\ (maxY domain_only - minY domain_only)%js = lit 1
  /\ Legend.scaleY domain_only (lit 0) = (Legend.height - Legend.padding)%js
  /\ Legend.scaleY domain_only (lit 1) = Legend.padding
  /\ Minimal.scaleY domain_only (lit 0)
     = (Minimal.height - Minimal.padding)%js
  /\ Minimal.scaleY domain_only (lit 1) = Minimal.padding.
Proof.
  split; [reflexivity|].
  apply (C10_empty_y_defaults domain_only). reflexivity.
Defined.

(* ================================================================== *)
(** ** Arrays: indexed map and sequencing of fallible elements *)
(* ================================================================== *)

Section ArrayFacts.
Context {A B : Type}.

Lemma map_from_length (f : A -> nat -> B) (i0 : nat) (a : list A) :
  List.length (map_from f i0 a) = List.length a.
Proof.
  revert i0. induction a as [|v a IH]; intros i0; simpl; [|rewrite IH];
    reflexivity.
Qed.

Lemma map_from_nth_error (f : A -> nat -> B) (a : list A) :
  forall i0 j,
    nth_error (map_from f i0 a) j
    = option_map (fun v => f v (i0 + j)%nat) (nth_error a j).
Proof.
  induction a as [|v a IH]; intros i0 [|j]; simpl; try reflexivity.
  - now rewrite Nat.add_0_r.
  - rewrite IH. now rewrite Nat.add_succ_r.
Qed.

Lemma mapi_length (f : A -> nat -> B) (a : list A) :
  List.length (mapi f a) = List.length a.
Proof. apply map_from_length. Qed.

Lemma mapi_nth_error (f : A -> nat -> B) (a : list A) (j : nat) :
  nth_error (mapi f a) j = option_map (fun v => f v j) (nth_error a j).
Proof. unfold mapi. now rewrite map_from_nth_error. Qed.

Lemma mapi_In (f : A -> nat -> B) (a : list A) (b : B) :
  In b (mapi f a) <-> exists j v, nth_error a j = Some v /\ b = f v j.
Proof.
  split.
  - intros H. apply In_nth_error in H as [j Hj].
    rewrite mapi_nth_error in Hj.
    destruct (nth_error a j) as [v|] eqn:E; [|discriminate].
    injection Hj as <-. eauto.
  - intros (j & v & Hj & ->). apply nth_error_In with j.
    now rewrite mapi_nth_error, Hj.
Qed.

(** A sequenced array returns exactly when each element does, and then
    position by position. *)
Lemma sequence_Ok (l : list (result A)) :
  forall rs, sequence l = Ok rs -> Forall2 (fun r a => r = Ok a) l rs.
Proof.
  induction l as [|r l IH]; simpl; intros rs H.
  - injection H as <-. constructor.
  - destruct r as [a|]; [|discriminate]. simpl in H.
    destruct (sequence l) as [rest|]; [|discriminate]. simpl in H.
    injection H as <-. constructor; auto.
Qed.

Lemma sequence_total (l : list (result A)) :
  (forall r, In r l -> exists a, r = Ok a) -> exists rs, sequence l = Ok rs.
Proof.
  induction l as [|r l IH]; simpl; intros H; [eauto|].
  destruct (H r (or_introl eq_refl)) as [a ->].
  destruct IH as [rest ->]; [auto|]. simpl. eauto.
Qed.

Lemma sequence_nth_error (l : list (result A)) (rs : list A) (j : nat) :
  sequence l = Ok rs ->
  forall r, nth_error l j = Some r ->
    exists a, r = Ok a /\ nth_error rs j = Some a.
Proof.
  intros H. apply sequence_Ok in H. revert j.
  induction H as [|r a l rs Hr _ IH]; intros [|j] r0 Hj; simpl in *;
    try discriminate.
  - injection Hj as <-. eauto.
  - eauto.
Qed.

Lemma sequence_length (l : list (result A)) (rs : list A) :
  sequence l = Ok rs -> List.length rs = List.length l.
Proof.
  intros H. apply sequence_Ok in H. symmetry.
  induction H; simpl; congruence.
Qed.

Lemma rendered_In (children : list (option Svg)) (e : Svg) :
  In e (rendered children) <-> In (Some e) children.
Proof.
  unfold rendered, flatMap. rewrite in_concat. split.
  - intros (l & Hl & He). apply in_map_iff in Hl as (c & <- & Hc).
    destruct c as [e'|]; [|destruct He].
    destruct He as [<-|[]]. assumption.
  - intros H. exists [e]. split; [|now left].
    apply in_map_iff. exists (Some e). auto.
Qed.

End ArrayFacts.

(* ================================================================== *)
(** ** The renderer (legend revision) *)
(* ================================================================== *)

Section Renderer.
Variable data : list PlotData.t.

(** A point whose [y] exists is drawn without error: a marker, and the
    value label when the index is sampled. *)
Lemma point_defined (i : nat) (d : PlotData.t) (ys : list number)
    (xv yv : number) (j : nat) :
  nth_error ys j = Some yv ->
  Legend.point data i d ys xv j
  = Ok (g (circle (Legend.scaleX data xv) (Legend.scaleY data yv)
                  (frac 5 2) (color i)
           :: if Legend.labelled (List.length (PlotData.x d)) j
              then [text (Legend.scaleX data xv)
                         (Legend.scaleY data yv - lit 8)%js
                         (lit 11) (color i) (toFixed yv 2)]
              else [])).
Proof.
  intros Hy. unfold Legend.point, Legend.value_label. rewrite Hy.
  destruct (Legend.labelled _ j); reflexivity.
Qed.

(** Whatever a point returns is a group that holds a marker and at most a
    value label. *)
Lemma point_shape (i : nat) (d : PlotData.t) (ys : list number)
    (xv : number) (j : nat) (e : Svg) :
  Legend.point data i d ys xv j = Ok e ->
  exists c rest,
    e = g (c :: rest)
    /\ c = circle (Legend.scaleX data xv)
                  (Legend.scaleY data (ToNumber (nth_error ys j)))
                  (frac 5 2) (color i)
    /\ (rest = [] \/ exists l, rest = [l] /\ is_text l = true).
Proof.
  unfold Legend.point, Legend.value_label.
  destruct (Legend.labelled _ j).
  - destruct (nth_error ys j) as [yv|]; [|discriminate].
    simpl. intros H. injection H as <-.
    eexists _, _. split; [reflexivity|]. split; [reflexivity|].
    right. eexists. split; reflexivity.
  - simpl. intros H. injection H as <-.
    eexists _, _. split; [reflexivity|]. split; [reflexivity|]. now left.
Qed.

Lemma series_without_y (i : nat) (d : PlotData.t) :
  PlotData.y d = None -> Legend.series data d i = Ok None.
Proof. unfold Legend.series. now intros ->. Qed.

Lemma series_complete (i : nat) (d : PlotData.t) (ys : list number) :
  PlotData.y d = Some ys ->
  (List.length (PlotData.x d) <= List.length ys)%nat ->
  exists pts,
    sequence (mapi (Legend.point data i d ys) (PlotData.x d)) = Ok pts
    /\ Legend.series data d i
       = Ok (Some (g (polyline (color i) (frac 5 2)
                        (mapi (fun xv j =>
                                 (Legend.scaleX data xv,
                                  Legend.scaleY data
                                    (ToNumber (nth_error ys j))))
                              (PlotData.x d))
                      :: pts))).
Proof.
  intros Hy Hlen.
  destruct (sequence_total (mapi (Legend.point data i d ys) (PlotData.x d)))
    as [pts Hpts].
  { intros r Hr. apply mapi_In in Hr as (j & xv & Hj & ->).
    assert (Hlt : (j < List.length ys)%nat).
    { apply Nat.lt_le_trans with (List.length (PlotData.x d)); [|assumption].
      apply nth_error_Some. congruence. }
    destruct (nth_error ys j) as [yv|] eqn:E.
    - erewrite point_defined by eassumption. eauto.
    - apply nth_error_None in E. lia. }
  exists pts. split; [assumption|].
  unfold Legend.series. rewrite Hy, Hpts. reflexivity.
Qed.

Lemma series_total (i : nat) (d : PlotData.t) :
  complete d = true -> exists s, Legend.series data d i = Ok s.
Proof.
  unfold complete. destruct (PlotData.y d) as [ys|] eqn:Hy; intros H.
  - apply Nat.leb_le in H.
    destruct (@series_complete i d ys Hy H) as (pts & _ & ->). eauto.
  - rewrite series_without_y by assumption. eauto.
Qed.

(** The render returns a drawing when every drawn series is complete. *)
Lemma render_total :
  forallb complete data = true -> exists out, Legend.render data = Ok out.
Proof.
  intros H. unfold Legend.render.
  destruct (sequence_total (mapi (Legend.series data) data)) as [ss ->].
  - intros r Hr. apply mapi_In in Hr as (i & d & Hi & ->).
    apply series_total. rewrite forallb_forall in H. apply H.
    now apply nth_error_In with i.
  - simpl. eauto.
Qed.

Lemma render_inv (out : list Svg) :
  Legend.render data = Ok out ->
  exists ss,
    sequence (mapi (Legend.series data) data) = Ok ss
    /\ out = Legend.grid data ++ Legend.axes ++ Legend.axis_labels
             ++ rendered ss ++ Legend.legend data.
Proof.
  unfold Legend.render.
  destruct (sequence (mapi (Legend.series data) data)) as [ss|];
    [|discriminate].
  simpl. intros H. injection H as <-. eauto.
Qed.

End Renderer.

(** A drawn series whose [y] is shorter than its [x] makes the render
    throw at the first labelled point without a value. *)
Example short_y_throws :
  Legend.render [PlotData.make [lit 0; lit 1] (Some [lit 0]) "short"]
  = TypeError.
Proof. reflexivity. Qed.

(** C5.  A series without [y], at any position of the input: its slot in
    the drawing is empty (no polyline, no markers) and computing it
    throws nothing, in both revisions; the whole render returns when the
    drawn series are complete; and its [x] values are part of the array
    the X extent is taken from, so on finite data they lie between [minX]
    and [maxX]. *)
Theorem C5_series_without_y (data : list PlotData.t) (i : nat)
    (d : PlotData.t) :
  nth_error data i = Some d ->
  PlotData.y d = None ->
  Legend.series data d i = Ok None
  /\ Minimal.series data d i = None
  /\ (forall ss, sequence (mapi (Legend.series data) data) = Ok ss ->
        nth_error ss i = Some None)
  /\ (forallb complete data = true ->
        exists out, Legend.render data = Ok out)
  /\ (forall v, In v (PlotData.x d) -> In v (allX data))
  /\ (forallb isFinite (allX data) = true ->
      forall v, In v (PlotData.x d) ->
        exists m M q,
          minX data = Fin m /\ maxX data = Fin M /\ v = Fin q
          /\ (m <= q <= M)%Qc).
Proof.
  intros Hi Hy.
  assert (Hd : In d data) by (now apply nth_error_In with i).
  split; [now apply series_without_y|].
  split; [unfold Minimal.series; now rewrite Hy|].
  split.
  { intros ss Hss.
    destruct (sequence_nth_error (mapi (Legend.series data) data) i Hss
                (r := Legend.series data d i)) as (s & Hs & Hn).
    - now rewrite mapi_nth_error, Hi.
    - rewrite series_without_y in Hs by assumption. congruence. }
  split; [apply render_total|].
  split; [intros v Hv; now apply allX_In with d|].
  intros F v Hv.
  assert (Hin : In v (allX data)) by (now apply allX_In with d).
  assert (N : allX data <> []) by (intros E; rewrite E in Hin; destruct Hin).
  destruct (Math_min_finite F N) as (m & Hm & _ & Hle).
  destruct (Math_max_finite F N) as (M & HM & _ & Hge).
  destruct (finite_In _ _ F Hin) as [q ->].
  exists m, M, q. repeat split; auto.
Qed.

Lemma C5_series_without_y_witness :
  nth_error sample_data 0 = Some (PlotData.make [lit 0; frac 1 2; lit 1] None "linspace")
  /\ Legend.series sample_data
       (PlotData.make [lit 0; frac 1 2; lit 1] None "linspace") 0 = Ok None
  /\ (forall v, In v [lit 0; frac 1 2; lit 1] -> In v (allX sample_data)).
Proof.
  split; [reflexivity|].
  destruct (C5_series_without_y sample_data 0
              (d := PlotData.make [lit 0; frac 1 2; lit 1] None "linspace")
              eq_refl eq_refl) as (H1 & _ & _ & _ & H5 & _).
  split; [exact H1|exact H5].
Defined.

(* ================================================================== *)
(** ** Value labels *)
(* ================================================================== *)

(** [Math.ceil(n / 20)] on array lengths. *)
Lemma ceil_div_20 (n : nat) : ceil_div n 20 = ((n + 19) / 20)%nat.
Proof.
  unfold ceil_div. change (Pos.of_nat 20) with 20%positive.
  unfold Qceiling, Qfloor. cbn [Qopp Qnum Qden].
  apply Nat2Z.inj. rewrite Nat2Z.inj_div, Nat2Z.inj_add.
  change (Z.of_nat 19) with 19%Z. change (Z.of_nat 20) with 20%Z.
  pose proof (Nat2Z.is_nonneg n) as H0.
  pose proof (Z.div_mod (- Z.of_nat n) 20 ltac:(lia)) as H1.
  pose proof (Z.mod_pos_bound (- Z.of_nat n) 20 ltac:(lia)) as H2.
  pose proof (Z.div_mod (Z.of_nat n + 19) 20 ltac:(lia)) as H3.
  pose proof (Z.mod_pos_bound (Z.of_nat n + 19) 20 ltac:(lia)) as H4.
  rewrite Z2Nat.id by lia. lia.
Qed.

Lemma ceil_div_20_bounds (n : nat) :
  (n <= 20 * ceil_div n 20 < n + 20)%nat.
Proof.
  rewrite ceil_div_20.
  pose proof (Nat.div_mod_eq (n + 19) 20) as H.
  pose proof (Nat.mod_upper_bound (n + 19) 20 ltac:(lia)) as B. lia.
Qed.

Lemma divides_iff (m j : nat) :
  (0 < m)%nat -> Legend.divides m j = true <-> (j mod m = 0)%nat.
Proof.
  intros H. destruct m as [|m]; [lia|]. unfold Legend.divides.
  apply Nat.eqb_eq.
Qed.

(** The sampling rule, as written in the component. *)
Lemma labelled_iff (n j : nat) :
  Legend.labelled n j = true
  <-> (n <= 20 \/ j mod ceil_div n 20 = 0)%nat.
Proof.
  unfold Legend.labelled. rewrite orb_true_iff, Nat.leb_le.
  destruct (Nat.le_gt_cases n 20) as [H|H]; [tauto|].
  pose proof (ceil_div_20_bounds n) as B.
  rewrite divides_iff by lia. tauto.
Qed.

(** At most 20 indices below [n] are sampled. *)
Lemma labelled_count (n : nat) :
  (List.length (filter (Legend.labelled n) (seq 0 n)) <= 20)%nat.
Proof.
  destruct (Nat.le_gt_cases n 20) as [H|H].
  - apply Nat.le_trans with (List.length (seq 0 n)).
    + apply filter_length_le.
    + now rewrite length_seq.
  - pose proof (ceil_div_20_bounds n) as B.
    set (s := ceil_div n 20) in *.
    replace 20%nat with (List.length (map (fun t => s * t)%nat (seq 0 20)))
      by (now rewrite length_map, length_seq).
    apply NoDup_incl_length.
    + apply NoDup_filter, seq_NoDup.
    + intros j Hj. apply filter_In in Hj as [Hin Hl].
      apply in_seq in Hin. apply labelled_iff in Hl as [Hl|Hl]; [lia|].
      fold s in Hl. apply in_map_iff. exists (j / s)%nat. split.
      * pose proof (Nat.div_mod_eq j s). lia.
      * apply in_seq. split; [lia|]. simpl.
        apply Nat.Div0.div_lt_upper_bound. lia.
Qed.

(** Counting labels position by position. *)
Lemma label_total_by_index (p : nat -> bool) (pts : list Svg) :
  forall i0,
    (forall j pt, nth_error pts j = Some pt ->
       List.length (labels_of pt) = if p (i0 + j)%nat then 1%nat else 0%nat) ->
    label_total pts = List.length (filter p (seq i0 (List.length pts))).
Proof.
  unfold label_total, flatMap.
  induction pts as [|pt pts IH]; intros i0 H; [reflexivity|].
  simpl. rewrite length_app, (IH (S i0)).
  - specialize (H 0%nat pt eq_refl). rewrite Nat.add_0_r in H. rewrite H.
    destruct (p i0); reflexivity.
  - intros j e Hj. rewrite Nat.add_succ_l, <- Nat.add_succ_r.
    now apply (H (S j)).
Qed.

(** The point groups of a complete series, position by position. *)
Lemma series_points (data : list PlotData.t) (i : nat) (d : PlotData.t)
    (ys : list number) (pts : list Svg) :
  (List.length (PlotData.x d) <= List.length ys)%nat ->
  sequence (mapi (Legend.point data i d ys) (PlotData.x d)) = Ok pts ->
  forall j pt, nth_error pts j = Some pt ->
    exists xv yv,
      nth_error (PlotData.x d) j = Some xv /\ nth_error ys j = Some yv
      /\ pt = g (circle (Legend.scaleX data xv) (Legend.scaleY data yv)
                        (frac 5 2) (color i)
                 :: if Legend.labelled (List.length (PlotData.x d)) j
                    then [text (Legend.scaleX data xv)
                               (Legend.scaleY data yv - lit 8)%js
                               (lit 11) (color i) (toFixed yv 2)]
                    else []).
Proof.
  intros Hlen Hseq j pt Hj.
  assert (Hjn : (j < List.length (PlotData.x d))%nat).
  { rewrite <- (mapi_length (Legend.point data i d ys)),
      <- (sequence_length _ Hseq).
    apply nth_error_Some. congruence. }
  destruct (nth_error (PlotData.x d) j) as [xv|] eqn:Ex;
    [|apply nth_error_None in Ex; lia].
  destruct (nth_error ys j) as [yv|] eqn:Ey;
    [|apply nth_error_None in Ey; lia].
  destruct (sequence_nth_error _ j Hseq
              (r := Legend.point data i d ys xv j)) as (e & He & Hn).
  { now rewrite mapi_nth_error, Ex. }
  rewrite (@point_defined data i d ys xv yv j Ey) in He. injection He as <-.
  exists xv, yv. repeat split. congruence.
Qed.

(** C6.  A drawn, complete series with [n] points: the point group at
    index [j] carries a value label, the text [y[j].toFixed(2)], exactly
    when [n <= 20] or [j mod ceil(n/20) = 0]; the series carries at most 20
    labels. *)
Theorem C6_value_label_sampling (data : list PlotData.t) (i : nat)
    (d : PlotData.t) (ys : list number) :
  PlotData.y d = Some ys ->
  (List.length (PlotData.x d) <= List.length ys)%nat ->
  exists pl pts,
    Legend.series data d i = Ok (Some (g (pl :: pts)))
    /\ is_polyline pl = true
    /\ List.length pts = List.length (PlotData.x d)
    /\ (forall j pt, nth_error pts j = Some pt ->
          exists xv yv,
            nth_error (PlotData.x d) j = Some xv
            /\ nth_error ys j = Some yv
            /\ ((List.length (PlotData.x d) <= 20
                 \/ j mod ceil_div (List.length (PlotData.x d)) 20 = 0)%nat ->
                labels_of pt
                = [text (Legend.scaleX data xv)
                        (Legend.scaleY data yv - lit 8)%js
                        (lit 11) (color i) (toFixed yv 2)])
            /\ (~ (List.length (PlotData.x d) <= 20
                   \/ j mod ceil_div (List.length (PlotData.x d)) 20 = 0)%nat ->
                labels_of pt = []))
    /\ (label_total pts <= 20)%nat.
Proof.
  intros Hy Hlen.
  destruct (@series_complete data i d ys Hy Hlen) as (pts & Hseq & Hser).
  pose proof (@series_points data i d ys pts Hlen Hseq) as Hpts.
  assert (Hn : List.length pts = List.length (PlotData.x d)).
  { now rewrite (sequence_length _ Hseq), mapi_length. }
  eexists _, pts. split; [exact Hser|]. split; [reflexivity|].
  split; [exact Hn|]. split.
  - intros j pt Hj. destruct (Hpts j pt Hj) as (xv & yv & Hx & Hyv & ->).
    exists xv, yv. repeat split; try assumption.
    + intros L. apply labelled_iff in L. now rewrite L.
    + intros L. rewrite <- labelled_iff in L.
      apply not_true_is_false in L. now rewrite L.
  - rewrite (label_total_by_index
               (Legend.labelled (List.length (PlotData.x d))) pts 0).
    + rewrite Hn. apply labelled_count.
    + intros j pt Hj. destruct (Hpts j pt Hj) as (xv & yv & _ & _ & ->).
      simpl. now destruct (Legend.labelled _ j).
Qed.

Lemma C6_value_label_sampling_witness :
  exists pl pts,
    Legend.series [dense] dense 0 = Ok (Some (g (pl :: pts)))
    /\ List.length pts = 41%nat
    /\ (label_total pts <= 20)%nat.
Proof.
  destruct (@C6_value_label_sampling [dense] 0 dense
              (map (fun k => lit (Z.of_nat k)) (seq 0 41)) eq_refl)
    as (pl & pts & H1 & _ & H3 & _ & H5).
  - simpl. lia.
  - exists pl, pts. repeat split; assumption.
Defined.

(** With 41 points the step is 3 and 14 points are labelled. *)
Example dense_labels :
  match Legend.series [dense] dense 0 with
  | Ok (Some (g (_ :: pts))) => label_total pts
  | _ => 0%nat
  end = 14%nat.
Proof. vm_compute. reflexivity. Qed.

(* ================================================================== *)
(** ** Colours and legend *)
(* ================================================================== *)

Lemma color_defined (i : nat) :
  exists c, nth_error palette (i mod 4) = Some c /\ color i = Some c.
Proof.
  unfold color. pose proof (Nat.mod_upper_bound i 4 ltac:(lia)) as H.
  destruct (i mod 4)%nat as [|[|[|[|k]]]]; simpl; eauto. lia.
Qed.

Lemma legend_nth_error (data : list PlotData.t) (i : nat) (d : PlotData.t) :
  nth_error data i = Some d ->
  nth_error (Legend.legend data) i = Some (Legend.legend_entry d i).
Proof.
  intros H. unfold Legend.legend. now rewrite mapi_nth_error, H.
Qed.

(** C7.  The series at position [i]: the palette has an entry at index
    [i mod 4]; the polyline stroke, the fill of every point marker and the
    fill of the legend swatch are that entry; and the legend holds one
    entry per series, at the position of the series, with its label. *)
Theorem C7_palette_cycling (data : list PlotData.t) (i : nat)
    (d : PlotData.t) :
  nth_error data i = Some d ->
  exists c,
    nth_error palette (i mod 4) = Some c
    /\ List.length (Legend.legend data) = List.length data
    /\ nth_error (Legend.legend data) i
       = Some (g [ rect (Legend.width - Legend.padding - Legend.legendWidth
                         + lit 10)%js
                        (Legend.padding + lit 24 * lit (Z.of_nat i)
                         - lit 12)%js
                        (lit 18) (lit 6) (Some c);
                   text (Legend.width - Legend.padding - Legend.legendWidth
                         + lit 35)%js
                        (Legend.padding + lit 24 * lit (Z.of_nat i)
                         - lit 4)%js
                        (lit 15) (Some "#333") (Str (PlotData.label d)) ])
    /\ (forall out, Legend.render data = Ok out ->
          exists body, out = body ++ Legend.legend data)
    /\ (forall ys, PlotData.y d = Some ys ->
          (List.length (PlotData.x d) <= List.length ys)%nat ->
          exists pts_attr pts,
            Legend.series data d i
            = Ok (Some (g (polyline (Some c) (frac 5 2) pts_attr :: pts)))
            /\ forall pt, In pt pts ->
                 exists cx cy r rest,
                   pt = g (circle cx cy r (Some c) :: rest)
                   /\ forall l, In l rest ->
                        exists tx ty fs content,
                          l = text tx ty fs (Some c) content).
Proof.
  intros Hi. destruct (color_defined i) as (c & Hc & Hcol).
  exists c. split; [assumption|].
  split; [apply mapi_length|].
  split.
  { rewrite (legend_nth_error data i Hi). unfold Legend.legend_entry.
    now rewrite Hcol. }
  split.
  { intros out Hout. apply render_inv in Hout as (ss & _ & ->).
    exists (Legend.grid data ++ Legend.axes ++ Legend.axis_labels
            ++ rendered ss).
    now rewrite <- !app_assoc. }
  intros ys Hy Hlen.
  destruct (@series_complete data i d ys Hy Hlen) as (pts & Hseq & Hser).
  rewrite Hcol in Hser. eexists _, pts. split; [exact Hser|].
  intros pt Hpt. apply In_nth_error in Hpt as [j Hj].
  destruct (@series_points data i d ys pts Hlen Hseq j pt Hj)
    as (xv & yv & _ & _ & ->).
  rewrite Hcol. eexists _, _, _, _. split; [reflexivity|].
  intros l Hl. destruct (Legend.labelled _ j); [|destruct Hl].
  destruct Hl as [<-|[]]. eauto.
Qed.

Lemma C7_palette_cycling_witness :
  exists c,
    nth_error palette (5 mod 4) = Some c /\ c = "#d32f2f"
    /\ exists e, nth_error
         (Legend.legend (sample_data ++ sample_data)) 5 = Some e.
Proof.
  destruct (@C7_palette_cycling (sample_data ++ sample_data) 5
              (PlotData.make [lit 0; frac 1 2; lit 1]
                 (Some [frac 1 10; frac 1 2; frac 9 10]) "logistic")
              eq_refl) as (c & Hc & _ & He & _).
  exists c. split; [exact Hc|]. split.
  - simpl in Hc. now injection Hc as <-.
  - eexists. exact He.
Defined.

(* ================================================================== *)
(** ** Grid *)
(* ================================================================== *)

Lemma sequence_In {A : Type} (l : list (result A)) (rs : list A) (a : A) :
  sequence l = Ok rs -> In a rs -> In (Ok a) l.
Proof.
  intros H. apply sequence_Ok in H.
  induction H as [|r b l rs Hr _ IH]; simpl; [tauto|].
  intros [<-|Ha]; [left; assumption|right; auto].
Qed.

(** Nothing a series draws is a [<line>]. *)
Lemma series_no_line (data : list PlotData.t) (i : nat) (d : PlotData.t)
    (s : Svg) :
  Legend.series data d i = Ok (Some s) ->
  forall e, In e (descendants s) -> line_stroke e = None.
Proof.
  unfold Legend.series. destruct (PlotData.y d) as [ys|]; [|discriminate].
  destruct (sequence (mapi (Legend.point data i d ys) (PlotData.x d)))
    as [pts|] eqn:Hseq; [|discriminate].
  simpl. intros H. injection H as <-. intros e [<-|[<-|He]]; try reflexivity.
  apply in_flat_map in He as (pt & Hpt & He).
  apply (sequence_In _ _ Hseq) in Hpt.
  apply mapi_In in Hpt as (j & xv & _ & Hp). symmetry in Hp.
  apply point_shape in Hp as (c & rest & -> & -> & Hrest).
  simpl in He. destruct He as [<-|[<-|He]]; try reflexivity.
  destruct Hrest as [->|(l & -> & Hl)]; [destruct He|].
  simpl in He. rewrite app_nil_r in He.
  destruct l; try discriminate. simpl in He.
  destruct He as [<-|[]]. reflexivity.
Qed.

(** C9.  Legend mode.  In a drawing the render returns, the lines with
    the grid stroke, at any depth, are exactly one horizontal line at
    [scaleY (minY + (maxY - minY) * f)] and one vertical line at
    [scaleX (minX + (maxX - minX) * f)] for each [f] among 0.25, 0.5, 0.75
    and 1. *)
Theorem C9_gridlines (data : list PlotData.t) (out : list Svg) :
  Legend.render data = Ok out ->
  forall e,
    (In e (flat_map descendants out) /\ line_stroke e = Some "#e0e0e0")
    <-> exists f,
          In f [frac 1 4; frac 1 2; frac 3 4; lit 1]
          /\ (e = line Legend.padding
                       (Legend.scaleY data
                          (minY data + (maxY data - minY data) * f)%js)
                       (Legend.width - Legend.padding)%js
                       (Legend.scaleY data
                          (minY data + (maxY data - minY data) * f)%js)
                       "#e0e0e0" None
              \/ e = line (Legend.scaleX data
                             (minX data + (maxX data - minX data) * f)%js)
                          Legend.padding
                          (Legend.scaleX data
                             (minX data + (maxX data - minX data) * f)%js)
                          (Legend.height - Legend.padding)%js
                          "#e0e0e0" None).
Proof.
  intros Hout e. apply render_inv in Hout as (ss & Hss & ->).
  fold (Legend.grid_fractions).
  split.
  - intros [Hin Hstroke].
    rewrite !flat_map_app, !in_app_iff in Hin.
    destruct Hin as [Hin|[Hin|[Hin|[Hin|Hin]]]].
    + unfold Legend.grid in Hin. apply in_flat_map in Hin as (ge & Hg & He).
      apply in_map_iff in Hg as (f & <- & Hf). exists f. split; [assumption|].
      simpl in He. destruct He as [<-|[<-|[<-|[]]]]; [discriminate| |].
      * left. reflexivity.
      * right. reflexivity.
    + simpl in Hin.
      destruct Hin as [<-|[<-|[]]]; discriminate.
    + simpl in Hin.
      destruct Hin as [<-|[<-|[]]]; discriminate.
    + apply in_flat_map in Hin as (s & Hs & He).
      apply rendered_In in Hs. apply (sequence_In _ _ Hss) in Hs.
      apply mapi_In in Hs as (i & d & _ & Hs). symmetry in Hs.
      rewrite (series_no_line data i d Hs e He) in Hstroke. discriminate.
    + apply in_flat_map in Hin as (entry & Hl & He).
      apply mapi_In in Hl as (i & d & _ & ->).
      simpl in He. destruct He as [<-|[<-|[<-|[]]]]; discriminate.
  - intros (f & Hf & He). split.
    + rewrite flat_map_app, in_app_iff. left.
      apply in_flat_map. exists (g [Legend.grid_h data f; Legend.grid_v data f]).
      split.
      * unfold Legend.grid. apply in_map_iff. eauto.
      * simpl. destruct He as [-> | ->]; auto.
    + destruct He as [-> | ->]; reflexivity.
Qed.

(** On [sample_data] the vertical grid lines stand at x = 190, 340, 490
    and 640. *)
Example grid_sample_columns :
  map (fun f => Legend.scaleX sample_data
                  (minX sample_data
                   + (maxX sample_data - minX sample_data) * f)%js)
      Legend.grid_fractions
  = [lit 190; lit 340; lit 490; lit 640].
Proof.
  unfold Legend.grid_fractions, map.
  repeat (f_equal; [apply same_eq; reflexivity|]). reflexivity.
Qed.

Lemma C9_gridlines_witness :
  Legend.render sample_data = Ok sample_drawing
  /\ In (line (Legend.scaleX sample_data
                 (minX sample_data
                  + (maxX sample_data - minX sample_data) * frac 1 2)%js)
              Legend.padding
              (Legend.scaleX sample_data
                 (minX sample_data
                  + (maxX sample_data - minX sample_data) * frac 1 2)%js)
              (Legend.height - Legend.padding)%js "#e0e0e0" None)
        (flat_map descendants sample_drawing).
Proof.
  assert (H : Legend.render sample_data = Ok sample_drawing)
    by (vm_compute; reflexivity).
  split; [exact H|].
  apply (proj2 (@C9_gridlines sample_data sample_drawing H _)).
  exists (frac 1 2). split; [right; left; reflexivity|right; reflexivity].
Defined.

(* ================================================================== *)
(** ** DemoForm: fetch, join, then plot *)
(* ================================================================== *)

Section Join.
Import DemoForm.

Lemma set_nth_other {A : Type} (v : A) (a : list A) :
  forall k j, k <> j -> nth_error (set_nth k v a) j = nth_error a j.
Proof.
  induction a as [|w a IH]; intros [|k] [|j] H; simpl; try reflexivity.
  - congruence.
  - apply IH. congruence.
Qed.

Lemma set_nth_same {A : Type} (v : A) (a : list A) :
  forall k w, nth_error a k = Some w -> nth_error (set_nth k v a) k = Some v.
Proof.
  induction a as [|u a IH]; intros [|k] w H; simpl in *; try discriminate.
  - reflexivity.
  - eauto.
Qed.

Lemma all_fulfilled_Some (l : list (option Settled)) :
  forall rs, all_fulfilled l = Some rs ->
             l = map (fun r => Some (Fulfilled r)) rs.
Proof.
  induction l as [|o l IH]; simpl; intros rs H.
  - now injection H as <-.
  - destruct o as [[r|m]|]; try discriminate.
    destruct (all_fulfilled l) as [rs'|]; [|discriminate].
    injection H as <-. simpl. f_equal. now apply IH.
Qed.

(** A complete call has no pending promise. *)
Lemma complete_no_pending (lin exp logi multi : Response.t) (k : nat) :
  nth_error [ Some (Fulfilled lin); Some (Fulfilled exp);
              Some (Fulfilled logi); Some (Fulfilled multi) ] k
  <> Some None.
Proof. destruct k as [|[|[|[|[|k]]]]]; simpl; discriminate. Qed.

Lemma fetchAndSetPlotData_plotData (s : State) :
  plotData (fetchAndSetPlotData s) = plotData s.
Proof. reflexivity. Qed.

Lemma from_complete_call_fetch (s : State) :
  from_complete_call s -> from_complete_call (fetchAndSetPlotData s).
Proof.
  unfold from_complete_call. rewrite fetchAndSetPlotData_plotData.
  destruct (plotData s) as [data|]; [|trivial].
  intros (id & c & lin & exp & logi & multi & Hc & Hs & Hd).
  exists id, c, lin, exp, logi, multi. repeat split; try assumption.
  simpl. rewrite nth_error_app1; [assumption|].
  apply nth_error_Some. congruence.
Qed.

(** Recording a settlement in a call that still has a pending promise
    keeps every complete call as it is. *)
Lemma from_complete_call_recorded (s : State) (id k : nat) (c c' : PromiseAll) :
  nth_error (calls s) id = Some c ->
  nth_error (slots c) k = Some None ->
  from_complete_call s ->
  from_complete_call
    (with_network (requests s) (set_nth id c' (calls s)) s).
Proof.
  intros Hc Hk. unfold from_complete_call. simpl.
  destruct (plotData s) as [data|]; [|trivial].
  intros (id0 & c0 & lin & exp & logi & multi & Hc0 & Hs & Hd).
  exists id0, c0, lin, exp, logi, multi. repeat split; try assumption.
  rewrite set_nth_other; [assumption|].
  intros ->. rewrite Hc in Hc0. injection Hc0 as ->.
  rewrite Hs in Hk. now apply complete_no_pending in Hk.
Qed.

Lemma from_complete_call_settle (s : State) (id k : nat) (o : Settled) :
  from_complete_call s -> from_complete_call (settle id k o s).
Proof.
  intros I. unfold settle.
  destruct (nth_error (calls s) id) as [c|] eqn:Hc; [|assumption].
  destruct (nth_error (slots c) k) as [[st|]|] eqn:Hk; try assumption.
  destruct o as [r|m], (reason c) as [rsn|];
    try (now apply from_complete_call_recorded with k c).
  destruct (all_fulfilled (set_nth k (Some (Fulfilled r)) (slots c)))
      as [[|lin [|exp [|logi [|multi [|extra rs]]]]]|] eqn:Hall;
      try (now apply from_complete_call_recorded with k c).
    apply all_fulfilled_Some in Hall. simpl in Hall.
    unfold from_complete_call. simpl.
    exists id. eexists. exists lin, exp, logi, multi.
    split; [|split; [|reflexivity]].
    + eapply set_nth_same. eassumption.
    + simpl. exact Hall.
Qed.

Lemma from_complete_call_step (s : State) (ev : Event) :
  from_complete_call s -> from_complete_call (step s ev).
Proof.
  intros I. destruct ev as [v|v|v| |id k reply]; simpl.
  - destruct (v =? tab s)%nat; [assumption|].
    destruct (v =? 1)%nat; [apply from_complete_call_fetch|]; exact I.
  - destruct (tab s =? 1)%nat; exact I.
  - destruct (tab s =? 1)%nat; exact I.
  - destruct ((tab s =? 1)%nat && negb (execute_disabled s));
      [apply from_complete_call_fetch|]; exact I.
  - now apply from_complete_call_settle.
Qed.

Lemma from_complete_call_run (evs : list Event) :
  forall s, from_complete_call s -> from_complete_call (run s evs).
Proof.
  induction evs as [|ev evs IH]; intros s I; [exact I|].
  simpl. apply IH. now apply from_complete_call_step.
Qed.

End Join.

Section FetchFailure.
Import DemoForm.

Lemma all_fulfilled_pending (l : list (option Settled)) :
  In None l -> all_fulfilled l = None.
Proof.
  induction l as [|o l IH]; simpl; [tauto|].
  intros [->|H]; [reflexivity|].
  destruct o as [[r|m]|]; try reflexivity. now rewrite IH.
Qed.

Lemma message_or_default_nonempty (m : string) :
  m <> "" -> message_or_default m = m.
Proof. destruct m; [congruence|reflexivity]. Qed.

(** The first rejection of an undecided call. *)
Lemma settle_first_rejection (s : State) (id k : nat) (c : PromiseAll)
    (msg : string) :
  nth_error (calls s) id = Some c ->
  reason c = None ->
  nth_error (slots c) k = Some None ->
  plotData (settle id k (Rejected msg) s) = plotData s
  /\ plotError (settle id k (Rejected msg) s) = Some (message_or_default msg)
  /\ plotLoading (settle id k (Rejected msg) s) = false.
Proof.
  intros Hc Hr Hk. unfold settle. rewrite Hc, Hk, Hr. simpl. auto.
Qed.

(** A call that has rejected ignores what its other promises do. *)
Lemma settle_after_rejection (s : State) (id k : nat) (c : PromiseAll)
    (o : Settled) :
  nth_error (calls s) id = Some c ->
  reason c <> None ->
  plotData (settle id k o s) = plotData s
  /\ plotError (settle id k o s) = plotError s
  /\ plotLoading (settle id k o s) = plotLoading s.
Proof.
  intros Hc Hr. unfold settle. rewrite Hc.
  destruct (nth_error (slots c) k) as [[st|]|]; auto.
  destruct (reason c) as [r|]; [|congruence].
  destruct o; simpl; auto.
Qed.

(** While a promise of the call is pending, nothing is plotted. *)
Lemma settle_partial (s : State) (id k : nat) (c : PromiseAll) (o : Settled) :
  nth_error (calls s) id = Some c ->
  In None (set_nth k (Some o) (slots c)) ->
  plotData (settle id k o s) = plotData s.
Proof.
  intros Hc Hp. unfold settle. rewrite Hc.
  destruct (nth_error (slots c) k) as [[st|]|]; auto.
  destruct o as [r|m], (reason c) as [rsn|]; simpl; auto.
  now rewrite (all_fulfilled_pending _ Hp).
Qed.

(** The last fulfilment of an undecided call plots the four series. *)
Lemma settle_last_fulfilment (s : State) (id k : nat) (c : PromiseAll)
    (r lin exp logi multi : Response.t) :
  nth_error (calls s) id = Some c ->
  reason c = None ->
  nth_error (slots c) k = Some None ->
  set_nth k (Some (Fulfilled r)) (slots c)
  = [ Some (Fulfilled lin); Some (Fulfilled exp);
      Some (Fulfilled logi); Some (Fulfilled multi) ] ->
  plotData (settle id k (Fulfilled r) s)
  = Some (compose lin exp logi multi)
  /\ plotLoading (settle id k (Fulfilled r) s) = false.
Proof.
  intros Hc Hr Hk Hall. unfold settle. rewrite Hc, Hk, Hr, Hall. simpl. auto.
Qed.

End FetchFailure.

(** C2.  (1) Whatever happens in the plot tab, the plot data on screen,
    and so the chart and its scale, is the composition of the four
    fulfilled responses of one call.  (2) While a promise of a call is
    pending, a settlement in that call leaves the plot data as it is.
    (3) When a fetch of an undecided call fails, the plot data and the
    chart stay as they were, the error shown is the message of the failure
    (or [API error] when it is empty) and the loading flag is cleared.
    (4) Later settlements of that call change nothing.  (5) When the
    last pending fetch of an undecided call is fulfilled, the four series
    are plotted. *)
Theorem C2_join_then_render :
  (forall evs, from_complete_call (DemoForm.run DemoForm.init evs))
  /\ (forall s id k reply c,
        nth_error (DemoForm.calls s) id = Some c ->
        In None (DemoForm.set_nth k (Some (DemoForm.fetchArrayAPI reply))
                   (DemoForm.slots c)) ->
        DemoForm.plotData (DemoForm.step s (DemoForm.Settle id k reply))
        = DemoForm.plotData s)
  /\ (forall s id k reply msg c,
        nth_error (DemoForm.calls s) id = Some c ->
        DemoForm.reason c = None ->
        nth_error (DemoForm.slots c) k = Some None ->
        DemoForm.fetchArrayAPI reply = DemoForm.Rejected msg ->
        let s' := DemoForm.step s (DemoForm.Settle id k reply) in
        DemoForm.plotData s' = DemoForm.plotData s
        /\ DemoForm.chart s' = DemoForm.chart s
        /\ DemoForm.plotError s' = Some (DemoForm.message_or_default msg)
        /\ (msg <> "" -> DemoForm.plotError s' = Some msg)
        /\ DemoForm.plotLoading s' = false)
  /\ (forall s id k reply c,
        nth_error (DemoForm.calls s) id = Some c ->
        DemoForm.reason c <> None ->
        let s' := DemoForm.step s (DemoForm.Settle id k reply) in
        DemoForm.plotData s' = DemoForm.plotData s
        /\ DemoForm.plotError s' = DemoForm.plotError s
        /\ DemoForm.plotLoading s' = DemoForm.plotLoading s)
  /\ (forall s id k reply r c lin exp logi multi,
        nth_error (DemoForm.calls s) id = Some c ->
        DemoForm.reason c = None ->
        nth_error (DemoForm.slots c) k = Some None ->
        DemoForm.fetchArrayAPI reply = DemoForm.Fulfilled r ->
        DemoForm.set_nth k (Some (DemoForm.Fulfilled r)) (DemoForm.slots c)
        = [ Some (DemoForm.Fulfilled lin); Some (DemoForm.Fulfilled exp);
            Some (DemoForm.Fulfilled logi); Some (DemoForm.Fulfilled multi) ] ->
        let s' := DemoForm.step s (DemoForm.Settle id k reply) in
        DemoForm.plotData s' = Some (DemoForm.compose lin exp logi multi)
        /\ DemoForm.plotLoading s' = false).
Proof.
  split; [|split; [|split; [|split]]].
  - intros evs. apply from_complete_call_run. exact I.
  - intros s id k reply c Hc Hp. simpl. now apply settle_partial with c.
  - intros s id k reply msg c Hc Hr Hk Hf. simpl. rewrite Hf.
    destruct (@settle_first_rejection s id k c msg Hc Hr Hk) as (H1 & H2 & H3).
    repeat split; try assumption.
    + unfold DemoForm.chart. now rewrite H1.
    + intros Hm. now rewrite H2, message_or_default_nonempty.
  - intros s id k reply c Hc Hr. simpl. now apply settle_after_rejection with c.
  - intros s id k reply r c lin exp logi multi Hc Hr Hk Hf Hall. simpl.
    rewrite Hf. now apply settle_last_fulfilment with c.
Qed.

(** The first chart is on screen and the second call is running when its
    third fetch answers 503: the first chart stays, the error is shown. *)
Lemma C2_join_then_render_witness :
  let s := DemoForm.run DemoForm.init second_call_running in
  let s' := DemoForm.step s
              (DemoForm.Settle 1 2
                 (DemoForm.Http 503 (DemoForm.Malformed "Service Unavailable"))) in
  DemoForm.plotData s
  = Some (DemoForm.compose lin_body curve_body curve_body curve_body)
  /\ DemoForm.plotData s' = DemoForm.plotData s
  /\ DemoForm.plotError s' = Some "API error: 503"
  /\ DemoForm.plotLoading s' = false.
Proof.
  intros s s'. split; [reflexivity|].
  destruct (proj1 (proj2 (proj2 C2_join_then_render)) s 1%nat 2%nat
              (DemoForm.Http 503 (DemoForm.Malformed "Service Unavailable"))
              "API error: 503"
              {| DemoForm.slots := [ Some (DemoForm.Fulfilled lin_body);
                                     None; None; None ];
                 DemoForm.reason := None |}
              eq_refl eq_refl eq_refl eq_refl)
    as (H1 & _ & _ & H4 & H5).
  split; [exact H1|]. split; [|exact H5].
  apply H4. discriminate.
Defined.

(* ================================================================== *)
(** ** Degenerate domains *)
(* ================================================================== *)

(** In the model of the server taken from the spec, equal bounds and
    non-finite bounds are refused by every generator, and no array comes
    back. *)
Lemma generate_invalid_domain (N : nat)
    (curve : SignalGenerator.Generator -> number -> number)
    (gen : SignalGenerator.Generator) (x_min x_max : number) :
  eqb x_min x_max = true \/ isFinite x_min = false \/ isFinite x_max = false ->
  SignalGenerator.generate N curve gen x_min x_max
  = inl SignalGenerator.InvalidDomain.
Proof.
  unfold SignalGenerator.generate, SignalGenerator.valid_domain.
  intros [H|[H|H]]; rewrite H; simpl;
    rewrite ?andb_false_r; reflexivity.
Qed.

(** The button does nothing while the bounds are equal. *)
Lemma execute_guard (s : DemoForm.State) :
  eqb (DemoForm.xMin s) (DemoForm.xMax s) = true ->
  DemoForm.step s DemoForm.ClickExecute = s.
Proof.
  intros H. simpl. unfold DemoForm.execute_disabled. rewrite H.
  now rewrite orb_true_r, andb_false_r.
Qed.

(** C8, on the client: the effect that fetches when tab 2 is opened has
    no guard.  After [x_max] has been set equal to [x_min], leaving and
    reopening tab 2 posts [{x_min: 0, x_max: 0}] to the four endpoints,
    while the button is disabled; each of these requests is an
    [InvalidDomain] for the server. *)
Theorem C8_reopen_issues_equal_bounds :
  let s := DemoForm.run DemoForm.init reopen_with_equal_bounds in
  DemoForm.execute_disabled s = true
  /\ skipn 4 (DemoForm.requests s)
     = map (fun e => {| DemoForm.endpoint := e;
                        DemoForm.x_min := lit 0; DemoForm.x_max := lit 0 |})
           ["/linspace"; "/exp_cos"; "/logistic"; "/multi_bump"]
  /\ ~ never_equal_bounds reopen_with_equal_bounds
  /\ (forall N curve gen,
        SignalGenerator.generate N curve gen (lit 0) (lit 0)
        = inl SignalGenerator.InvalidDomain).
Proof.
  intros s. split; [reflexivity|]. split; [reflexivity|]. split.
  - intros H.
    specialize (H {| DemoForm.endpoint := "/linspace";
                     DemoForm.x_min := lit 0; DemoForm.x_max := lit 0 |}).
    assert (E : eqb (lit 0) (lit 0) = false).
    { apply H. simpl. do 4 right. left. reflexivity. }
    discriminate E.
  - intros N curve gen. apply generate_invalid_domain. left. reflexivity.
Qed.

(* ================================================================== *)
(** ** Further properties of the scale *)
(* ================================================================== *)

Section AffineBounds.
Variables base span m M q : Qc.
Hypothesis Hext : (m < M)%Qc.
Hypothesis Hin : (m <= q <= M)%Qc.
Hypothesis Hspan : (0 <= span)%Qc.

Lemma fraction_bounds : (0 <= (q - m) / (M - m) <= 1)%Qc.
Proof.
  assert (P : (0 < / (M - m))%Qc) by (apply Qcinv_pos; now apply Qcminus_pos).
  assert (NZ : (M - m)%Qc <> 0%Qc).
  { intros E. apply Qcminus_0_eq in E. subst. now apply Qclt_not_eq in Hext. }
  destruct Hin as [Hlo Hhi]. unfold Qcdiv. split.
  - rewrite <- (Qcmult_0_l (/ (M - m))).
    apply Qcmult_le_compat_r; [|now apply Qclt_le_weak].
    apply Qcle_minus_iff in Hlo. exact Hlo.
  - rewrite <- (Qcmult_inv_r (M - m)) by assumption.
    apply Qcmult_le_compat_r; [|now apply Qclt_le_weak].
    unfold Qcminus. apply Qcplus_le_compat; [assumption|apply Qcle_refl].
Qed.

Lemma affine_bounds :
  (base <= base + (q - m) / (M - m) * span <= base + span)%Qc.
Proof.
  destruct fraction_bounds as [Hlo Hhi]. split.
  - rewrite <- (Qcplus_0_r base) at 1.
    apply Qcplus_le_compat; [apply Qcle_refl|].
    rewrite <- (Qcmult_0_l span). now apply Qcmult_le_compat_r.
  - apply Qcplus_le_compat; [apply Qcle_refl|].
    rewrite <- (Qcmult_1_l span) at 2. now apply Qcmult_le_compat_r.
Qed.

Lemma inverted_bounds :
  (base - span <= base - (q - m) / (M - m) * span <= base)%Qc.
Proof.
  destruct fraction_bounds as [Hlo Hhi]. unfold Qcminus. split.
  - apply Qcplus_le_compat; [apply Qcle_refl|]. apply Qcopp_le_compat.
    rewrite <- (Qcmult_1_l span) at 2. now apply Qcmult_le_compat_r.
  - rewrite <- (Qcplus_0_r base) at 2.
    apply Qcplus_le_compat; [apply Qcle_refl|].
    replace 0%Qc with (- 0)%Qc by reflexivity. apply Qcopp_le_compat.
    rewrite <- (Qcmult_0_l span). now apply Qcmult_le_compat_r.
Qed.

End AffineBounds.

Lemma leb_Fin (a b : Qc) : leb (Fin a) (Fin b) = true <-> (a <= b)%Qc.
Proof.
  unfold leb. rewrite orb_true_iff, ltb_Fin. simpl. split.
  - intros [H|H]; [now apply Qclt_le_weak|].
    apply Qc_eq_bool_correct in H. subst. apply Qcle_refl.
  - intros H. destruct (Qcle_lt_or_eq _ _ H) as [L|E]; [now left|right].
    subst. unfold Qc_eq_bool. destruct (Qc_eq_dec b b); congruence.
Qed.

Section ExtentBounds.
Variable data : list PlotData.t.

Lemma extentX_bounds :
  forallb isFinite (allX data) = true ->
  ltb (minX data) (maxX data) = true ->
  exists m M,
    minX data = Fin m /\ maxX data = Fin M /\ (m < M)%Qc
    /\ forall v, In v (allX data) -> exists q, v = Fin q /\ (m <= q <= M)%Qc.
Proof.
  intros F L. pose proof (allX_nonempty data L) as N.
  destruct (Math_min_finite F N) as (m & Hm & _ & Hle).
  destruct (Math_max_finite F N) as (M & HM & _ & Hge).
  fold (minX data) in Hm. fold (maxX data) in HM.
  exists m, M. rewrite Hm, HM in L. apply ltb_Fin in L.
  split; [assumption|]. split; [assumption|]. split; [assumption|].
  intros v Hv. destruct (finite_In _ _ F Hv) as [q ->].
  exists q. split; [reflexivity|]. split; [now apply Hle|now apply Hge].
Qed.

Lemma extentY_bounds :
  forallb isFinite (allY data) = true ->
  ltb (minY data) (maxY data) = true ->
  exists m M,
    minY data = Fin m /\ maxY data = Fin M /\ (m < M)%Qc
    /\ forall v, In v (allY data) -> exists q, v = Fin q /\ (m <= q <= M)%Qc.
Proof.
  intros F L. destruct (extentY_nonempty data F L) as (m & M & Hm & HM & Hlt).
  exists m, M.
  split; [assumption|]. split; [assumption|]. split; [assumption|].
  intros v Hv.
  assert (N : allY data <> []) by (intros E; rewrite E in Hv; destruct Hv).
  destruct (allY_nonempty data N) as [Hmin Hmax].
  destruct (Math_min_finite F N) as (m' & Hm' & _ & Hle).
  destruct (Math_max_finite F N) as (M' & HM' & _ & Hge).
  assert (m' = m) by congruence. assert (M' = M) by congruence. subst.
  destruct (finite_In _ _ F Hv) as [q ->].
  exists q. split; [reflexivity|]. split; [now apply Hle|now apply Hge].
Qed.

End ExtentBounds.



Lemma Minimal_spanX : (Minimal.width - lit 2 * Minimal.padding)%js = lit 340.
Proof. reflexivity. Qed.



(* ================================================================== *)
(** ** Further properties of the grid *)
(* ================================================================== *)

Lemma grid_abscissa (m M f : Qc) :
  (m < M)%Qc ->
  ((m + (M - m) * f - m) / (M - m) = f)%Qc.
Proof.
  intros H. field. intros E. apply Qcminus_0_eq in E. subst.
  now apply Qclt_not_eq in H.
Qed.



(* ================================================================== *)
(** ** The scale outside its domain *)
(* ================================================================== *)

(** With no [x] value at all, [Math.min()] is [Infinity] and [Math.max()]
    is [-Infinity], and [scaleX] is [NaN] whatever it is applied to, in
    both revisions. *)
Theorem scaleX_without_samples (data : list PlotData.t) (v : number) :
  allX data = [] ->
  minX data = PosInf /\ maxX data = NegInf
  /\ Legend.scaleX data v = NaN /\ Minimal.scaleX data v = NaN.
Proof.
  intros E. unfold Legend.scaleX, Minimal.scaleX, minX, maxX. rewrite E.
  destruct v; repeat split.
Qed.

Lemma scaleX_without_samples_witness :
  minX [PlotData.make [] (Some []) "empty"] = PosInf
  /\ maxX [PlotData.make [] (Some []) "empty"] = NegInf
  /\ Legend.scaleX [PlotData.make [] (Some []) "empty"] (lit 0) = NaN
  /\ Minimal.scaleX [PlotData.make [] (Some []) "empty"] (lit 0) = NaN.
Proof.
  apply (@scaleX_without_samples [PlotData.make [] (Some []) "empty"] (lit 0)).
  reflexivity.
Defined.

Lemma min2_NaN_r (a : number) : min2 a NaN = NaN.
Proof. now destruct a. Qed.

Lemma max2_NaN_r (a : number) : max2 a NaN = NaN.
Proof. now destruct a. Qed.

Lemma Math_min_NaN (l : list number) : In NaN l -> Math_min l = NaN.
Proof.
  induction l as [|a l IH]; [intros []|].
  intros [->|H]; rewrite Math_min_cons; [reflexivity|].
  rewrite IH by assumption. apply min2_NaN_r.
Qed.

Lemma Math_max_NaN (l : list number) : In NaN l -> Math_max l = NaN.
Proof.
  induction l as [|a l IH]; [intros []|].
  intros [->|H]; rewrite Math_max_cons; [reflexivity|].
  rewrite IH by assumption. apply max2_NaN_r.
Qed.

Lemma scale_NaN_extent (a b v : number) :
  (a + (v - NaN) / (NaN - NaN) * b)%js = NaN
  /\ (a - (v - NaN) / (NaN - NaN) * b)%js = NaN.
Proof. destruct a, b, v; split; reflexivity. Qed.

(** One [NaN] among the [x] values makes both ends of the X extent [NaN]
    and with them every abscissa the scale returns; likewise for [y].
    Both revisions. *)
Theorem NaN_sample_poisons_scale (data : list PlotData.t) :
  (In NaN (allX data) ->
   minX data = NaN /\ maxX data = NaN
   /\ forall v, Legend.scaleX data v = NaN /\ Minimal.scaleX data v = NaN)
  /\ (In NaN (allY data) ->
      minY data = NaN /\ maxY data = NaN
      /\ forall v, Legend.scaleY data v = NaN /\ Minimal.scaleY data v = NaN).
Proof.
  split; intros H.
  - unfold Legend.scaleX, Minimal.scaleX, minX, maxX.
    rewrite (Math_min_NaN _ H), (Math_max_NaN _ H).
    split; [reflexivity|]. split; [reflexivity|].
    intros v. split; apply scale_NaN_extent.
  - assert (N : allY data <> []) by (intros E; rewrite E in H; destruct H).
    destruct (allY_nonempty data N) as [-> ->].
    unfold Legend.scaleY, Minimal.scaleY. destruct (allY_nonempty data N) as [-> ->].
    rewrite (Math_min_NaN _ H), (Math_max_NaN _ H).
    split; [reflexivity|]. split; [reflexivity|].
    intros v. split; apply scale_NaN_extent.
Qed.

Lemma NaN_sample_poisons_scale_witness :
  Legend.scaleX [PlotData.make [lit 0; NaN; lit 1] None "gap"] (lit 0) = NaN.
Proof.
  apply (proj1 (NaN_sample_poisons_scale
                  [PlotData.make [lit 0; NaN; lit 1] None "gap"])).
  simpl. auto.
Defined.

Lemma scaleY_NaN (data : list PlotData.t) :
  Legend.scaleY data NaN = NaN /\ Minimal.scaleY data NaN = NaN.
Proof.
  unfold Legend.scaleY, Minimal.scaleY. unfold sub at 2 5.
  split.
  - destruct (Legend.height - Legend.padding)%js, (minY data),
      (maxY data - minY data)%js; reflexivity.
  - destruct (Minimal.height - Minimal.padding)%js, (minY data),
      (maxY data - minY data)%js; reflexivity.
Qed.

(* ================================================================== *)
(** ** When the render throws *)
(* ================================================================== *)

Lemma sequence_TypeError {A : Type} (l : list (result A)) :
  sequence l = TypeError <-> In TypeError l.
Proof.
  induction l as [|r l IH]; simpl.
  - split; [discriminate|tauto].
  - destruct r as [a|]; simpl.
    + destruct (sequence l) as [rest|]; simpl.
      * split; [discriminate|]. intros [H|H]; [discriminate|].
        apply IH in H. discriminate.
      * split; [|reflexivity]. intros _. right. now apply IH.
    + split; [now left|reflexivity].
Qed.

Lemma point_TypeError (data : list PlotData.t) (i : nat) (d : PlotData.t)
    (ys : list number) (xv : number) (j : nat) :
  Legend.point data i d ys xv j = TypeError
  <-> Legend.labelled (List.length (PlotData.x d)) j = true
      /\ (List.length ys <= j)%nat.
Proof.
  unfold Legend.point, Legend.value_label. rewrite <- nth_error_None.
  destruct (Legend.labelled _ j); [|split; [discriminate|intros [H _]; discriminate]].
  destruct (nth_error ys j); simpl; split; try discriminate; auto.
  intros [_ H]. discriminate.
Qed.

Lemma series_TypeError (data : list PlotData.t) (i : nat) (d : PlotData.t) :
  Legend.series data d i = TypeError
  <-> exists ys j,
        PlotData.y d = Some ys /\ (j < List.length (PlotData.x d))%nat
        /\ Legend.labelled (List.length (PlotData.x d)) j = true
        /\ (List.length ys <= j)%nat.
Proof.
  unfold Legend.series. destruct (PlotData.y d) as [ys|].
  - destruct (sequence (mapi (Legend.point data i d ys) (PlotData.x d)))
      as [pts|] eqn:E; simpl.
    + split; [discriminate|]. intros (ys' & j & Hy & Hj & Hl & Hlen).
      injection Hy as <-.
      assert (T : In TypeError (mapi (Legend.point data i d ys) (PlotData.x d))).
      { destruct (nth_error (PlotData.x d) j) as [xv|] eqn:Ex;
          [|apply nth_error_None in Ex; lia].
        apply mapi_In. exists j, xv. split; [assumption|].
        symmetry. now apply point_TypeError. }
      apply sequence_TypeError in T. congruence.
    + split; [intros _|reflexivity].
      apply sequence_TypeError, mapi_In in E as (j & xv & Hj & Hp).
      symmetry in Hp. apply point_TypeError in Hp as [Hl Hlen].
      exists ys, j. repeat split; try assumption.
      apply nth_error_Some. congruence.
  - split; [discriminate|]. intros (ys & j & Hy & _). discriminate.
Qed.

Lemma render_TypeError (data : list PlotData.t) :
  Legend.render data = TypeError
  <-> exists d ys j,
        In d data /\ PlotData.y d = Some ys
        /\ (j < List.length (PlotData.x d))%nat
        /\ Legend.labelled (List.length (PlotData.x d)) j = true
        /\ (List.length ys <= j)%nat.
Proof.
  unfold Legend.render.
  destruct (sequence (mapi (Legend.series data) data)) as [ss|] eqn:E; simpl.
  - split; [discriminate|]. intros (d & ys & j & Hd & Hrest).
    apply In_nth_error in Hd as [i Hi].
    assert (T : In TypeError (mapi (Legend.series data) data)).
    { apply mapi_In. exists i, d. split; [assumption|].
      symmetry. apply series_TypeError. eauto. }
    apply sequence_TypeError in T. congruence.
  - split; [intros _|reflexivity].
    apply sequence_TypeError, mapi_In in E as (i & d & Hi & Hs).
    symmetry in Hs. apply series_TypeError in Hs as (ys & j & Hrest).
    exists d, ys, j. split; [now apply nth_error_In with i|assumption].
Qed.

(** The render throws exactly when some series with [y] has a point that
    gets a value label and has no [y]: an index [j] below [x.length] that
    the sampling rule selects and that [y] does not reach.  Up to 20
    points every index is labelled, so when no series has more than 20
    points the render throws exactly when some [y] is shorter than its
    [x]. *)
Theorem render_throws_iff (data : list PlotData.t) :
  (Legend.render data = TypeError
   <-> exists d ys j,
         In d data /\ PlotData.y d = Some ys
         /\ (j < List.length (PlotData.x d))%nat
         /\ Legend.labelled (List.length (PlotData.x d)) j = true
         /\ (List.length ys <= j)%nat)
  /\ ((forall d, In d data -> (List.length (PlotData.x d) <= 20)%nat) ->
      (Legend.render data = TypeError
       <-> exists d ys,
             In d data /\ PlotData.y d = Some ys
             /\ (List.length ys < List.length (PlotData.x d))%nat)).
Proof.
  split; [apply render_TypeError|].
  intros Hsmall. rewrite render_TypeError. split.
  - intros (d & ys & j & Hd & Hy & Hj & _ & Hlen).
    exists d, ys. repeat split; try assumption. lia.
  - intros (d & ys & Hd & Hy & Hlen).
    exists d, ys, (List.length ys). repeat split; try assumption; [|lia].
    apply labelled_iff. left. now apply Hsmall.
Qed.

Lemma render_throws_iff_witness :
  Legend.render [PlotData.make [lit 0; lit 1] (Some [lit 0]) "short"]
  = TypeError.
Proof.
  apply (proj2 (render_throws_iff
                  [PlotData.make [lit 0; lit 1] (Some [lit 0]) "short"])).
  - intros d [<-|[]]. simpl. lia.
  - exists (PlotData.make [lit 0; lit 1] (Some [lit 0]) "short"), [lit 0].
    simpl. repeat split; auto.
Defined.

(* ================================================================== *)
(** ** Further properties of a drawn series *)
(* ================================================================== *)

(** Legend revision, a complete series: the polyline and the markers go
    through the same pixels.  The polyline has one point per sample, the
    [j]-th being [(scaleX x[j], scaleY y[j])]; the [j]-th marker is
    centred there, and its value label, if any, is anchored 8 pixels
    above it. *)
Theorem polyline_through_markers (data : list PlotData.t) (i : nat)
    (d : PlotData.t) (ys : list number) :
  PlotData.y d = Some ys ->
  (List.length (PlotData.x d) <= List.length ys)%nat ->
  exists stroke w pts_attr pts,
    Legend.series data d i = Ok (Some (g (polyline stroke w pts_attr :: pts)))
    /\ List.length pts_attr = List.length (PlotData.x d)
    /\ List.length pts = List.length (PlotData.x d)
    /\ forall j p, nth_error pts_attr j = Some p ->
         exists xv yv c rest,
           nth_error (PlotData.x d) j = Some xv
           /\ nth_error ys j = Some yv
           /\ p = (Legend.scaleX data xv, Legend.scaleY data yv)
           /\ nth_error pts j = Some (g (c :: rest))
           /\ marker_centre c = Some p
           /\ forall l, In l rest ->
                text_anchor l = Some (fst p, (snd p - lit 8)%js).
Proof.
  intros Hy Hlen.
  destruct (@series_complete data i d ys Hy Hlen) as (pts & Hseq & Hser).
  pose proof (@series_points data i d ys pts Hlen Hseq) as Hpts.
  assert (Hn : List.length pts = List.length (PlotData.x d)).
  { now rewrite (sequence_length _ Hseq), mapi_length. }
  eexists _, _, _, pts. split; [exact Hser|].
  split; [apply mapi_length|]. split; [exact Hn|].
  intros j p Hp. rewrite mapi_nth_error in Hp.
  destruct (nth_error (PlotData.x d) j) as [xv|] eqn:Ex; [|discriminate].
  injection Hp as <-.
  destruct (nth_error pts j) as [pt|] eqn:Ept.
  2:{ apply nth_error_None in Ept.
      assert (j < List.length (PlotData.x d))%nat
        by (apply nth_error_Some; congruence). lia. }
  destruct (Hpts j pt Ept) as (xv' & yv & Hx & Hyv & ->).
  assert (xv' = xv) by congruence. subst xv'.
  rewrite Hyv. simpl ToNumber.
  eexists xv, yv, _, _. split; [reflexivity|]. split; [reflexivity|].
  split; [reflexivity|]. split; [reflexivity|]. split; [reflexivity|].
  intros l Hl. destruct (Legend.labelled _ j); [|destruct Hl].
  destruct Hl as [<-|[]]. reflexivity.
Qed.

Lemma polyline_through_markers_witness :
  exists stroke w pts_attr pts,
    Legend.series [dense] dense 0
    = Ok (Some (g (polyline stroke w pts_attr :: pts)))
    /\ List.length pts_attr = 41%nat /\ List.length pts = 41%nat.
Proof.
  destruct (@polyline_through_markers [dense] 0 dense
              (map (fun k => lit (Z.of_nat k)) (seq 0 41)) eq_refl)
    as (stroke & w & pa & pts & H1 & H2 & H3 & _).
  - simpl. lia.
  - exists stroke, w, pa, pts. repeat split; assumption.
Defined.

(** Minimal revision: a [y] shorter than [x] throws nothing.  The
    polyline still has one point per [x] sample, and the points that [y]
    does not reach have a [NaN] ordinate. *)
Theorem minimal_short_y_gives_NaN (data : list PlotData.t) (i : nat)
    (d : PlotData.t) (ys : list number) :
  PlotData.y d = Some ys ->
  exists stroke w pts,
    Minimal.series data d i = Some (polyline stroke w pts)
    /\ List.length pts = List.length (PlotData.x d)
    /\ (forall j xv yv, nth_error (PlotData.x d) j = Some xv ->
          nth_error ys j = Some yv ->
          nth_error pts j
          = Some (Minimal.scaleX data xv, Minimal.scaleY data yv))
    /\ (forall j xv, nth_error (PlotData.x d) j = Some xv ->
          (List.length ys <= j)%nat ->
          nth_error pts j = Some (Minimal.scaleX data xv, NaN)).
Proof.
  intros Hy. unfold Minimal.series. rewrite Hy.
  eexists _, _, _. split; [reflexivity|]. split; [apply mapi_length|].
  split.
  - intros j xv yv Hx Hyv. now rewrite mapi_nth_error, Hx, Hyv.
  - intros j xv Hx Hlen. rewrite mapi_nth_error, Hx.
    apply nth_error_None in Hlen. rewrite Hlen. simpl.
    now rewrite (proj2 (scaleY_NaN data)).
Qed.

Lemma minimal_short_y_gives_NaN_witness :
  exists stroke w pts,
    Minimal.series [PlotData.make [lit 0; lit 1] (Some [lit 0]) "short"]
                   (PlotData.make [lit 0; lit 1] (Some [lit 0]) "short") 0
    = Some (polyline stroke w pts)
    /\ List.length pts = 2%nat.
Proof.
  destruct (@minimal_short_y_gives_NaN
              [PlotData.make [lit 0; lit 1] (Some [lit 0]) "short"] 0
              (PlotData.make [lit 0; lit 1] (Some [lit 0]) "short")
              [lit 0] eq_refl) as (stroke & w & pts & H1 & H2 & _).
  exists stroke, w, pts. split; assumption.
Defined.

(* ------------------------------------------------------------------ *)
(** *** How many labels *)
(* ------------------------------------------------------------------ *)

Lemma filter_all {A : Type} (f : A -> bool) (l : list A) :
  (forall a, In a l -> f a = true) -> filter f l = l.
Proof.
  induction l as [|a l IH]; intros H; [reflexivity|].
  simpl. rewrite (H a (or_introl eq_refl)). f_equal. apply IH.
  intros b Hb. apply H. now right.
Qed.

Lemma labelled_count_small (n : nat) :
  (n <= 20)%nat ->
  List.length (filter (Legend.labelled n) (seq 0 n)) = n.
Proof.
  intros H. rewrite filter_all; [apply length_seq|].
  intros j _. apply labelled_iff. now left.
Qed.

Lemma NoDup_multiples (s : nat) (l : list nat) :
  (0 < s)%nat -> NoDup l -> NoDup (map (fun t => s * t)%nat l).
Proof.
  intros Hs. induction 1 as [|a l Ha _ IH]; simpl; constructor; [|assumption].
  intros H. apply in_map_iff in H as (b & E & Hb).
  apply Nat.mul_cancel_l in E; [|lia]. now subst.
Qed.

Lemma labelled_count_lower (n : nat) :
  (20 < n)%nat ->
  (11 <= List.length (filter (Legend.labelled n) (seq 0 n)))%nat.
Proof.
  intros H. pose proof (ceil_div_20_bounds n) as B.
  set (s := ceil_div n 20) in *.
  replace 11%nat with (List.length (map (fun t => s * t)%nat (seq 0 11)))
    by (now rewrite length_map, length_seq).
  apply NoDup_incl_length.
  - apply NoDup_multiples; [lia|apply seq_NoDup].
  - intros j Hj. apply in_map_iff in Hj as (t & <- & Ht).
    apply in_seq in Ht. apply filter_In. split.
    + apply in_seq. nia.
    + apply labelled_iff. right. fold s.
      rewrite Nat.mul_comm. apply Nat.Div0.mod_mul.
Qed.

(** Legend revision, a complete series with [n] points: every point is
    labelled when [n <= 20]; beyond that between 11 and 20 points are,
    and the first point always is. *)
Theorem label_count_bounds (data : list PlotData.t) (i : nat)
    (d : PlotData.t) (ys : list number) :
  PlotData.y d = Some ys ->
  (List.length (PlotData.x d) <= List.length ys)%nat ->
  exists pl pts,
    Legend.series data d i = Ok (Some (g (pl :: pts)))
    /\ ((List.length (PlotData.x d) <= 20)%nat ->
        label_total pts = List.length (PlotData.x d))
    /\ ((20 < List.length (PlotData.x d))%nat ->
        (11 <= label_total pts <= 20)%nat)
    /\ (forall pt, nth_error pts 0 = Some pt ->
          List.length (labels_of pt) = 1%nat).
Proof.
  intros Hy Hlen.
  destruct (@series_complete data i d ys Hy Hlen) as (pts & Hseq & Hser).
  pose proof (@series_points data i d ys pts Hlen Hseq) as Hpts.
  assert (Hn : List.length pts = List.length (PlotData.x d)).
  { now rewrite (sequence_length _ Hseq), mapi_length. }
  assert (Ht : label_total pts
               = List.length (filter (Legend.labelled
                                        (List.length (PlotData.x d)))
                                (seq 0 (List.length (PlotData.x d))))).
  { rewrite <- Hn at 2. apply label_total_by_index.
    intros j pt Hj. destruct (Hpts j pt Hj) as (xv & yv & _ & _ & ->).
    simpl. now destruct (Legend.labelled _ j). }
  eexists _, pts. split; [exact Hser|]. rewrite Ht.
  split; [apply labelled_count_small|].
  split.
  - intros H. split; [now apply labelled_count_lower|apply labelled_count].
  - intros pt H0. destruct (Hpts 0%nat pt H0) as (xv & yv & _ & _ & ->).
    assert (L : Legend.labelled (List.length (PlotData.x d)) 0 = true).
    { apply labelled_iff.
      destruct (Nat.le_gt_cases (List.length (PlotData.x d)) 20);
        [now left|right].
      apply Nat.Div0.mod_0_l. }
    simpl. now rewrite L.
Qed.

Lemma label_count_bounds_witness :
  exists pl pts,
    Legend.series [dense] dense 0 = Ok (Some (g (pl :: pts)))
    /\ (11 <= label_total pts <= 20)%nat.
Proof.
  destruct (@label_count_bounds [dense] 0 dense
              (map (fun k => lit (Z.of_nat k)) (seq 0 41)) eq_refl)
    as (pl & pts & H1 & _ & H3 & _).
  - simpl. lia.
  - exists pl, pts. split; [exact H1|]. apply H3. simpl. lia.
Defined.

(* ------------------------------------------------------------------ *)
(** *** The layout of the drawing *)
(* ------------------------------------------------------------------ *)

Lemma series_Some_has_y (data : list PlotData.t) (d : PlotData.t) (i : nat)
    (s : option Svg) :
  Legend.series data d i = Ok s ->
  match PlotData.y d with
  | Some _ => exists grp, s = Some grp
  | None => s = None
  end.
Proof.
  unfold Legend.series. destruct (PlotData.y d) as [ys|].
  - destruct (sequence _) as [pts|]; [|discriminate].
    simpl. intros H. injection H as <-. eauto.
  - intros H. now injection H as <-.
Qed.

Lemma drawn_groups (data a : list PlotData.t) :
  forall i0 ss,
    (forall j, nth_error a j = nth_error data (i0 + j)) ->
    sequence (map_from (Legend.series data) i0 a) = Ok ss ->
    Forall2 (fun d grp => exists i, nth_error data i = Some d
                                    /\ Legend.series data d i = Ok (Some grp))
            (drawn a) (rendered ss).
Proof.
  induction a as [|d a IH]; intros i0 ss Hsuf Hseq; simpl in Hseq.
  - injection Hseq as <-. constructor.
  - destruct (Legend.series data d i0) as [s|] eqn:Hs; [|discriminate].
    simpl in Hseq.
    destruct (sequence (map_from (Legend.series data) (S i0) a)) as [rest|]
      eqn:Hrest; [|discriminate].
    simpl in Hseq. injection Hseq as <-.
    assert (Htail : Forall2
              (fun d grp => exists i, nth_error data i = Some d
                                      /\ Legend.series data d i = Ok (Some grp))
              (drawn a) (rendered rest)).
    { apply (IH (S i0)); [|assumption].
      intros j. specialize (Hsuf (S j)). simpl in Hsuf.
      now rewrite Nat.add_succ_r in Hsuf. }
    pose proof (series_Some_has_y data d i0 Hs) as Hshape.
    unfold drawn in *. simpl.
    destruct (PlotData.y d) as [ys|].
    + destruct Hshape as [grp ->]. unfold rendered, flatMap. simpl.
      constructor; [|exact Htail].
      exists i0. split; [|assumption].
      specialize (Hsuf 0%nat). simpl in Hsuf. now rewrite Nat.add_0_r in Hsuf.
    + subst s. exact Htail.
Qed.

(** Legend revision: a drawing the render returns is made of the four
    grid groups, the two axes and the two axis labels, then one group per
    series that has [y], in input order and without gaps for the series
    that have none, then one legend entry per series. *)
Theorem drawing_layout (data : list PlotData.t) (out : list Svg) :
  Legend.render data = Ok out ->
  exists groups,
    out = Legend.grid data ++ Legend.axes ++ Legend.axis_labels
          ++ groups ++ Legend.legend data
    /\ Forall2 (fun d grp => exists i, nth_error data i = Some d
                                       /\ Legend.series data d i
                                          = Ok (Some grp))
               (drawn data) groups
    /\ List.length out
       = (8 + List.length (drawn data) + List.length data)%nat.
Proof.
  intros H. apply render_inv in H as (ss & Hss & ->).
  assert (F : Forall2
            (fun d grp => exists i, nth_error data i = Some d
                                    /\ Legend.series data d i = Ok (Some grp))
            (drawn data) (rendered ss)).
  { apply (@drawn_groups data data 0%nat ss); [reflexivity|exact Hss]. }
  exists (rendered ss). split; [reflexivity|]. split; [exact F|].
  rewrite !length_app. unfold Legend.legend. rewrite mapi_length.
  rewrite <- (Forall2_length F). unfold Legend.grid. rewrite length_map.
  simpl. lia.
Qed.

Lemma drawing_layout_witness :
  List.length sample_drawing = (8 + 2 + 3)%nat.
Proof.
  destruct (@drawing_layout sample_data sample_drawing) as (gs & _ & _ & H).
  - vm_compute. reflexivity.
  - exact H.
Defined.

(* ================================================================== *)
(** ** Further properties of the plot tab *)
(* ================================================================== *)

Section PlotTab.
Import DemoForm.

Lemma set_nth_length {A : Type} (v : A) (a : list A) :
  forall k, List.length (set_nth k v a) = List.length a.
Proof.
  induction a as [|w a IH]; intros [|k]; simpl; try reflexivity.
  now rewrite IH.
Qed.

Lemma set_nth_In {A : Type} (v : A) (a : list A) :
  forall k w, In w (set_nth k v a) -> w = v \/ In w a.
Proof.
  induction a as [|u a IH]; intros [|k] w; simpl; try tauto.
  - intros [<-|H]; auto.
  - intros [<-|H]; auto. destruct (IH k w H); auto.
Qed.

Lemma settle_requests (s : State) (id k : nat) (o : Settled) :
  requests (settle id k o s) = requests s.
Proof.
  unfold settle. destruct (nth_error (calls s) id) as [c|]; [|reflexivity].
  destruct (nth_error (slots c) k) as [[st|]|]; try reflexivity.
  destruct o, (reason c); try reflexivity.
  destruct (all_fulfilled _) as [[|? [|? [|? [|? [|? ?]]]]]|]; reflexivity.
Qed.

Lemma settle_calls_length (s : State) (id k : nat) (o : Settled) :
  List.length (calls (settle id k o s)) = List.length (calls s).
Proof.
  unfold settle. destruct (nth_error (calls s) id) as [c|]; [|reflexivity].
  destruct (nth_error (slots c) k) as [[st|]|]; try reflexivity.
  destruct o, (reason c); simpl; try apply set_nth_length.
  destruct (all_fulfilled _) as [[|? [|? [|? [|? [|? ?]]]]]|]; simpl;
    apply set_nth_length.
Qed.

Lemma settle_bounds (s : State) (id k : nat) (o : Settled) :
  xMin (settle id k o s) = xMin s /\ xMax (settle id k o s) = xMax s
  /\ tab (settle id k o s) = tab s.
Proof.
  unfold settle. destruct (nth_error (calls s) id) as [c|]; [|auto].
  destruct (nth_error (slots c) k) as [[st|]|]; auto.
  destruct o, (reason c); simpl; auto.
  destruct (all_fulfilled _) as [[|? [|? [|? [|? [|? ?]]]]]|]; simpl; auto.
Qed.

Lemma grouped_fetch (s : State) :
  grouped s -> grouped (fetchAndSetPlotData s).
Proof.
  intros (bounds & Hlen & Hreq).
  exists (bounds ++ [(xMin s, xMax s)]). split.
  - simpl. rewrite !length_app, Hlen. reflexivity.
  - unfold fetchAndSetPlotData.
    cbn [requests with_network setPlotError setPlotLoading xMin xMax].
    rewrite Hreq, flat_map_app. cbn [flat_map]. now rewrite app_nil_r.
Qed.

Lemma grouped_step (s : State) (ev : Event) : grouped s -> grouped (step s ev).
Proof.
  intros G. destruct ev as [v|v|v| |id k reply]; simpl.
  - destruct (v =? tab s)%nat; [assumption|].
    destruct (v =? 1)%nat; [apply grouped_fetch|]; exact G.
  - destruct (tab s =? 1)%nat; exact G.
  - destruct (tab s =? 1)%nat; exact G.
  - destruct ((tab s =? 1)%nat && negb (execute_disabled s));
      [apply grouped_fetch|]; exact G.
  - destruct G as (bounds & Hlen & Hreq). exists bounds.
    now rewrite settle_requests, settle_calls_length.
Qed.

Lemma calls_sound_fetch (s : State) :
  calls_sound s -> calls_sound (fetchAndSetPlotData s).
Proof.
  intros S c Hc. simpl in Hc. apply in_app_or in Hc as [Hc|[<-|[]]].
  - now apply S.
  - split; reflexivity.
Qed.

Lemma calls_sound_recorded (s : State) (id k : nat) (c : PromiseAll)
    (o : Settled) (r : option string) :
  calls_sound s ->
  nth_error (calls s) id = Some c ->
  (r = None -> reason c = None /\ not_rejected (Some o) = true) ->
  calls_sound
    (with_network (requests s)
       (set_nth id {| slots := set_nth k (Some o) (slots c); reason := r |}
                (calls s)) s).
Proof.
  intros S Hc Hr c' Hc'. simpl in Hc'.
  apply set_nth_In in Hc' as [->|Hc']; [|now apply S].
  destruct (S c (nth_error_In _ _ Hc)) as [Hlen Hrej]. simpl. split.
  - now rewrite set_nth_length.
  - intros E. destruct (Hr E) as [Hrc Ho]. specialize (Hrej Hrc).
    apply forallb_forall. intros x Hx.
    apply set_nth_In in Hx as [->|Hx]; [assumption|].
    rewrite forallb_forall in Hrej. now apply Hrej.
Qed.

Lemma calls_sound_settle (s : State) (id k : nat) (o : Settled) :
  calls_sound s -> calls_sound (settle id k o s).
Proof.
  intros S. unfold settle.
  destruct (nth_error (calls s) id) as [c|] eqn:Hc; [|assumption].
  destruct (nth_error (slots c) k) as [[st|]|] eqn:Hk; try assumption.
  destruct o as [r|m], (reason c) as [rsn|] eqn:Hr.
  - apply (@calls_sound_recorded s id k c (Fulfilled r) (Some rsn) S Hc). discriminate.
  - assert (R : calls_sound
                  (with_network (requests s)
                     (set_nth id
                        {| slots := set_nth k (Some (Fulfilled r)) (slots c);
                           reason := None |} (calls s)) s)).
    { apply (@calls_sound_recorded s id k c (Fulfilled r) None S Hc). auto. }
    destruct (all_fulfilled _) as [[|? [|? [|? [|? [|? ?]]]]]|]; exact R.
  - apply (@calls_sound_recorded s id k c (Rejected m) (Some rsn) S Hc). discriminate.
  - apply (@calls_sound_recorded s id k c (Rejected m) (Some m) S Hc). discriminate.
Qed.

Lemma calls_sound_step (s : State) (ev : Event) :
  calls_sound s -> calls_sound (step s ev).
Proof.
  intros S. destruct ev as [v|v|v| |id k reply]; simpl.
  - destruct (v =? tab s)%nat; [assumption|].
    destruct (v =? 1)%nat; [apply calls_sound_fetch|]; exact S.
  - destruct (tab s =? 1)%nat; exact S.
  - destruct (tab s =? 1)%nat; exact S.
  - destruct ((tab s =? 1)%nat && negb (execute_disabled s));
      [apply calls_sound_fetch|]; exact S.
  - now apply calls_sound_settle.
Qed.

Lemma run_invariant (P : State -> Prop) :
  (forall s ev, P s -> P (step s ev)) ->
  forall evs s, P s -> P (run s evs).
Proof.
  intros Hstep evs. induction evs as [|ev evs IH]; intros s H; [exact H|].
  simpl. apply IH. now apply Hstep.
Qed.

End PlotTab.

(** Whatever happens in the plot tab, the fetches made so far are one
    group per call of [fetchAndSetPlotData]: four requests to
    [/linspace], [/exp_cos], [/logistic] and [/multi_bump], in this order
    and with the same bounds; and each call joins exactly four promises. *)
Theorem requests_come_in_fours (evs : list DemoForm.Event) :
  let s := DemoForm.run DemoForm.init evs in
  (exists bounds,
     List.length bounds = List.length (DemoForm.calls s)
     /\ DemoForm.requests s = flat_map requests_of_call bounds)
  /\ List.length (DemoForm.requests s) = (4 * List.length (DemoForm.calls s))%nat
  /\ forall c, In c (DemoForm.calls s) ->
       List.length (DemoForm.slots c) = 4%nat.
Proof.
  intros s.
  assert (G : grouped s).
  { apply run_invariant; [apply grouped_step|]. exists []. split; reflexivity. }
  assert (S : calls_sound s).
  { apply run_invariant; [apply calls_sound_step|]. intros c []. }
  split; [exact G|]. split.
  - destruct G as (bounds & Hlen & ->). rewrite <- Hlen. clear.
    induction bounds as [|b bounds IH]; [reflexivity|].
    cbn [flat_map]. rewrite length_app, IH.
    unfold requests_of_call. rewrite length_map. simpl. lia.
  - intros c Hc. now apply S.
Qed.

Section PlotTabGuard.
Import DemoForm.

Lemma distinct_bounds_step (s : State) (ev : Event) :
  is_tab_switch ev = false -> distinct_bounds s -> distinct_bounds (step s ev).
Proof.
  intros Hev D. destruct ev as [v|v|v| |id k reply]; simpl;
    try discriminate.
  - destruct (tab s =? 1)%nat; exact D.
  - destruct (tab s =? 1)%nat; exact D.
  - destruct ((tab s =? 1)%nat && negb (execute_disabled s)) eqn:E;
      [|exact D].
    apply andb_prop in E as [_ E]. apply negb_true_iff in E.
    unfold execute_disabled in E. apply orb_false_elim in E as [_ E].
    intros r Hr. simpl in Hr. apply in_app_or in Hr as [Hr|Hr];
      [now apply D|].
    repeat (destruct Hr as [<-|Hr]; [exact E|]). destruct Hr.
  - intros r Hr. rewrite settle_requests in Hr. now apply D.
Qed.

Lemma distinct_bounds_run (evs : list Event) :
  forallb (fun ev => negb (is_tab_switch ev)) evs = true ->
  forall s, distinct_bounds s -> distinct_bounds (run s evs).
Proof.
  induction evs as [|ev evs IH]; intros H s D; [exact D|].
  simpl in H. apply andb_prop in H as [Hev H]. apply negb_true_iff in Hev.
  simpl. apply IH; [assumption|]. now apply distinct_bounds_step.
Qed.

End PlotTabGuard.

(** As long as tab 2 is not left and reopened, the guard of the button is
    effective: after the first opening of the tab, whatever is typed,
    clicked or answered, no request is made with [x_min === x_max]. *)
Theorem guard_holds_until_tab_is_reopened (evs : list DemoForm.Event) :
  forallb (fun ev => negb (is_tab_switch ev)) evs = true ->
  never_equal_bounds (DemoForm.SelectTab 1 :: evs).
Proof.
  intros H. unfold never_equal_bounds.
  change (DemoForm.run DemoForm.init (DemoForm.SelectTab 1 :: evs))
    with (DemoForm.run (DemoForm.step DemoForm.init (DemoForm.SelectTab 1))
            evs).
  apply distinct_bounds_run; [assumption|].
  intros r Hr. simpl in Hr.
  repeat (destruct Hr as [<-|Hr]; [reflexivity|]). destruct Hr.
Qed.

Lemma guard_holds_until_tab_is_reopened_witness :
  forallb (fun ev => negb (is_tab_switch ev)) typing_and_clicking = true
  /\ never_equal_bounds (DemoForm.SelectTab 1 :: typing_and_clicking).
Proof.
  split; [reflexivity|].
  apply (guard_holds_until_tab_is_reopened typing_and_clicking). reflexivity.
Defined.

(** An answer with a status outside 200..299 is reported by its status,
    whatever its body: the body is not parsed, the error shown is
    [API error: <status>] and the plot data stays. *)
Theorem http_failure_is_reported (s : DemoForm.State) (id k status : nat)
    (body : DemoForm.Body) (c : DemoForm.PromiseAll) :
  nth_error (DemoForm.calls s) id = Some c ->
  DemoForm.reason c = None ->
  nth_error (DemoForm.slots c) k = Some None ->
  (status < 200 \/ 299 < status)%nat ->
  let s' := DemoForm.step s (DemoForm.Settle id k (DemoForm.Http status body)) in
  DemoForm.plotError s'
  = Some ("API error: " ++ NilZero.string_of_uint (Nat.to_uint status))%string
  /\ DemoForm.plotData s' = DemoForm.plotData s
  /\ DemoForm.plotLoading s' = false.
Proof.
  intros Hc Hr Hk Hs. simpl.
  assert (E : DemoForm.ok status = false).
  { unfold DemoForm.ok. apply andb_false_iff.
    destruct Hs; [left; apply Nat.leb_gt|right; apply Nat.leb_gt]; lia. }
  rewrite E.
  destruct (@settle_first_rejection s id k c
              ("API error: " ++ NilZero.string_of_uint (Nat.to_uint status))%string
              Hc Hr Hk) as (H1 & H2 & H3).
  repeat split; assumption.
Qed.

Lemma http_failure_is_reported_witness :
  let s := DemoForm.run DemoForm.init second_call_running in
  DemoForm.plotError
    (DemoForm.step s (DemoForm.Settle 1 3
                        (DemoForm.Http 404 (DemoForm.Json lin_body))))
  = Some "API error: 404".
Proof.
  intros s.
  destruct (@http_failure_is_reported s 1 3 404 (DemoForm.Json lin_body)
              {| DemoForm.slots := [ Some (DemoForm.Fulfilled lin_body);
                                     None; None; None ];
                 DemoForm.reason := None |}
              eq_refl eq_refl eq_refl) as (H & _).
  - right. lia.
  - exact H.
Defined.

Section Spinner.
Import DemoForm.

Lemma slots_pending_or_complete (l : list (option Settled)) :
  List.length l = 4%nat ->
  forallb not_rejected l = true ->
  In None l \/ exists a b c d, all_fulfilled l = Some [a; b; c; d].
Proof.
  destruct l as [|a [|b [|c [|d [|e l]]]]]; try discriminate. intros _.
  destruct a as [[a|?]|], b as [[b|?]|], c as [[c|?]|], d as [[d|?]|];
    simpl; try discriminate; intros _;
    try (left; tauto).
  right. eauto.
Qed.

Lemma loading_sound_fetch (s : State) : loading_sound (fetchAndSetPlotData s).
Proof.
  intros _. unfold latest. simpl. rewrite length_app. simpl.
  rewrite Nat.add_1_r. simpl. rewrite nth_error_app2 by lia.
  rewrite Nat.sub_diag. simpl. eexists. split; [reflexivity|].
  split; [reflexivity|]. simpl. auto.
Qed.

Lemma loading_sound_recorded (s : State) (id : nat) (c c' : PromiseAll) :
  nth_error (calls s) id = Some c ->
  (undecided c -> undecided c') ->
  loading_sound s ->
  loading_sound (with_network (requests s) (set_nth id c' (calls s)) s).
Proof.
  intros Hc Hu L Hl. destruct (L Hl) as (cl & Hcl & Ucl).
  unfold latest in *. simpl. rewrite set_nth_length.
  destruct (Nat.eq_dec id (pred (List.length (calls s)))) as [E|E].
  - rewrite <- E in *. rewrite Hc in Hcl. injection Hcl as <-.
    exists c'. split; [now apply set_nth_same with c|auto].
  - rewrite set_nth_other by assumption. eauto.
Qed.

Lemma loading_sound_settle (s : State) (id k : nat) (o : Settled) :
  calls_sound s -> loading_sound s -> loading_sound (settle id k o s).
Proof.
  intros S L. unfold settle.
  destruct (nth_error (calls s) id) as [c|] eqn:Hc; [|assumption].
  destruct (nth_error (slots c) k) as [[st|]|] eqn:Hk; try assumption.
  destruct (S c (nth_error_In _ _ Hc)) as [Hlen Hrej].
  destruct o as [r|m], (reason c) as [rsn|] eqn:Hr;
    try (apply loading_sound_recorded with c; [assumption| |assumption];
         intros [U _]; congruence);
    try (intros Hl; discriminate Hl).
  assert (R : loading_sound
                (with_network (requests s)
                   (set_nth id
                      {| slots := set_nth k (Some (Fulfilled r)) (slots c);
                         reason := None |} (calls s)) s)
              \/ exists a b c0 d,
                   all_fulfilled (set_nth k (Some (Fulfilled r)) (slots c))
                   = Some [a; b; c0; d]).
  { destruct (slots_pending_or_complete
                (set_nth k (Some (Fulfilled r)) (slots c))) as [P|P].
    - now rewrite set_nth_length.
    - apply forallb_forall. intros x Hx.
      apply set_nth_In in Hx as [->|Hx]; [reflexivity|].
      specialize (Hrej eq_refl). rewrite forallb_forall in Hrej. auto.
    - left. apply loading_sound_recorded with c; [assumption| |assumption].
      intros _. split; [reflexivity|exact P].
    - right. exact P. }
  destruct R as [R|(a & b & c0 & d & ->)]; [|intros Hl; discriminate Hl].
  destruct (all_fulfilled _) as [[|? [|? [|? [|? [|? ?]]]]]|]; try exact R.
  intros Hl; discriminate Hl.
Qed.

Lemma loading_sound_step (s : State) (ev : Event) :
  calls_sound s -> loading_sound s -> loading_sound (step s ev).
Proof.
  intros S L. destruct ev as [v|v|v| |id k reply]; simpl.
  - destruct (v =? tab s)%nat; [assumption|].
    destruct (v =? 1)%nat; [apply loading_sound_fetch|exact L].
  - destruct (tab s =? 1)%nat; exact L.
  - destruct (tab s =? 1)%nat; exact L.
  - destruct ((tab s =? 1)%nat && negb (execute_disabled s));
      [apply loading_sound_fetch|exact L].
  - now apply loading_sound_settle.
Qed.

End Spinner.

(** Whatever happens in the plot tab, while the loading flag is up (the
    spinner shows, the button is disabled) the call made last is
    undecided: it has not rejected and one of its fetches is pending. *)
Theorem spinner_means_pending (evs : list DemoForm.Event) :
  let s := DemoForm.run DemoForm.init evs in
  DemoForm.plotLoading s = true ->
  exists c,
    latest s = Some c /\ DemoForm.reason c = None
    /\ In None (DemoForm.slots c).
Proof.
  intros s.
  assert (H : calls_sound s /\ loading_sound s).
  { apply (run_invariant (fun s => calls_sound s /\ loading_sound s)).
    - intros s0 ev [S L]. split;
        [now apply calls_sound_step|now apply loading_sound_step].
    - split; [intros c []|intros Hl; discriminate Hl]. }
  destruct H as [_ L]. intros Hl. destruct (L Hl) as (c & Hc & Hr & Hp).
  eauto.
Qed.

Lemma spinner_means_pending_witness :
  exists c,
    latest (DemoForm.run DemoForm.init second_call_running) = Some c
    /\ DemoForm.reason c = None /\ In None (DemoForm.slots c).
Proof.
  apply (spinner_means_pending second_call_running). reflexivity.
Defined.

Section ArrivalOrder.
Import DemoForm.

Lemma settle_fulfilled_pending (s : State) (id k : nat) (r : Response.t)
    (c : PromiseAll) :
  nth_error (calls s) id = Some c ->
  reason c = None ->
  nth_error (slots c) k = Some None ->
  all_fulfilled (set_nth k (Some (Fulfilled r)) (slots c)) = None ->
  settle id k (Fulfilled r) s
  = with_network (requests s)
      (set_nth id {| slots := set_nth k (Some (Fulfilled r)) (slots c);
                     reason := None |} (calls s)) s.
Proof.
  intros Hc Hr Hk Hall. unfold settle. now rewrite Hc, Hk, Hr, Hall.
Qed.

Lemma settle_fulfilled_last (s : State) (id k : nat) (r : Response.t)
    (c : PromiseAll) (lin exp logi multi : Response.t) :
  nth_error (calls s) id = Some c ->
  reason c = None ->
  nth_error (slots c) k = Some None ->
  all_fulfilled (set_nth k (Some (Fulfilled r)) (slots c))
  = Some [lin; exp; logi; multi] ->
  settle id k (Fulfilled r) s
  = setPlotLoading false
      (setPlotData (Some (compose lin exp logi multi))
         (with_network (requests s)
            (set_nth id {| slots := set_nth k (Some (Fulfilled r)) (slots c);
                           reason := None |} (calls s)) s)).
Proof.
  intros Hc Hr Hk Hall. unfold settle. now rewrite Hc, Hk, Hr, Hall.
Qed.

Lemma recorded_call (s : State) (id : nat) (c c' : PromiseAll) :
  nth_error (calls s) id = Some c ->
  nth_error (calls (with_network (requests s) (set_nth id c' (calls s)) s)) id
  = Some c'.
Proof. intros Hc. simpl. now apply set_nth_same with c. Qed.

End ArrivalOrder.

Section ArrivalOrderRun.
Import DemoForm.
Variable id : nat.
Variable f : nat -> Response.t.

Lemma fulfil_step (s : State) (c : PromiseAll) (k : nat) :
  nth_error (calls s) id = Some c ->
  reason c = None ->
  nth_error (slots c) k = Some None ->
  let s' := settle id k (Fulfilled (f k)) s in
  let c' := {| slots := set_nth k (Some (Fulfilled (f k))) (slots c);
               reason := None |} in
  nth_error (calls s') id = Some c'
  /\ shown_if_complete s' c'
  /\ plotError s' = plotError s.
Proof.
  intros Hc Hr Hk. cbv zeta.
  destruct (all_fulfilled (set_nth k (Some (Fulfilled (f k))) (slots c)))
    as [rs|] eqn:Hall.
  - destruct rs as [|a [|b [|c0 [|d [|e rs]]]]];
      try (unfold settle; rewrite Hc, Hk, Hr, Hall; simpl;
           split; [now apply set_nth_same with c|];
           split; [|reflexivity];
           intros ? ? ? ? E; simpl in E; rewrite Hall in E; discriminate E).
    rewrite (@settle_fulfilled_last s id k (f k) c a b c0 d Hc Hr Hk Hall). simpl.
    split; [now apply set_nth_same with c|]. split; [|reflexivity].
    intros lin exp logi multi E. simpl in E. rewrite Hall in E.
    injection E as <- <- <- <-. auto.
  - rewrite (@settle_fulfilled_pending s id k (f k) c Hc Hr Hk Hall). simpl.
    split; [now apply set_nth_same with c|]. split; [|reflexivity].
    intros lin exp logi multi E. simpl in E. rewrite Hall in E. discriminate E.
Qed.

Lemma set_nth_at {A : Type} (v : A) (a : list A) :
  forall k, (k < List.length a)%nat -> nth_error (set_nth k v a) k = Some v.
Proof.
  intros k H. destruct (nth_error a k) as [w|] eqn:E.
  - now apply set_nth_same with w.
  - apply nth_error_None in E. lia.
Qed.

Lemma fulfil_run (ks : list nat) :
  forall (s : State) (c : PromiseAll),
    nth_error (calls s) id = Some c ->
    reason c = None ->
    shown_if_complete s c ->
    NoDup ks ->
    (forall k, In k ks -> nth_error (slots c) k = Some None) ->
    let s' := run s (map (fun k => Settle id k (Http 200 (Json (f k)))) ks) in
    exists c',
      nth_error (calls s') id = Some c'
      /\ shown_if_complete s' c'
      /\ plotError s' = plotError s
      /\ List.length (slots c') = List.length (slots c)
      /\ (forall k, In k ks ->
            nth_error (slots c') k = Some (Some (Fulfilled (f k))))
      /\ (forall k, ~ In k ks -> nth_error (slots c') k = nth_error (slots c) k).
Proof.
  induction ks as [|k ks IH]; intros s c Hc Hr J Hnd Hp; cbv zeta.
  - exists c. simpl. split; [assumption|]. split; [assumption|].
    split; [reflexivity|]. split; [reflexivity|].
    split; [intros k []|reflexivity].
  - apply NoDup_cons_iff in Hnd as [Hk Hnd].
    assert (Hpk : nth_error (slots c) k = Some None) by (apply Hp; now left).
    destruct (@fulfil_step s c k Hc Hr Hpk) as (Hc1 & J1 & E1).
    cbn [map run fold_left step fetchArrayAPI]. change (ok 200) with true.
    cbv iota. fold (run (settle id k (Fulfilled (f k)) s)
                       (map (fun k => Settle id k (Http 200 (Json (f k)))) ks)).
    destruct (IH _ _ Hc1 eq_refl J1 Hnd) as (c' & Hc' & J' & E' & L' & Hin & Hout).
    { intros j Hj. simpl. rewrite set_nth_other; [apply Hp; now right|].
      intros ->. contradiction. }
    exists c'. split; [assumption|]. split; [assumption|].
    split; [congruence|]. simpl in L'. rewrite set_nth_length in L'.
    split; [assumption|]. split.
    + intros j [<-|Hj]; [|now apply Hin].
      rewrite (Hout k Hk). simpl. apply set_nth_at.
      apply nth_error_Some. congruence.
    + intros j Hj. rewrite Hout by (intros H; apply Hj; now right).
      simpl. apply set_nth_other. intros ->. apply Hj. now left.
Qed.

End ArrivalOrderRun.

(** The four answers of a call may arrive in any order: once all four
    have been fulfilled the chart is composed by position in the
    [Promise.all] array (linspace, exp_cos, logistic, multi_bump), the
    loading flag is cleared and the error is left as it was. *)
Theorem arrival_order_is_irrelevant (s : DemoForm.State) (id : nat)
    (ks : list nat) (r0 r1 r2 r3 : Response.t) :
  nth_error (DemoForm.calls s) id
  = Some {| DemoForm.slots := [None; None; None; None];
            DemoForm.reason := None |} ->
  List.length ks = 4%nat ->
  NoDup ks ->
  (forall k, In k ks -> (k < 4)%nat) ->
  let s' := DemoForm.run s
              (map (fun k => DemoForm.Settle id k
                               (DemoForm.Http 200
                                  (DemoForm.Json (nth k [r0; r1; r2; r3] r0))))
                   ks) in
  DemoForm.plotData s' = Some (DemoForm.compose r0 r1 r2 r3)
  /\ DemoForm.plotLoading s' = false
  /\ DemoForm.plotError s' = DemoForm.plotError s.
Proof.
  intros Hc Hlen Hnd Hlt.
  destruct (@fulfil_run id (fun k => nth k [r0; r1; r2; r3] r0) ks s _
              Hc eq_refl) as (c' & Hc' & J & E & L & Hin & _).
  { intros ? ? ? ? H. discriminate H. }
  { assumption. }
  { intros k Hk. specialize (Hlt k Hk). simpl.
    destruct k as [|[|[|[|k]]]]; try reflexivity. lia. }
  cbv zeta. split; [|split; [|exact E]].
  all: assert (All : incl (seq 0 4) ks)
    by (apply NoDup_length_incl;
        [assumption|rewrite length_seq; lia|
         intros k Hk; apply in_seq; specialize (Hlt k Hk); lia]).
  all: assert (S : DemoForm.slots c'
                   = [ Some (DemoForm.Fulfilled r0); Some (DemoForm.Fulfilled r1);
                       Some (DemoForm.Fulfilled r2); Some (DemoForm.Fulfilled r3) ])
    by (pose proof (Hin 0%nat (All 0%nat ltac:(simpl; tauto))) as H0;
        pose proof (Hin 1%nat (All 1%nat ltac:(simpl; tauto))) as H1;
        pose proof (Hin 2%nat (All 2%nat ltac:(simpl; tauto))) as H2;
        pose proof (Hin 3%nat (All 3%nat ltac:(simpl; tauto))) as H3;
        destruct (DemoForm.slots c') as [|a [|b [|c [|d [|e l]]]]];
        try discriminate; simpl in *; congruence).
  all: destruct (J r0 r1 r2 r3) as [H1 H2]; [now rewrite S|assumption].
Qed.

Lemma arrival_order_is_irrelevant_witness :
  let s := DemoForm.step DemoForm.init (DemoForm.SelectTab 1) in
  DemoForm.plotData
    (DemoForm.run s
       (map (fun k => DemoForm.Settle 0 k
                        (DemoForm.Http 200
                           (DemoForm.Json
                              (nth k [lin_body; curve_body; curve_body;
                                      curve_body] lin_body))))
            [2; 0; 3; 1]%nat))
  = Some (DemoForm.compose lin_body curve_body curve_body curve_body).
Proof.
  intros s.
  destruct (@arrival_order_is_irrelevant s 0 [2; 0; 3; 1]%nat
              lin_body curve_body curve_body curve_body eq_refl eq_refl)
    as (H & _).
  - repeat constructor; simpl; intuition discriminate.
  - intros k Hk. simpl in Hk. intuition (subst; lia).
  - exact H.
Defined.

(* ================================================================== *)
(** ** Status colours and the fetch log *)
(* ================================================================== *)

Lemma lit_compare (a b : Z) :
  (Q2Qc (inject_Z a) ?= Q2Qc (inject_Z b))%Qc = (a ?= b)%Z.
Proof.
  unfold Qccompare, Q2Qc. cbn [this]. rewrite !Qred_correct.
  unfold Qcompare, inject_Z. simpl. now rewrite !Z.mul_1_r.
Qed.

Lemma ltb_lit (a b : Z) : ltb (lit a) (lit b) = (a <? b)%Z.
Proof.
  unfold ltb, lit. rewrite lit_compare. unfold Z.ltb.
  now destruct (a ?= b)%Z.
Qed.

Lemma eqb_lit (a b : Z) : eqb (lit a) (lit b) = (a =? b)%Z.
Proof.
  unfold eqb, lit, Qc_eq_bool.
  destruct (Qc_eq_dec (Q2Qc (inject_Z a)) (Q2Qc (inject_Z b))) as [E|E].
  - apply Qceq_alt in E. rewrite lit_compare in E.
    apply Z.compare_eq in E. subst. now rewrite Z.eqb_refl.
  - destruct (Z.eqb_spec a b) as [->|N]; [congruence|reflexivity].
Qed.

Lemma geb_lit (a b : Z) : geb (lit a) (lit b) = (b <=? a)%Z.
Proof.
  unfold geb. rewrite ltb_lit, eqb_lit.
  destruct (Z.ltb_spec b a), (Z.eqb_spec a b), (Z.leb_spec b a);
    try reflexivity; lia.
Qed.

(** The colour of a status agrees with [res.ok]: an integer status is
    shown as [success] exactly when [fetch] reports it as ok (200..299),
    as [warning] exactly for 400..499, and as [error] otherwise, so for
    1xx, 3xx and 5xx; a status that is no finite number is an [error]. *)
Theorem status_color_agrees_with_ok (n : nat) :
  (HttpLog.getStatusColor (lit (Z.of_nat n)) = HttpLog.success
   <-> DemoForm.ok n = true)
  /\ (HttpLog.getStatusColor (lit (Z.of_nat n)) = HttpLog.warning
      <-> (400 <= n <= 499)%nat)
  /\ (HttpLog.getStatusColor (lit (Z.of_nat n)) = HttpLog.error
      <-> (n < 200 \/ 300 <= n < 400 \/ 500 <= n)%nat)
  /\ HttpLog.getStatusColor NaN = HttpLog.error
  /\ HttpLog.getStatusColor PosInf = HttpLog.error
  /\ HttpLog.getStatusColor NegInf = HttpLog.error.
Proof.
  unfold HttpLog.getStatusColor, DemoForm.ok.
  rewrite !geb_lit, !ltb_lit.
  destruct (Z.leb_spec 200 (Z.of_nat n)), (Z.ltb_spec (Z.of_nat n) 300),
    (Z.leb_spec 400 (Z.of_nat n)), (Z.ltb_spec (Z.of_nat n) 500),
    (Nat.leb_spec 200 n), (Nat.leb_spec n 299); simpl;
    repeat split; intros; try discriminate; try reflexivity; try lia.
Qed.

Section FetchLog.
Import HttpLog UseFetch.


(** [execute] reads the body before it looks at the status, [postValue]
    and [fetchArrayAPI] the other way round.  For an answer whose status
    is not ok and whose body is not JSON, [execute] rejects with the
    parser's message and never hands the response to the callback, while
    [fetchArrayAPI] rejects with [API error: <status>]. *)
Theorem execute_parses_before_status (env : Env) (url : string)
    (options : FetchOptions) (status : nat) (statusText message : string) :
  DemoForm.ok status = false ->
  execute true env url options (Http status statusText (Malformed message))
  = ([createLogEntry (generated_id env) (createRequestLog env url options)],
     Rejected message)
  /\ DemoForm.fetchArrayAPI (DemoForm.Http status (DemoForm.Malformed message))
     = DemoForm.Rejected
         ("API error: " ++ NilZero.string_of_uint (Nat.to_uint status))%string.
Proof.
  intros H. split; [reflexivity|]. simpl. now rewrite H.
Qed.

(** The body is sent only when it is truthy: no body, [null], [false],
    [0], [NaN] and the empty string are logged as given and sent as no
    body at all; any other body is sent as it is. *)
Theorem falsy_body_is_not_sent (env : Env) (url : string)
    (options : FetchOptions) :
  body (createRequestLog env url options) = opt_body options
  /\ (sent_body (sent url options) = None
      <-> opt_body options = None
          \/ opt_body options = Some JNull
          \/ opt_body options = Some (JBool false)
          \/ opt_body options = Some (JNumber (Fin 0%Qc))
          \/ opt_body options = Some (JNumber NaN)
          \/ opt_body options = Some (JString ""))
  /\ (sent_body (sent url options) <> None ->
      sent_body (sent url options) = opt_body options).
Proof.
  split; [reflexivity|]. unfold sent. cbn [sent_body].
  destruct (opt_body options) as [[|[|]|[q| | |]|[|c s]|items|members]|];
    cbn [truthy]; try (split; [split; [discriminate|]|reflexivity];
                       intros H; decompose [or] H; discriminate).
  - split; [tauto|congruence].
  - split; [tauto|congruence].
  - destruct (Qc_eq_bool q 0) eqn:E; cbn [negb].
    + apply Qc_eq_bool_correct in E. subst. split; [tauto|congruence].
    + split; [|reflexivity]. split; [discriminate|].
      intros H. decompose [or] H; try discriminate.
      match goal with H : Some _ = Some _ |- _ => injection H as -> end.
      unfold Qc_eq_bool in E. destruct (Qc_eq_dec 0 0); congruence.
  - split; [tauto|congruence].
  - split; [tauto|congruence].
  - split; [tauto|congruence].
Qed.

End FetchLog.

Lemma execute_parses_before_status_witness :
  DemoForm.fetchArrayAPI
    (DemoForm.Http 502 (DemoForm.Malformed "Unexpected token <"))
  = DemoForm.Rejected "API error: 502".
Proof.
  apply (@execute_parses_before_status
           {| UseFetch.generated_id := "1-0.5"; UseFetch.now_request := lit 1;
              UseFetch.now_start := lit 1; UseFetch.now_end := lit 9;
              UseFetch.now_response := lit 9 |}
           "/double"
           {| UseFetch.opt_method := "POST"; UseFetch.opt_headers := None;
              UseFetch.opt_body := None |}
           502 "Bad Gateway" "Unexpected token <").
  reflexivity.
Defined.

(* ================================================================== *)
(** ** Strings and number parsers *)
(* ================================================================== *)

Section Strings.
Import JSString.

Lemma takeWhile_dropWhile {A : Type} (p : A -> bool) (s : list A) :
  takeWhile p s ++ dropWhile p s = s.
Proof.
  induction s as [|c r IH]; [reflexivity|].
  simpl. destruct (p c); [simpl; now rewrite IH|reflexivity].
Qed.

Lemma takeWhile_all {A : Type} (p : A -> bool) (s : list A) :
  forallb p s = true -> takeWhile p s = s /\ dropWhile p s = [].
Proof.
  induction s as [|c r IH]; [auto|].
  simpl. intros H. apply andb_prop in H as [Hc Hr]. rewrite Hc.
  destruct (IH Hr) as [-> ->]. auto.
Qed.

Lemma dropWhile_head {A : Type} (p : A -> bool) (c : A) (r : list A) :
  p c = false -> dropWhile p (c :: r) = c :: r.
Proof. intros H. simpl. now rewrite H. Qed.

Lemma digit_not_space (c : N) : isDigit c = true -> isWhiteSpace c = false.
Proof.
  unfold isDigit, isWhiteSpace. intros H.
  apply andb_prop in H as [H1 H2].
  apply N.leb_le in H1. apply N.leb_le in H2.
  repeat match goal with
         | |- context [(?a <=? c)%N] =>
             destruct (N.leb_spec a c); try lia
         | |- context [(c <=? ?a)%N] =>
             destruct (N.leb_spec c a); try lia
         | |- context [(c =? ?a)%N] =>
             destruct (N.eqb_spec c a); try lia
         end; reflexivity.
Qed.

Lemma digit_not_sign (c : N) : isDigit c = true -> c <> 45%N /\ c <> 43%N /\ c <> 46%N.
Proof.
  unfold isDigit. intros H. apply andb_prop in H as [H1 H2].
  apply N.leb_le in H1. apply N.leb_le in H2. lia.
Qed.

Lemma signed_digit (c : N) (r : t) :
  isDigit c = true -> signed (c :: r) = (1%Z, c :: r).
Proof.
  intros H. destruct (digit_not_sign c H) as (N1 & N2 & _).
  unfold signed.
  destruct c as [|p]; [reflexivity|].
  do 6 (destruct p as [p|p|]; try reflexivity); exfalso; auto.
Qed.

Lemma isIntegerLiteral_cases (v : t) :
  isIntegerLiteral v = true ->
  (exists digits, v = 45%N :: digits /\ digits <> []
                  /\ forallb isDigit digits = true)
  \/ (exists c r, v = c :: r /\ c <> 45%N /\ forallb isDigit v = true).
Proof.
  destruct v as [|c r]; [discriminate|].
  destruct (N.eqb_spec c 45) as [->|Hc].
  - unfold isIntegerLiteral. destruct r as [|d r]; [discriminate|].
    intros H. left. exists (d :: r). repeat split; [discriminate|exact H].
  - assert (E : isIntegerLiteral (c :: r) = forallb isDigit (c :: r)).
    { unfold isIntegerLiteral. destruct c as [|p]; [reflexivity|].
      do 6 (destruct p as [p|p|]; try reflexivity). congruence. }
    rewrite E. intros H. right. exists c, r. auto.
Qed.

(** A string the pattern [^-?\d+$] accepts is read back in full by
    [parseInt]: the result is the integer its digits denote, negated
    after a minus sign, and never [NaN]. *)
Lemma parseInt_of_literal (v : t) :
  isIntegerLiteral v = true ->
  parseInt v
  = lit (match v with
         | 45%N :: digits => - digitsValue 10 digits
         | _ => digitsValue 10 v
         end).
Proof.
  intros H. unfold parseInt, trimStart.
  destruct (isIntegerLiteral_cases v H)
    as [(ds & -> & Hne & Hd)|(c & r & -> & Hc & Hd)].
  - rewrite dropWhile_head by reflexivity. cbn [signed].
    destruct (takeWhile_all isDigit ds Hd) as [-> _].
    destruct ds as [|d ds]; [congruence|].
    now rewrite Z.mul_comm, <- Z.opp_eq_mul_m1.
  - pose proof Hd as Hd'. simpl in Hd'. apply andb_prop in Hd' as [Hdc _].
    rewrite dropWhile_head by (now apply digit_not_space).
    rewrite signed_digit by assumption.
    destruct (takeWhile_all isDigit (c :: r) Hd) as [-> _].
    rewrite Z.mul_1_l. f_equal.
    destruct c as [|p]; [reflexivity|].
    do 6 (destruct p as [p|p|]; try reflexivity). congruence.
Qed.

End Strings.

Section Numerals.
Import JSString.

Lemma numeral_digits (d : Decimal.uint) :
  forallb isDigit (of_ascii (NilEmpty.string_of_uint d)) = true.
Proof. induction d; simpl; auto. Qed.

Lemma digits_fold_acc (d : Decimal.uint) :
  forall acc : positive,
    fold_left (fun acc c =>
                 match digitValue 10 c with
                 | Some v => (Z.of_N 10 * acc + v)%Z
                 | None => acc
                 end)
              (of_ascii (NilEmpty.string_of_uint d)) (Z.pos acc)
    = Z.pos (Pos.of_uint_acc d acc).
Proof.
  induction d; intros acc; cbn [NilEmpty.string_of_uint of_ascii
    list_ascii_of_string map fold_left Pos.of_uint_acc];
    try reflexivity;
    match goal with
    | |- context [digitValue 10 ?c] =>
        let v := eval vm_compute in (digitValue 10 c) in
        change (digitValue 10 c) with v
    end; cbv iota;
    match goal with
    | |- fold_left _ _ ?a = Z.pos (Pos.of_uint_acc _ ?b) =>
        replace a with (Z.pos b) by lia
    end; apply IHd.
Qed.

Lemma digitsValue_numeral (d : Decimal.uint) :
  digitsValue 10 (of_ascii (NilEmpty.string_of_uint d)) = Z.of_uint d.
Proof.
  unfold digitsValue, Z.of_uint.
  induction d; cbn [NilEmpty.string_of_uint of_ascii list_ascii_of_string
                    map fold_left Pos.of_uint];
    try reflexivity;
    match goal with
    | |- context [digitValue 10 ?c] =>
        let v := eval vm_compute in (digitValue 10 c) in
        change (digitValue 10 c) with v
    end; cbv iota;
    [ exact IHd | .. ];
    match goal with
    | |- fold_left _ _ ?a = Z.of_N (N.pos (Pos.of_uint_acc _ ?b)) =>
        change a with (Z.pos b)
    end; apply digits_fold_acc.
Qed.

End Numerals.

(* ================================================================== *)
(** ** The form of tab 1 *)
(* ================================================================== *)

Section IntegerColumn.
Import JSString.

Lemma isIntegerLiteral_digits (ds : t) :
  ds <> [] -> forallb isDigit ds = true ->
  isIntegerLiteral ds = true /\ isIntegerLiteral (45%N :: ds) = true.
Proof.
  intros Hne Hd. destruct ds as [|c r]; [congruence|]. split.
  - pose proof Hd as Hd'. simpl in Hd'. apply andb_prop in Hd' as [Hc _].
    destruct (digit_not_sign c Hc) as (N1 & _).
    replace (isIntegerLiteral (c :: r)) with (forallb isDigit (c :: r));
      [assumption|].
    unfold isIntegerLiteral. destruct c as [|p]; [reflexivity|].
    do 6 (destruct p as [p|p|]; try reflexivity). congruence.
  - exact Hd.
Qed.

Lemma NilZero_numeral (d : Decimal.uint) :
  exists ds,
    of_ascii (NilZero.string_of_uint d) = ds /\ ds <> []
    /\ forallb isDigit ds = true /\ digitsValue 10 ds = Z.of_uint d.
Proof.
  destruct d; simpl NilZero.string_of_uint;
    eexists; (split; [reflexivity|]);
    (split; [discriminate|]);
    (split; [first [reflexivity|apply (numeral_digits (Decimal.D0 d))
                   |apply (numeral_digits (Decimal.D1 d))
                   |apply (numeral_digits (Decimal.D2 d))
                   |apply (numeral_digits (Decimal.D3 d))
                   |apply (numeral_digits (Decimal.D4 d))
                   |apply (numeral_digits (Decimal.D5 d))
                   |apply (numeral_digits (Decimal.D6 d))
                   |apply (numeral_digits (Decimal.D7 d))
                   |apply (numeral_digits (Decimal.D8 d))
                   |apply (numeral_digits (Decimal.D9 d))]|]);
    first [reflexivity
          |apply (digitsValue_numeral (Decimal.D0 d))
          |apply (digitsValue_numeral (Decimal.D1 d))
          |apply (digitsValue_numeral (Decimal.D2 d))
          |apply (digitsValue_numeral (Decimal.D3 d))
          |apply (digitsValue_numeral (Decimal.D4 d))
          |apply (digitsValue_numeral (Decimal.D5 d))
          |apply (digitsValue_numeral (Decimal.D6 d))
          |apply (digitsValue_numeral (Decimal.D7 d))
          |apply (digitsValue_numeral (Decimal.D8 d))
          |apply (digitsValue_numeral (Decimal.D9 d))].
Qed.

End IntegerColumn.


Section FloatColumn.
Import JSString.

Lemma trimStart_blank (v : t) :
  forallb isWhiteSpace v = true -> trimStart v = [].
Proof. intros H. now destruct (takeWhile_all isWhiteSpace v H). Qed.

Lemma Number_blank (v : t) :
  forallb isWhiteSpace v = true -> Number v = lit 0.
Proof.
  intros H. unfold Number, trim. now rewrite (trimStart_blank v H).
Qed.

Lemma parseFloat_blank (v : t) :
  forallb isWhiteSpace v = true -> parseFloat v = NaN.
Proof.
  intros H. unfold parseFloat. now rewrite (trimStart_blank v H).
Qed.

(** What a decimal literal begins with: [Infinity], a digit, or a dot
    and a digit. *)
Lemma unsignedDecimal_None (s : t) :
  unsignedDecimal s = None
  <-> startsWith (of_ascii "Infinity") s = false
      /\ match s with
         | c :: r =>
             isDigit c = false
             /\ (c = 46%N -> match r with
                             | d :: _ => isDigit d = false
                             | [] => True
                             end)
         | [] => True
         end.
Proof.
  unfold unsignedDecimal.
  destruct (startsWith (of_ascii "Infinity") s) eqn:Hinf.
  - split; [discriminate|]. intros [H _]. discriminate H.
  - destruct s as [|c r].
    + simpl. tauto.
    + cbn [takeWhile dropWhile]. destruct (isDigit c) eqn:Hc.
      * destruct (match dropWhile isDigit r with
                  | 46%N :: r0 => (takeWhile isDigit r0, dropWhile isDigit r0)
                  | _ => ([], dropWhile isDigit r)
                  end) as [fp r2].
        destruct (exponentPart r2) as [e r3].
        split; [discriminate|]. intros [_ [H _]]. discriminate H.
      * destruct (N.eqb_spec c 46) as [->|Hdot].
        -- destruct r as [|d r']; cbn [takeWhile dropWhile].
           ++ split; [auto|reflexivity].
           ++ destruct (isDigit d) eqn:Hd.
              ** destruct (exponentPart (dropWhile isDigit r')) as [e r3].
                 split; [discriminate|]. intros [_ [_ H]].
                 specialize (H eq_refl). discriminate H.
              ** split; [auto|reflexivity].
        -- assert (E : match c :: r with
                       | 46%N :: r0 => (takeWhile isDigit r0, dropWhile isDigit r0)
                       | _ => ([], c :: r)
                       end = ([], c :: r)).
           { destruct c as [|p]; [reflexivity|].
             do 6 (destruct p as [p|p|]; try reflexivity). congruence. }
           rewrite E. split; [|reflexivity].
           intros _. split; [reflexivity|]. split; [reflexivity|].
           intros ->. congruence.
Qed.

Lemma startsWith_app (p s w : t) :
  startsWith p s = true -> startsWith p (s ++ w) = true.
Proof.
  unfold startsWith. revert s.
  induction p as [|a p IH]; intros s H; [reflexivity|].
  destruct s as [|b s]; [discriminate|].
  apply andb_prop in H as [Hl H]. simpl in H. apply andb_prop in H as [Hab H].
  simpl. rewrite Hab. simpl.
  assert (Hs : startsWith p s = true).
  { unfold startsWith. rewrite H. simpl in Hl. now rewrite Hl. }
  specialize (IH s Hs). unfold startsWith in IH.
  apply andb_prop in IH as [IH1 IH2]. rewrite IH2.
  simpl in IH1 |- *. now rewrite IH1.
Qed.

(** A literal stays one when something is appended. *)
Lemma unsignedDecimal_app (s w : t) :
  unsignedDecimal s <> None -> unsignedDecimal (s ++ w) <> None.
Proof.
  intros H Hn. apply H. apply unsignedDecimal_None.
  apply unsignedDecimal_None in Hn as [Hinf Hhead]. split.
  - destruct (startsWith (of_ascii "Infinity") s) eqn:E; [|reflexivity].
    apply (startsWith_app _ _ w) in E. congruence.
  - destruct s as [|c r]; [exact I|].
    simpl in Hhead. destruct Hhead as [Hc Hdot]. split; [assumption|].
    intros E. specialize (Hdot E). destruct r as [|d r']; [exact I|].
    exact Hdot.
Qed.

Lemma trimEnd_split (s : t) :
  exists w, s = trimEnd s ++ w /\ forallb isWhiteSpace w = true.
Proof.
  unfold trimEnd. exists (rev (takeWhile isWhiteSpace (rev s))). split.
  - rewrite <- rev_app_distr, takeWhile_dropWhile. now rewrite rev_involutive.
  - rewrite forallb_forall. intros c Hc. apply in_rev in Hc.
    clear -Hc. induction (rev s) as [|a l IH]; [destruct Hc|].
    simpl in Hc. destruct (isWhiteSpace a) eqn:E; [|destruct Hc].
    destruct Hc as [<-|Hc]; auto.
Qed.

Lemma signed_sign (s : t) : fst (signed s) = 1%Z \/ fst (signed s) = (-1)%Z.
Proof.
  unfold signed. destruct s as [|c r]; [now left|].
  destruct c as [|p]; [now left|].
  do 6 (destruct p as [p|p|]; try (now left)); now right.
Qed.

Lemma signed_app (s w : t) :
  s <> [] -> signed (s ++ w) = (fst (signed s), snd (signed s) ++ w).
Proof.
  intros H. destruct s as [|c r]; [congruence|].
  unfold signed. simpl app. destruct c as [|p]; [reflexivity|].
  do 6 (destruct p as [p|p|]; try reflexivity).
Qed.

Lemma signed_value_not_NaN (sg : Z) (v : number) :
  sg = 1%Z \/ sg = (-1)%Z -> v = PosInf \/ (exists q, v = Fin q) ->
  isNaN (lit sg * v)%js = false.
Proof.
  intros [-> | ->] [-> | [q ->]]; reflexivity.
Qed.

Lemma unsignedDecimal_value (s : t) (v : number) (r : t) :
  unsignedDecimal s = Some (v, r) -> v = PosInf \/ exists q, v = Fin q.
Proof.
  unfold unsignedDecimal.
  destruct (startsWith _ s); [intros H; injection H as <- _; now left|].
  destruct (match dropWhile isDigit s with
            | 46%N :: r0 => (takeWhile isDigit r0, dropWhile isDigit r0)
            | _ => ([], dropWhile isDigit s)
            end) as [fp r2].
  destruct (exponentPart r2) as [e r3].
  destruct (takeWhile isDigit s), fp; try discriminate;
    intros H; injection H as <- _; right; eauto.
Qed.

Lemma nonDecimal_head (s : t) (v : number) :
  nonDecimal s = Some v -> exists r, s = 48%N :: r.
Proof.
  unfold nonDecimal. destruct s as [|c r]; [discriminate|].
  destruct c as [|p]; [discriminate|].
  do 6 (destruct p as [p|p|]; try discriminate). eauto.
Qed.

(** A value [Number] accepts and that is not blank is a value
    [parseFloat] reads, at least in part. *)
Lemma Number_then_parseFloat (v : t) :
  isNaN (Number v) = false ->
  trimStart v <> [] ->
  isNaN (parseFloat v) = false.
Proof.
  unfold Number, parseFloat, trim. intros HN Hne.
  destruct (trimEnd_split (trimStart v)) as (w & Hsplit & Hw).
  set (S := trimEnd (trimStart v)) in *.
  assert (HS : S <> []).
  { intros E. rewrite E in Hsplit. simpl in Hsplit. subst w.
    destruct (trimStart v) as [|c r] eqn:ET; [congruence|].
    simpl in Hw. apply andb_prop in Hw as [Hc _].
    unfold trimStart in ET. clear -ET Hc.
    induction v as [|a v IH]; [discriminate|].
    simpl in ET. destruct (isWhiteSpace a) eqn:Ea; [auto|].
    injection ET as -> _. congruence. }
  assert (HN' : isNaN (match nonDecimal S with
                       | Some v0 => v0
                       | None =>
                           let (sign, r) := signed S in
                           match unsignedDecimal r with
                           | Some (v0, []) => (lit sign * v0)%js
                           | _ => NaN
                           end
                       end) = false).
  { destruct S; [congruence|exact HN]. }
  clear HN. rewrite Hsplit. rewrite (signed_app w HS).
  destruct (nonDecimal S) as [nv|] eqn:Hnd.
  - destruct (nonDecimal_head S Hnd) as [r ->]. cbn [signed fst snd].
    destruct (unsignedDecimal ((48%N :: r) ++ w)) as [[val rest]|] eqn:Hu.
    + apply signed_value_not_NaN; [now left|].
      now apply unsignedDecimal_value with ((48%N :: r) ++ w) rest.
    + apply unsignedDecimal_None in Hu as [_ [Hd _]]. discriminate Hd.
  - destruct (signed S) as [sg r] eqn:Hsg. cbn [fst snd].
    destruct (unsignedDecimal r) as [[val rest]|] eqn:Hu;
      [|discriminate HN'].
    destruct (unsignedDecimal (r ++ w)) as [[val' rest']|] eqn:Hu'.
    + apply signed_value_not_NaN.
      * pose proof (signed_sign S) as Hs. now rewrite Hsg in Hs.
      * now apply unsignedDecimal_value with (r ++ w) rest'.
    + exfalso. apply (@unsignedDecimal_app r w); [congruence|assumption].
Qed.

End FloatColumn.

Section FormArrays.
Import Tab1.

Lemma replace_at_length {A : Type} (idx : nat) (w : A) (a : list A) :
  List.length (replace_at idx w a) = List.length a.
Proof. apply mapi_length. Qed.

Lemma replace_at_same {A : Type} (idx : nat) (w : A) (a : list A) :
  (idx < List.length a)%nat -> nth_error (replace_at idx w a) idx = Some w.
Proof.
  intros H. unfold replace_at. rewrite mapi_nth_error.
  destruct (nth_error a idx) eqn:E; [|apply nth_error_None in E; lia].
  simpl. now rewrite Nat.eqb_refl.
Qed.

Lemma replace_at_other {A : Type} (idx j : nat) (w : A) (a : list A) :
  j <> idx -> nth_error (replace_at idx w a) j = nth_error a j.
Proof.
  intros H. unfold replace_at. rewrite mapi_nth_error.
  destruct (nth_error a j); [|reflexivity].
  simpl. apply Nat.eqb_neq in H. now rewrite H.
Qed.

Lemma replace_at_out_of_range {A : Type} (idx : nat) (w : A) (a : list A) :
  (List.length a <= idx)%nat -> replace_at idx w a = a.
Proof.
  intros H. apply nth_error_ext. intros j.
  destruct (Nat.eq_dec j idx) as [->|N]; [|now apply replace_at_other].
  unfold replace_at. rewrite mapi_nth_error.
  apply nth_error_None in H. now rewrite H.
Qed.

End FormArrays.



(** A non-empty value made of white space only passes the validation of
    a float column ([Number] reads it as 0) but is refused at submit
    ([parseFloat] reads [NaN]): the column shows the submit error, the
    loading flag is cleared and nothing is posted. *)
Theorem blank_float_is_refused_at_submit (idx : nat)
    (columns : list Tab1.ColumnConfig) (col : Tab1.ColumnConfig)
    (inputs : list JSString.t) (v : JSString.t) (s : Tab1.State) :
  nth_error columns idx = Some col ->
  Tab1.valueType col = Tab1.float ->
  nth_error inputs idx = Some v ->
  v <> [] ->
  forallb JSString.isWhiteSpace v = true ->
  (idx < List.length (Tab1.errors s))%nat ->
  (idx < List.length (Tab1.loading s))%nat ->
  Tab1.validateInput v Tab1.float = None
  /\ snd (Tab1.handleFormSubmit idx columns inputs s) = Tab1.Returned
  /\ nth_error (Tab1.errors (fst (Tab1.handleFormSubmit idx columns inputs s)))
               idx
     = Some (Some "実数を入力してください")
  /\ nth_error (Tab1.loading (fst (Tab1.handleFormSubmit idx columns inputs s)))
               idx
     = Some false.
Proof.
  intros Hcol Hfl Hv Hne Hws He Hl.
  split.
  { unfold Tab1.validateInput. rewrite (Number_blank v Hws).
    now destruct v. }
  unfold Tab1.handleFormSubmit. rewrite Hcol, Hfl, Hv.
  cbn [Tab1.ToString]. rewrite (parseFloat_blank v Hws).
  cbn [JSString.isNaN fst snd]. split; [reflexivity|].
  cbn [Tab1.errors Tab1.loading Tab1.setLoading Tab1.setErrors
       Tab1.setResponses].
  split; apply replace_at_same; now rewrite replace_at_length.
Qed.

Lemma blank_float_is_refused_at_submit_witness :
  Tab1.validateInput (JSString.of_ascii "  ") Tab1.float = None
  /\ snd (Tab1.handleFormSubmit 1 Tab1.columns
            [[]; JSString.of_ascii "  "; []] Tab1.init) = Tab1.Returned.
Proof.
  destruct (@blank_float_is_refused_at_submit 1 Tab1.columns
              {| Tab1.label := "実数 (half)"; Tab1.endpoint := "/half";
                 Tab1.inputType := "number"; Tab1.valueType := Tab1.float |}
              [[]; JSString.of_ascii "  "; []] (JSString.of_ascii "  ")
              Tab1.init eq_refl eq_refl eq_refl)
    as (H1 & H2 & _).
  - discriminate.
  - reflexivity.
  - simpl. lia.
  - simpl. lia.
  - split; assumption.
Defined.

(** A validated value of a float column that is not blank is posted:
    whatever [Number] accepts, [parseFloat] reads a number from. *)
Theorem validated_float_is_posted (idx : nat)
    (columns : list Tab1.ColumnConfig) (col : Tab1.ColumnConfig)
    (inputs : list JSString.t) (v : JSString.t) (s : Tab1.State) :
  nth_error columns idx = Some col ->
  Tab1.valueType col = Tab1.float ->
  nth_error inputs idx = Some v ->
  Tab1.validateInput v Tab1.float = None ->
  JSString.trimStart v <> [] ->
  JSString.isNaN (JSString.parseFloat v) = false
  /\ snd (Tab1.handleFormSubmit idx columns inputs s)
     = Tab1.Awaiting {| Tab1.request_endpoint := Tab1.endpoint col;
                        Tab1.request_value
                        := Tab1.VNumber (JSString.parseFloat v) |}.
Proof.
  intros Hcol Hfl Hv Hval Hne.
  assert (HN : JSString.isNaN (JSString.Number v) = false).
  { unfold Tab1.validateInput in Hval. destruct v as [|c r]; [now elim Hne|].
    destruct (JSString.isNaN (JSString.Number (c :: r)));
      [discriminate|reflexivity]. }
  pose proof (Number_then_parseFloat v HN Hne) as P.
  split; [exact P|].
  unfold Tab1.handleFormSubmit. rewrite Hcol, Hfl, Hv.
  cbn [Tab1.ToString]. now rewrite P.
Qed.

Lemma validated_float_is_posted_witness :
  snd (Tab1.handleFormSubmit 1 Tab1.columns
         [[]; JSString.of_ascii "0x10"; []] Tab1.init)
  = Tab1.Awaiting {| Tab1.request_endpoint := "/half";
                     Tab1.request_value := Tab1.VNumber (lit 0) |}.
Proof.
  destruct (@validated_float_is_posted 1 Tab1.columns
              {| Tab1.label := "実数 (half)"; Tab1.endpoint := "/half";
                 Tab1.inputType := "number"; Tab1.valueType := Tab1.float |}
              [[]; JSString.of_ascii "0x10"; []] (JSString.of_ascii "0x10")
              Tab1.init eq_refl eq_refl eq_refl)
    as (_ & H).
  - reflexivity.
  - discriminate.
  - rewrite H. reflexivity.
Defined.

(** A submit always ends with the loading flag of its column down and
    with exactly one of its response and its error set.  Either the
    value is refused before anything is sent: an error, no response.  Or a
    request is awaited, with the flag up and both cleared, and once it is
    answered the column holds the response and no error, or a non-empty
    error and no response. *)
Theorem submit_settles (idx : nat) (columns : list Tab1.ColumnConfig)
    (col : Tab1.ColumnConfig) (inputs : list JSString.t) (s : Tab1.State)
    (reply : UseFetch.Reply) :
  nth_error columns idx = Some col ->
  (idx < List.length (Tab1.responses s))%nat ->
  (idx < List.length (Tab1.loading s))%nat ->
  (idx < List.length (Tab1.errors s))%nat ->
  let s1 := fst (Tab1.handleFormSubmit idx columns inputs s) in
  match snd (Tab1.handleFormSubmit idx columns inputs s) with
  | Tab1.Threw => False
  | Tab1.Returned =>
      nth_error (Tab1.loading s1) idx = Some false
      /\ nth_error (Tab1.responses s1) idx = Some None
      /\ exists m, m <> "" /\ nth_error (Tab1.errors s1) idx = Some (Some m)
  | Tab1.Awaiting _ =>
      nth_error (Tab1.loading s1) idx = Some true
      /\ nth_error (Tab1.responses s1) idx = Some None
      /\ nth_error (Tab1.errors s1) idx = Some None
      /\ let s2 := Tab1.handleFormSubmit_settled idx (Tab1.postValue reply) s1 in
         nth_error (Tab1.loading s2) idx = Some false
         /\ ((exists data,
                nth_error (Tab1.responses s2) idx = Some (Some data)
                /\ nth_error (Tab1.errors s2) idx = Some None)
             \/ (exists m,
                   m <> "" /\ nth_error (Tab1.errors s2) idx = Some (Some m)
                   /\ nth_error (Tab1.responses s2) idx = Some None))
  end.
Proof.
  intros Hcol Hr Hl He. cbv zeta.
  assert (Start :
      let s1 := Tab1.setResponses (Tab1.replace_at idx None)
                  (Tab1.setErrors (Tab1.replace_at idx None)
                     (Tab1.setLoading (Tab1.replace_at idx true) s)) in
      let s2 := Tab1.handleFormSubmit_settled idx (Tab1.postValue reply) s1 in
      nth_error (Tab1.loading s1) idx = Some true
      /\ nth_error (Tab1.responses s1) idx = Some None
      /\ nth_error (Tab1.errors s1) idx = Some None
      /\ nth_error (Tab1.loading s2) idx = Some false
      /\ ((exists data,
             nth_error (Tab1.responses s2) idx = Some (Some data)
             /\ nth_error (Tab1.errors s2) idx = Some None)
          \/ (exists m,
                m <> "" /\ nth_error (Tab1.errors s2) idx = Some (Some m)
                /\ nth_error (Tab1.responses s2) idx = Some None))).
  { cbv zeta.
    split; [now apply replace_at_same|].
    split; [now apply replace_at_same|].
    split; [now apply replace_at_same|].
    unfold Tab1.handleFormSubmit_settled.
    destruct (Tab1.postValue reply) as [data|m];
      cbn [Tab1.loading Tab1.responses Tab1.errors Tab1.setLoading
           Tab1.setResponses Tab1.setErrors].
    - split; [apply replace_at_same; now rewrite replace_at_length|].
      left. exists data. split.
      + apply replace_at_same. now rewrite replace_at_length.
      + now apply replace_at_same.
    - split; [apply replace_at_same; now rewrite replace_at_length|].
      right. exists (Tab1.message_or_default m).
      split; [destruct m; discriminate|]. split.
      + apply replace_at_same. now rewrite replace_at_length.
      + now apply replace_at_same. }
  assert (Refused :
    forall message : string,
      message <> "" ->
      let s1 := Tab1.setLoading (Tab1.replace_at idx false)
                  (Tab1.setErrors (Tab1.replace_at idx (Some message))
                     (Tab1.setResponses (Tab1.replace_at idx None)
                        (Tab1.setErrors (Tab1.replace_at idx None)
                           (Tab1.setLoading (Tab1.replace_at idx true) s)))) in
      nth_error (Tab1.loading s1) idx = Some false
      /\ nth_error (Tab1.responses s1) idx = Some None
      /\ exists m, m <> "" /\ nth_error (Tab1.errors s1) idx = Some (Some m)).
  { intros message Hm. cbv zeta.
    cbn [Tab1.loading Tab1.responses Tab1.errors Tab1.setLoading
         Tab1.setResponses Tab1.setErrors].
    split; [apply replace_at_same; now rewrite replace_at_length|].
    split; [now apply replace_at_same|].
    exists message. split; [assumption|].
    apply replace_at_same. now rewrite replace_at_length. }
  unfold Tab1.handleFormSubmit. rewrite Hcol.
  destruct (Tab1.valueType col).
  - destruct (JSString.isNaN _); cbn [fst snd].
    + apply Refused. discriminate.
    + cbv zeta in Start. destruct Start as (H1 & H2 & H3 & H4 & H5). auto.
  - destruct (JSString.isNaN _); cbn [fst snd].
    + apply Refused. discriminate.
    + cbv zeta in Start. destruct Start as (H1 & H2 & H3 & H4 & H5). auto.
  - cbn [fst snd]. cbv zeta in Start. destruct Start as (H1 & H2 & H3 & H4 & H5). auto.
Qed.

Lemma submit_settles_witness :
  nth_error
    (Tab1.loading
       (Tab1.handleFormSubmit_settled 2
          (Tab1.postValue (UseFetch.NetworkError "Failed to fetch"))
          (fst (Tab1.handleFormSubmit 2 Tab1.columns
                  [[]; []; JSString.of_ascii "abc"] Tab1.init)))) 2
  = Some false.
Proof.
  pose proof (@submit_settles 2 Tab1.columns
                {| Tab1.label := "文字列 (repeat)"; Tab1.endpoint := "/repeat";
                   Tab1.inputType := "text"; Tab1.valueType := Tab1.string_ |}
                [[]; []; JSString.of_ascii "abc"] Tab1.init
                (UseFetch.NetworkError "Failed to fetch") eq_refl
                ltac:(simpl; lia) ltac:(simpl; lia) ltac:(simpl; lia)) as H.
  cbv zeta in H. simpl snd in H. destruct H as (_ & _ & _ & H & _).
  exact H.
Defined.

Section FormEvents.

Lemma replace_at_read {A : Type} (idx : nat) (w v : A) (a : list A) :
  nth_error (Tab1.replace_at idx w a) idx = Some v -> v = w.
Proof.
  intros H. destruct (Nat.lt_ge_cases idx (List.length a)) as [L|L].
  - rewrite (replace_at_same w a L) in H. congruence.
  - apply (f_equal (@List.length A)) in H || idtac.
    assert (E : nth_error (Tab1.replace_at idx w a) idx = None).
    { apply nth_error_None. now rewrite replace_at_length. }
    congruence.
Qed.

(** The messages of [validateInput] are not empty: [!err] holds for
    [null] only. *)
Lemma validateInput_message (v : JSString.t) (t : Tab1.ValueType) :
  Tab1.no_message (Tab1.validateInput v t) = true ->
  Tab1.validateInput v t = None.
Proof.
  unfold Tab1.validateInput.
  destruct t, v; try reflexivity.
  - destruct (negb _); [discriminate|reflexivity].
  - destruct (JSString.isNaN _); [discriminate|reflexivity].
Qed.

Ltac form_cases :=
  repeat match goal with
         | |- context [match nth_error ?l ?i with _ => _ end] =>
             destruct (nth_error l i) eqn:?
         | |- context [match ?b with true => _ | false => _ end] =>
             destruct b eqn:?
         | |- context [Tab1.valueType ?c] =>
             destruct (Tab1.valueType c) eqn:?
         | |- context [Tab1.postValue ?r] =>
             destruct (Tab1.postValue r) eqn:?
         end.

Ltac form_fields :=
  cbn [fst snd Tab1.inputs Tab1.responses Tab1.loading Tab1.errors
       Tab1.setInputs Tab1.setResponses Tab1.setLoading Tab1.setErrors].

(** One event leaves the other columns as they are. *)
Lemma step_other_column (s : Tab1.State) (ev : Tab1.Event) (j : nat) :
  j <> column_of ev -> column_view j (Tab1.step s ev) = column_view j s.
Proof.
  intros H. unfold column_view.
  destruct ev as [idx value|idx|idx reply]; simpl in H;
    unfold Tab1.step, Tab1.handleInputChange, Tab1.handleFormSubmit,
      Tab1.handleFormSubmit_settled;
    form_cases; form_fields;
    rewrite ?(replace_at_other _ _ H); reflexivity.
Qed.

Lemma step_three_columns (s : Tab1.State) (ev : Tab1.Event) :
  three_columns s -> three_columns (Tab1.step s ev).
Proof.
  unfold three_columns. intros H.
  destruct ev as [idx value|idx|idx reply];
    unfold Tab1.step, Tab1.handleInputChange, Tab1.handleFormSubmit,
      Tab1.handleFormSubmit_settled;
    form_cases; form_fields;
    rewrite ?replace_at_length; exact H.
Qed.

Lemma step_inputs_validated (s : Tab1.State) (ev : Tab1.Event) :
  inputs_validated s -> inputs_validated (Tab1.step s ev).
Proof.
  intros H.
  assert (Same : forall s', Tab1.inputs s' = Tab1.inputs s ->
                            inputs_validated s').
  { intros s' E i col v Hc Hv. rewrite E in Hv. exact (H i col v Hc Hv). }
  destruct ev as [idx value|idx|idx reply].
  - unfold Tab1.step.
    destruct (nth_error (Tab1.loading s) idx) as [[|]|]; try exact H;
      unfold Tab1.handleInputChange;
      destruct (nth_error Tab1.columns idx) as [col|] eqn:Hcol; try exact H;
      destruct (Tab1.no_message _) eqn:Hm;
      try (apply Same; reflexivity);
      apply validateInput_message in Hm;
      intros i col' v Hc Hv; form_fields; cbn [Tab1.inputs Tab1.setErrors Tab1.setInputs] in Hv;
      (destruct (Nat.eq_dec i idx) as [->|N];
       [apply replace_at_read in Hv; subst v; congruence
       |rewrite (replace_at_other _ _ N) in Hv; exact (H i col' v Hc Hv)]).
  - apply Same. unfold Tab1.step, Tab1.handleFormSubmit.
    form_cases; reflexivity.
  - apply Same. unfold Tab1.step, Tab1.handleFormSubmit_settled.
    form_cases; reflexivity.
Qed.

Lemma step_quiet_while_loading (s : Tab1.State) (ev : Tab1.Event) :
  three_columns s -> quiet_while_loading s ->
  quiet_while_loading (Tab1.step s ev).
Proof.
  intros (Li & Lr & Ll & Le) H j Hj.
  destruct (Nat.eq_dec j (column_of ev)) as [->|N].
  2:{ pose proof (step_other_column s ev N) as F. unfold column_view in F.
      injection F as _ Fr Fl Fe. rewrite Fr, Fe. apply H. now rewrite <- Fl. }
  assert (In3 : forall idx b,
             nth_error (Tab1.replace_at idx b (Tab1.loading s)) idx = Some true ->
             (idx < 3)%nat).
  { intros idx b E.
    assert (L : (idx < List.length (Tab1.replace_at idx b (Tab1.loading s)))%nat)
      by (apply nth_error_Some; congruence).
    rewrite replace_at_length in L. lia. }
  destruct ev as [idx value|idx|idx reply]; simpl column_of in *.
  - unfold Tab1.step in *.
    destruct (nth_error (Tab1.loading s) idx) as [[|]|] eqn:El.
    + now apply H.
    + exfalso. revert Hj. unfold Tab1.handleInputChange.
      form_cases; form_fields; congruence.
    + exfalso. revert Hj. unfold Tab1.handleInputChange.
      form_cases; form_fields; congruence.
  - unfold Tab1.step in *.
    destruct (Tab1.submit_disabled idx s); [now apply H|].
    revert Hj. unfold Tab1.handleFormSubmit.
    destruct (nth_error Tab1.columns idx) as [col|];
      [destruct (Tab1.valueType col);
       try destruct (JSString.isNaN _)|];
      form_fields; intros Hj.
    all: try (apply replace_at_read in Hj; discriminate).
    all: pose proof (In3 idx true Hj) as L;
      split; apply replace_at_same; lia.
  - exfalso. revert Hj. unfold Tab1.step, Tab1.handleFormSubmit_settled.
    destruct (Tab1.postValue reply); form_fields; intros Hj;
      apply replace_at_read in Hj; discriminate.
Qed.

Lemma run_snoc (s : Tab1.State) (evs : list Tab1.Event) (ev : Tab1.Event) :
  Tab1.run s (evs ++ [ev]) = Tab1.step (Tab1.run s evs) ev.
Proof. unfold Tab1.run. now rewrite fold_left_app. Qed.

Lemma init_three_columns : three_columns Tab1.init.
Proof. repeat split. Qed.

Lemma run_three_columns (evs : list Tab1.Event) :
  three_columns (Tab1.run Tab1.init evs).
Proof.
  induction evs as [|ev evs IH] using rev_ind; [exact init_three_columns|].
  rewrite run_snoc. now apply step_three_columns.
Qed.

Lemma run_inputs_validated (evs : list Tab1.Event) :
  inputs_validated (Tab1.run Tab1.init evs).
Proof.
  induction evs as [|ev evs IH] using rev_ind.
  - intros [|[|[|i]]] col v Hc Hv; simpl in Hv;
      try (destruct i; discriminate);
      injection Hv as <-; now destruct (Tab1.valueType col).
  - rewrite run_snoc. now apply step_inputs_validated.
Qed.

End FormEvents.

(** The columns of the form do not interfere: events of other columns,
    whatever they are and however many, leave the field, the response, the
    loading flag and the error of a column as they were. *)
Theorem events_touch_one_column (s : Tab1.State) (evs : list Tab1.Event)
    (j : nat) :
  Forall (fun ev => column_of ev <> j) evs ->
  column_view j (Tab1.run s evs) = column_view j s.
Proof.
  intros H. revert s. induction H as [|ev evs Hev _ IH]; intros s.
  - reflexivity.
  - unfold Tab1.run. simpl. fold (Tab1.run (Tab1.step s ev) evs).
    rewrite IH. apply step_other_column. congruence.
Qed.

Lemma events_touch_one_column_witness :
  column_view 2
    (Tab1.run Tab1.init
       [Tab1.Change 0 (JSString.of_ascii "7"); Tab1.Click 0;
        Tab1.Change 1 (JSString.of_ascii "x");
        Tab1.Answer 0 (UseFetch.NetworkError "Failed to fetch")])
  = (Some [], Some None, Some false, Some None).
Proof.
  apply (@events_touch_one_column Tab1.init
           [Tab1.Change 0 (JSString.of_ascii "7"); Tab1.Click 0;
            Tab1.Change 1 (JSString.of_ascii "x");
            Tab1.Answer 0 (UseFetch.NetworkError "Failed to fetch")] 2).
  repeat constructor; simpl; lia.
Defined.

(** Whatever the user types and clicks and whatever the network answers,
    the four arrays keep one entry per column, and what a field holds has
    passed the validation of its column: a rejected keystroke never
    reaches [inputs]. *)
Theorem fields_hold_validated_values (evs : list Tab1.Event) :
  let s := Tab1.run Tab1.init evs in
  three_columns s
  /\ forall idx col v,
       nth_error Tab1.columns idx = Some col ->
       nth_error (Tab1.inputs s) idx = Some v ->
       Tab1.validateInput v (Tab1.valueType col) = None.
Proof.
  split; [apply run_three_columns|apply run_inputs_validated].
Qed.



(** While a column is loading, it shows neither a response nor an error:
    the click cleared both, its field and its button are disabled, and
    nothing writes to them before the answer takes the flag down. *)
Theorem loading_column_shows_nothing (evs : list Tab1.Event) (idx : nat) :
  let s := Tab1.run Tab1.init evs in
  nth_error (Tab1.loading s) idx = Some true ->
  nth_error (Tab1.responses s) idx = Some None
  /\ nth_error (Tab1.errors s) idx = Some None.
Proof.
  cbv zeta. revert idx. change (quiet_while_loading (Tab1.run Tab1.init evs)).
  induction evs as [|ev evs IH] using rev_ind.
  - intros [|[|[|i]]] H; simpl in H; try discriminate.
    destruct i; discriminate.
  - rewrite run_snoc. apply step_quiet_while_loading; [|exact IH].
    apply run_three_columns.
Qed.

Lemma loading_column_shows_nothing_witness :
  nth_error
    (Tab1.responses
       (Tab1.run Tab1.init
          [Tab1.Change 2 (JSString.of_ascii "ab"); Tab1.Click 2;
           Tab1.Answer 2 (UseFetch.Http 200 "OK"
                            (UseFetch.Json (HttpLog.JString "abab")));
           Tab1.Click 2])) 2 = Some None
  /\ nth_error
       (Tab1.errors
          (Tab1.run Tab1.init
             [Tab1.Change 2 (JSString.of_ascii "ab"); Tab1.Click 2;
              Tab1.Answer 2 (UseFetch.Http 200 "OK"
                               (UseFetch.Json (HttpLog.JString "abab")));
              Tab1.Click 2])) 2 = Some None.
Proof.
  exact (@loading_column_shows_nothing
           [Tab1.Change 2 (JSString.of_ascii "ab"); Tab1.Click 2;
            Tab1.Answer 2 (UseFetch.Http 200 "OK"
                             (UseFetch.Json (HttpLog.JString "abab")));
            Tab1.Click 2] 2 eq_refl).
Defined.

(** Splitting the handlers off left what a keystroke does to the fields
    as it was, except possibly on the real-number column for a value that
    [Number] reads as [NaN]: everywhere else [handleInputChange] and the
    closure write the same fields, leave the responses and the loading
    flags alone, and throw together where there is no column. *)
Theorem split_handler_agrees_with_closure (idx : nat) (value : JSString.t)
    (s : Tab1.State) :
  (forall col, nth_error Tab1.columns idx = Some col ->
               Tab1.valueType col = Tab1.float ->
               JSString.isNaN (JSString.Number value) = false) ->
  without_errors (Tab1.handleInputChange idx value Tab1.columns s)
  = without_errors (InlineForm.handleChange idx value s).
Proof.
  intros H. unfold Tab1.handleInputChange, InlineForm.handleChange.
  destruct (nth_error Tab1.columns idx) as [col|]; [|reflexivity].
  specialize (H col eq_refl). unfold Tab1.validateInput.
  destruct (Tab1.valueType col).
  - destruct value as [|c r]; [reflexivity|].
    now destruct (JSString.isIntegerLiteral (c :: r)).
  - rewrite (H eq_refl). now destruct value.
  - reflexivity.
Qed.

Lemma split_handler_agrees_with_closure_witness :
  without_errors
    (Tab1.handleInputChange 1 (JSString.of_ascii "1e3") Tab1.columns Tab1.init)
  = without_errors
      (InlineForm.handleChange 1 (JSString.of_ascii "1e3") Tab1.init).
Proof.
  apply (@split_handler_agrees_with_closure 1 (JSString.of_ascii "1e3")
           Tab1.init).
  intros col _ _. reflexivity.
Defined.
